(** * Remote execution and connectivity layer of Drone-Control

    A shallow embedding of [ssh_executor.py] (releases v1.1 and v1.3):
    the reachability prober, the companion command executor with its
    retry loop and privilege-elevation rewrite, the dual-target
    execution, and the two Wi-Fi temperature pipelines.

    Conventions of the model.
    - Python [str] values are [string]s of bytes; the text handled here
      is ASCII, except for the degree sign, which is its two UTF-8 bytes.
    - Python [float] values are the rationals ([Q]) that binary64
      represents: [float], the arithmetic and the one-decimal
      formatting each round their exact result to the nearest binary64
      number, ties to even ([Num.to_float]).  A value of magnitude
      [2 ^ 1024] stands for an infinity or a NaN; no caller accepts one
      as a reading.
    - Every effect on the outside world is recorded in a chronological
      [log] of events; the answers of the network are read from an
      oracle indexed by a [clock] counting the network interactions made
      so far, so that an endpoint may come up or go down over time. *)

From Stdlib Require Import String Ascii List ZArith QArith Bool Lia.
From Stdlib Require Import Qabs Qpower Lqa.
Import ListNotations.

Local Open Scope string_scope.
Local Open Scope Z_scope.

(** ** Python values *)

Module Py.

(** Truth value of a [str]: empty is false. *)
Definition truthy (s : string) : bool :=
  match s with
  | EmptyString => false
  | String _ _ => true
  end.

(** Truth value of a value that is [None] or a [str]. *)
Definition truthy_opt (o : option string) : bool :=
  match o with
  | None => false
  | Some s => truthy s
  end.

(** [s.startswith(p)] *)
Fixpoint startswith (p s : string) : bool :=
  match p, s with
  | EmptyString, _ => true
  | String a p', String b s' => Ascii.eqb a b && startswith p' s'
  | String _ _, EmptyString => false
  end.

(** [s[n:]] for [n >= 0] *)
Fixpoint slice_from (n : nat) (s : string) : string :=
  match n, s with
  | O, _ => s
  | S n', String _ s' => slice_from n' s'
  | S _, EmptyString => EmptyString
  end.

(** [timeout if timeout is not None else default] *)
Definition or_default {A : Type} (o : option A) (d : A) : A :=
  match o with
  | Some a => a
  | None => d
  end.

End Py.

(** ** The outside world *)

(** What a call does to the outside world, in order. *)
Inductive event : Type :=
| EvSocket (ip port : string) (timeout : Z)
    (* socket.create_connection((ip, int(port)), timeout=timeout) *)
| EvConnect (ip : option string) (port user secret : string) (timeout : Z)
    (* SSHClient.connect(ip, int(port), user, secret, timeout=timeout) *)
| EvExec (cmd : string)
    (* SSHClient.exec_command(cmd), exit status and streams read *)
| EvClose
    (* SSHClient.close() *)
| EvSleep (seconds : Z).
    (* time.sleep(seconds) *)

(** How opening a session ends. *)
Inductive connect_outcome : Type :=
| ConnOk
| ConnAuthError      (* paramiko.AuthenticationException *)
| ConnError.         (* any other exception: refused, timed out, bad port *)

(** How running a command on an open session ends: an exception raised
    by [exec_command] or by a read, or the exit status with the text of
    both streams. *)
Inductive exec_outcome : Type :=
| ExecRaised
| ExecDone (exit_status : Z) (out err : string).

(** The network as the executor sees it.  The first argument is the
    clock: the number of network interactions made before this one.
    - [tcp_connect now ip port timeout]: whether
      [socket.create_connection((ip, int(port)), timeout)] returns; it
      is [false] when anything is raised, [int(port)] included;
    - [ssh_connect now ip port user secret timeout]: how
      [SSHClient.connect] ends;
    - [ssh_exec now cmd]: how the execution of [cmd] on the session just
      opened ends. *)
Record network : Type := mkNetwork {
  tcp_connect : nat -> string -> string -> Z -> bool;
  ssh_connect : nat -> option string -> string -> string -> string -> Z ->
                connect_outcome;
  ssh_exec : nat -> string -> exec_outcome
}.

Record world : Type := mkWorld {
  clock : nat;
  log : list event
}.

(** A computation that reads the clock and extends the log. *)
Definition M (A : Type) : Type := world -> A * world.

Definition ret {A : Type} (a : A) : M A := fun w => (a, w).

Definition bind {A B : Type} (m : M A) (f : A -> M B) : M B :=
  fun w => let (a, w') := m w in f a w'.

Notation "x <- m ;; k" := (bind m (fun x => k))
  (at level 61, m at next level, right associativity).
Notation "m ;;; k" := (bind m (fun _ => k))
  (at level 61, right associativity).

Definition emit (e : event) : M unit :=
  fun w => (tt, {| clock := clock w; log := log w ++ [e] |}).

Definition tick : M nat :=
  fun w => (clock w, {| clock := S (clock w); log := log w |}).

Definition sleep (seconds : Z) : M unit := emit (EvSleep seconds).

Definition socket_create_connection (net : network)
    (ip port : string) (timeout : Z) : M bool :=
  now <- tick ;;
  emit (EvSocket ip port timeout) ;;;
  ret (tcp_connect net now ip port timeout).

(** ** The executor object

    The fields [__init__] sets and the methods below read: the primary
    address as the configuration holds it, the credentials, the current
    target ([__init__] copies the primary address into it), the
    secondary address, the policy, and the Wi-Fi settings. *)

Record SSHExecutor : Type := mkExecutor {
  primary_ip : option string;     (* ssh_config["primary_ip"] *)
  primary_port : string;          (* ssh_config["primary_port"] *)
  username : string;
  password : string;
  current_ip : option string;
  current_port : string;
  secondary_ip : option string;
  secondary_port : string;
  timeout : Z;
  max_attempts : Z;
  wifi_iface : option string;
  wifi_offset : Q;                (* the number [float(...)] is given *)
  wifi_scale : Q
}.

(** The two assignments [self.current_ip = ip; self.current_port = port]. *)
Definition set_current (self : SSHExecutor) (ip : option string)
    (port : string) : SSHExecutor :=
  {| primary_ip := primary_ip self;
     primary_port := primary_port self;
     username := username self;
     password := password self;
     current_ip := ip;
     current_port := port;
     secondary_ip := secondary_ip self;
     secondary_port := secondary_port self;
     timeout := timeout self;
     max_attempts := max_attempts self;
     wifi_iface := wifi_iface self;
     wifi_offset := wifi_offset self;
     wifi_scale := wifi_scale self |}.

(** ** Reachability prober *)

(** The body of [for attempt in range(max_attempts)], with [todo]
    iterations left and [attempt] the loop variable. *)
Fixpoint is_reachable_loop (net : network) (ip port : string)
    (timeout max_attempts : Z) (todo : nat) (attempt : Z) : M bool :=
  match todo with
  | O => ret false
  | S todo' =>
      ok <- socket_create_connection net ip port timeout ;;
      if ok then ret true
      else
        (if attempt <? max_attempts - 1 then sleep 5 else ret tt) ;;;
        is_reachable_loop net ip port timeout max_attempts todo' (attempt + 1)
  end.

Definition is_reachable (net : network) (self : SSHExecutor)
    (ip port : string) (timeout_arg max_attempts_arg : option Z) : M bool :=
  let timeout := Py.or_default timeout_arg (timeout self) in
  let max_attempts := Py.or_default max_attempts_arg (max_attempts self) in
  is_reachable_loop net ip port timeout max_attempts
    (Z.to_nat max_attempts) 0.

(** [test_connection]: returns the reachable address (or [None]) and the
    executor as the call leaves it. *)
Definition probe_if_set (net : network) (self : SSHExecutor)
    (ip : option string) (port : string) : M bool :=
  match ip with
  | Some a =>
      if Py.truthy a then is_reachable net self a port None None
      else ret false
  | None => ret false
  end.

Definition test_connection (net : network) (self : SSHExecutor)
    : M (option string * SSHExecutor) :=
  primary_ok <- probe_if_set net self (current_ip self) (current_port self) ;;
  if primary_ok then ret (current_ip self, self)
  else
    secondary_ok <-
      probe_if_set net self (secondary_ip self) (secondary_port self) ;;
    if secondary_ok then
      ret (secondary_ip self,
           set_current self (secondary_ip self) (secondary_port self))
    else ret (None, self).

(** ** Command executor *)

(** The two releases differ in one point of the retry loop: v1.1 creates
    the client before the [try] and always closes it, v1.3 creates it in
    [_connect] and closes it only when the connection was made. *)
Inductive release : Type := V1_1 | V1_3.

Definition closes_unconnected_client (rel : release) : bool :=
  match rel with
  | V1_1 => true
  | V1_3 => false
  end.

(** [ssh.connect(self.current_ip, int(self.current_port), self.username,
    self.password, timeout=self.timeout)] *)
Definition connect_ (net : network) (self : SSHExecutor) : M connect_outcome :=
  now <- tick ;;
  emit (EvConnect (current_ip self) (current_port self) (username self)
          (password self) (timeout self)) ;;;
  ret (ssh_connect net now (current_ip self) (current_port self)
         (username self) (password self) (timeout self)).

(** [ssh.exec_command(cmd)] followed by the reads of the exit status and
    of the streams. *)
Definition exec_command (net : network) (cmd : string) : M exec_outcome :=
  now <- tick ;;
  emit (EvExec cmd) ;;;
  ret (ssh_exec net now cmd).

(** The command [execute_command] transmits for [command]. *)
Definition elevated (secret command : string) : string :=
  if Py.startswith "sudo " command then
    "echo " ++ secret ++ " | sudo -S " ++ Py.slice_from 5 command
  else command.

(** The [finally] clause after a failed [connect]. *)
Definition close_unconnected (rel : release) : M unit :=
  if closes_unconnected_client rel then emit EvClose else ret tt.

(** One iteration's [try] statement: [Some b] when it returns [b],
    [None] when an exception was caught and the loop goes on. *)
Definition execute_command_try (rel : release) (net : network)
    (self : SSHExecutor) (command : string) : M (option bool) :=
  c <- connect_ net self ;;
  match c with
  | ConnOk =>
      r <- exec_command net (elevated (password self) command) ;;
      emit EvClose ;;;
      match r with
      | ExecDone exit_status _ _ =>
          if exit_status =? 0 then ret (Some true) else ret (Some false)
      | ExecRaised => ret None
      end
  | ConnAuthError | ConnError =>
      close_unconnected rel ;;; ret None
  end.

Fixpoint execute_command_loop (rel : release) (net : network)
    (self : SSHExecutor) (command : string) (max_attempts : Z)
    (todo : nat) (attempt : Z) : M bool :=
  match todo with
  | O => ret false
  | S todo' =>
      r <- execute_command_try rel net self command ;;
      match r with
      | Some b => ret b
      | None =>
          (if attempt <? max_attempts - 1 then sleep 5 else ret tt) ;;;
          execute_command_loop rel net self command max_attempts
            todo' (attempt + 1)
      end
  end.

(** The guard [not self.current_ip or not self.password]. *)
Definition unconfigured (self : SSHExecutor) : bool :=
  negb (Py.truthy_opt (current_ip self)) || negb (Py.truthy (password self)).

Definition execute_command (rel : release) (net : network)
    (self : SSHExecutor) (command : string) (max_attempts_arg : option Z)
    : M bool :=
  if unconfigured self then ret false
  else
    let max_attempts := Py.or_default max_attempts_arg (max_attempts self) in
    execute_command_loop rel net self command max_attempts
      (Z.to_nat max_attempts) 0.

(** [(ok, stdout, stderr, exit_status)] *)
Definition capture : Type := (bool * string * string * Z)%type.

Definition execute_command_capture_try (rel : release) (net : network)
    (self : SSHExecutor) (command : string) : M (option capture) :=
  c <- connect_ net self ;;
  match c with
  | ConnOk =>
      r <- exec_command net command ;;
      emit EvClose ;;;
      match r with
      | ExecDone exit_status out err =>
          ret (Some (exit_status =? 0, out, err, exit_status))
      | ExecRaised => ret None
      end
  | ConnAuthError | ConnError =>
      close_unconnected rel ;;; ret None
  end.

Fixpoint execute_command_capture_loop (rel : release) (net : network)
    (self : SSHExecutor) (command : string) (max_attempts : Z)
    (todo : nat) (attempt : Z) : M capture :=
  match todo with
  | O => ret (false, "", "max attempts exceeded", -1)
  | S todo' =>
      r <- execute_command_capture_try rel net self command ;;
      match r with
      | Some res => ret res
      | None =>
          (if attempt <? max_attempts - 1 then sleep 5 else ret tt) ;;;
          execute_command_capture_loop rel net self command max_attempts
            todo' (attempt + 1)
      end
  end.

Definition execute_command_capture (rel : release) (net : network)
    (self : SSHExecutor) (command : string) (max_attempts_arg : option Z)
    : M capture :=
  if unconfigured self then ret (false, "", "no ip/password", -1)
  else
    let max_attempts := Py.or_default max_attempts_arg (max_attempts self) in
    execute_command_capture_loop rel net self command max_attempts
      (Z.to_nat max_attempts) 0.

(** [execute_command_all]: the result and the executor afterwards. *)
Definition execute_command_all (rel : release) (net : network)
    (self : SSHExecutor) (command : string) : M (bool * SSHExecutor) :=
  primary <- execute_command rel net self command None ;;
  if Py.truthy_opt (secondary_ip self) then
    let orig_ip := current_ip self in
    let orig_port := current_port self in
    let self1 := set_current self (secondary_ip self) (secondary_port self) in
    secondary <- execute_command rel net self1 command None ;;
    let self2 := set_current self1 orig_ip orig_port in
    ret (primary && secondary, self2)
  else ret (primary && true, self).

(** ** Text and numbers of the temperature pipelines *)

Module Text.

Definition code (c : ascii) : nat := nat_of_ascii c.

(** ASCII decimal digit, [\d] *)
Definition is_digit (c : ascii) : bool :=
  (48 <=? code c)%nat && (code c <=? 57)%nat.

(** ASCII whitespace as [str.isspace], [str.strip] and [\s] see it:
    tab, LF, VT, FF, CR, FS, GS, RS, US and space. *)
Definition is_space (c : ascii) : bool :=
  ((9 <=? code c)%nat && (code c <=? 13)%nat)
  || ((28 <=? code c)%nat && (code c <=? 32)%nat).

(** ASCII word character, [\w] *)
Definition is_word (c : ascii) : bool :=
  is_digit c
  || ((65 <=? code c)%nat && (code c <=? 90)%nat)
  || ((97 <=? code c)%nat && (code c <=? 122)%nat)
  || (code c =? 95)%nat.

(** ASCII line boundaries of [str.splitlines]: LF, VT, FF, CR, FS, GS, RS. *)
Definition is_linebreak (c : ascii) : bool :=
  ((10 <=? code c)%nat && (code c <=? 13)%nat)
  || ((28 <=? code c)%nat && (code c <=? 30)%nat).

Definition is_char (n : nat) (c : ascii) : bool := (code c =? n)%nat.

Fixpoint lstrip (s : string) : string :=
  match s with
  | String c s' => if is_space c then lstrip s' else s
  | EmptyString => EmptyString
  end.

Fixpoint rstrip (s : string) : string :=
  match s with
  | String c s' =>
      match rstrip s' with
      | EmptyString => if is_space c then EmptyString else String c EmptyString
      | r => String c r
      end
  | EmptyString => EmptyString
  end.

(** [s.strip()] *)
Definition strip (s : string) : string := rstrip (lstrip s).

(** Every character of [s] satisfies [p]. *)
Fixpoint all_chars (p : ascii -> bool) (s : string) : bool :=
  match s with
  | String c s' => p c && all_chars p s'
  | EmptyString => true
  end.

(** Longest prefix of digits, and what follows it. *)
Fixpoint span_digits (s : string) : string * string :=
  match s with
  | String c s' =>
      if is_digit c then
        let (ds, rest) := span_digits s' in (String c ds, rest)
      else (EmptyString, s)
  | EmptyString => (EmptyString, EmptyString)
  end.

(** [p] removed from the front of [s], when [s] starts with [p]. *)
Fixpoint after_prefix (p s : string) : option string :=
  match p, s with
  | EmptyString, _ => Some s
  | String a p', String b s' =>
      if Ascii.eqb a b then after_prefix p' s' else None
  | String _ _, EmptyString => None
  end.

(** The regular expression [-?\d+(?:\.\d+)?] anchored at the start of
    [s]: the matched text and the rest.  Each choice is greedy; a
    shorter choice would leave a digit or a dot in front of the rest. *)
Definition match_number (s : string) : option (string * string) :=
  let (sign, s1) :=
    match s with
    | String c s' => if is_char 45 c then ("-", s') else ("", s)
    | EmptyString => ("", s)
    end in
  match span_digits s1 with
  | (EmptyString, _) => None
  | (ds, s2) =>
      match s2 with
      | String c s3 =>
          if is_char 46 c then
            match span_digits s3 with
            | (EmptyString, _) => Some (sign ++ ds, s2)
            | (fs, s4) => Some (sign ++ ds ++ "." ++ fs, s4)
            end
          else Some (sign ++ ds, s2)
      | EmptyString => Some (sign ++ ds, s2)
      end
  end.

(** [temperature:\s*(-?\d+(?:\.\d+)?)] anchored at the start of [s]:
    group 1 and the length of the whole match. *)
Definition match_temperature (s : string) : option (string * nat) :=
  match after_prefix "temperature:" s with
  | Some s1 =>
      match match_number (lstrip s1) with
      | Some (g, rest) => Some (g, (String.length s - String.length rest)%nat)
      | None => None
      end
  | None => None
  end.

(** Group 1 of every match of [re.finditer] for the pattern above, left
    to right and not overlapping; [skip] characters still belong to the
    previous match. *)
Fixpoint finditer_temperature (skip : nat) (s : string) : list string :=
  match s with
  | EmptyString => []
  | String _ s' =>
      match skip with
      | S k => finditer_temperature k s'
      | O =>
          match match_temperature s with
          | Some (g, len) => g :: finditer_temperature (Nat.pred len) s'
          | None => finditer_temperature 0 s'
          end
      end
  end.

(** The degree sign, optional, as its UTF-8 bytes. *)
Definition skip_degree (s : string) : string :=
  match s with
  | String a (String b s') =>
      if is_char 194 a && is_char 176 b then s' else s
  | _ => s
  end.

(** [(-?\d+(?:\.\d+)?)\s*°?\s*[Cc]\b] anchored at the start of [s]. *)
Definition match_celsius (s : string) : option string :=
  match match_number s with
  | Some (g, rest) =>
      match lstrip (skip_degree (lstrip rest)) with
      | String c after =>
          if is_char 67 c || is_char 99 c then
            match after with
            | String d _ => if is_word d then None else Some g
            | EmptyString => Some g
            end
          else None
      | EmptyString => None
      end
  | None => None
  end.

(** Group 1 of [re.search] for the pattern above: the leftmost match. *)
Fixpoint search_celsius (s : string) : option string :=
  match s with
  | EmptyString => None
  | String _ s' =>
      match match_celsius s with
      | Some g => Some g
      | None => search_celsius s'
      end
  end.

(** [s.splitlines()]; [cur] is the line being read, reversed. *)
Fixpoint splitlines_from (cur : list ascii) (s : string) : list string :=
  match s with
  | EmptyString =>
      match cur with
      | [] => []
      | _ => [string_of_list_ascii (rev cur)]
      end
  | String c s' =>
      if is_linebreak c then
        string_of_list_ascii (rev cur) ::
        match s' with
        | String d s'' =>
            if is_char 13 c && is_char 10 d then splitlines_from [] s''
            else splitlines_from [] s'
        | EmptyString => []
        end
      else splitlines_from (c :: cur) s'
  end.

Definition splitlines (s : string) : list string := splitlines_from [] s.

End Text.

Module Num.

Import Text.

Definition digit_value (c : ascii) : Z := Z.of_nat (code c) - 48.

Fixpoint digits_value (acc : Z) (s : string) : Z :=
  match s with
  | String c s' => digits_value (10 * acc + digit_value c) s'
  | EmptyString => acc
  end.

(** A [digitpart] of a Python number: digits, single underscores allowed
    between them.  Returns the digits and what follows. *)
Fixpoint span_digitpart (s : string) : string * string :=
  match s with
  | String c s' =>
      if is_digit c then
        match s' with
        | String u t =>
            if is_char 95 u then
              match t with
              | String d _ =>
                  if is_digit d then
                    let (ds, rest) := span_digitpart t in (String c ds, rest)
                  else (String c EmptyString, s')
              | EmptyString => (String c EmptyString, s')
              end
            else
              let (ds, rest) := span_digitpart s' in (String c ds, rest)
        | EmptyString => (String c EmptyString, EmptyString)
        end
      else (EmptyString, s)
  | EmptyString => (EmptyString, EmptyString)
  end.

(** An optional sign: whether it is a minus, and what follows. *)
Definition take_sign (s : string) : bool * string :=
  match s with
  | String c s' =>
      if is_char 45 c then (true, s')
      else if is_char 43 c then (false, s')
      else (false, s)
  | EmptyString => (false, s)
  end.

(** The exponent of a number, [0] when there is none; [None] when what
    is left is not an exponent. *)
Definition exponent (s : string) : option Z :=
  match s with
  | EmptyString => Some 0
  | String c s' =>
      if is_char 101 c || is_char 69 c then
        let (neg, s1) := take_sign s' in
        match span_digitpart s1 with
        | (EmptyString, _) => None
        | (ds, EmptyString) =>
            Some (if neg then - digits_value 0 ds else digits_value 0 ds)
        | (_, String _ _) => None
        end
      else None
  end.

(** [mantissa * 10 ^ e] *)
Definition scale10 (mantissa e : Z) : Q :=
  if 0 <=? e then inject_Z (mantissa * 10 ^ e)
  else Qmake mantissa (Z.to_pos (10 ^ (- e))).

(** The whitespace [float] itself skips around a number: tab, LF, VT,
    FF, CR and space. *)
Definition is_float_space (c : ascii) : bool :=
  ((9 <=? code c)%nat && (code c <=? 13)%nat) || is_char 32 c.

Fixpoint float_lstrip (s : string) : string :=
  match s with
  | String c s' => if is_float_space c then float_lstrip s' else s
  | EmptyString => EmptyString
  end.

Fixpoint float_rstrip (s : string) : string :=
  match s with
  | String c s' =>
      match float_rstrip s' with
      | EmptyString =>
          if is_float_space c then EmptyString else String c EmptyString
      | r => String c r
      end
  | EmptyString => EmptyString
  end.

(** Nearest integer, ties to even. *)
Definition round_half_even (q : Q) : Z :=
  let n := Qnum q in
  let d := Zpos (Qden q) in
  let f := n / d in
  match 2 * (n mod d) ?= d with
  | Lt => f
  | Gt => f + 1
  | Eq => if Z.even f then f else f + 1
  end.

(** *** binary64 *)

(** [floor (log2 (p / q))] *)
Definition ilog2 (p q : positive) : Z :=
  let c := Z.log2 (Zpos p) - Z.log2 (Zpos q) in
  if Qle_bool (2 ^ c) (Zpos p # q) then c else c - 1.

(** The exponent of the unit in the last place of the binary64 numbers
    around [x]: 52 binary places below the binade of [x]; the subnormal
    numbers share that of [2 ^ -1022]. *)
Definition ulp_exponent (x : Q) : Z :=
  match Qnum x with
  | Z0 => -1074
  | Zpos p | Zneg p => Z.max (ilog2 p (Qden x)) (-1022) - 52
  end.

(** The multiple of the unit in the last place nearest to [x], ties to
    the even multiple. *)
Definition nearest (x : Q) : Q :=
  (inject_Z (round_half_even (x / 2 ^ ulp_exponent x))
   * 2 ^ ulp_exponent x)%Q.

(** The first magnitude past the binary64 range.  It stands for the
    values that are not finite: the callers only compare them with the
    plausible range, where the infinities and NaN fail alike. *)
Definition infinity : Q := (2 ^ 1024)%Q.

Definition is_finite (v : Q) : bool :=
  negb (Qle_bool infinity v) && negb (Qle_bool v (- infinity)).

(** Rounding past the greatest binary64 number overflows. *)
Definition saturate (r : Q) : Q :=
  if Qle_bool infinity r then infinity
  else if Qle_bool r (- infinity) then (- infinity)%Q
  else r.

(** The binary64 number nearest to [x], in lowest terms. *)
Definition to_float (x : Q) : Q := saturate (Qred (nearest x)).

(** [x - y], [x * y] and [x / y] (for [y] other than zero) on floats;
    an operand that is not finite gives a result that is not. *)
Definition fsub (x y : Q) : Q :=
  if is_finite x && is_finite y then to_float (x - y) else infinity.

Definition fmul (x y : Q) : Q :=
  if is_finite x && is_finite y then to_float (x * y) else infinity.

Definition fdiv (x y : Q) : Q :=
  if is_finite x && is_finite y then to_float (x / y) else infinity.

(** [float(text)] on the decimal forms; [None] stands for
    [ValueError].  A decimal past the binary64 range gives an
    infinity, as in Python.  The texts [inf], [infinity] and [nan],
    which Python also accepts, are [None] here: every caller compares
    the value with the plausible range, where an infinity or a NaN
    fails like an exception does. *)
Definition py_float (text : string) : option Q :=
  let (neg, s1) := take_sign (float_rstrip (float_lstrip text)) in
  let (ip, s2) := span_digitpart s1 in
  let (fp, s3) :=
    match s2 with
    | String c s' =>
        if is_char 46 c then span_digitpart s' else (EmptyString, s2)
    | EmptyString => (EmptyString, s2)
    end in
  match (ip ++ fp)%string with
  | EmptyString => None
  | ds =>
      match exponent s3 with
      | Some e =>
          let v := scale10 (digits_value 0 ds) (e - Z.of_nat (String.length fp)) in
          Some (to_float (if neg then (- v)%Q else v))
      | None => None
      end
  end.

Definition clamp_min : Q := (-40)%Q.
Definition clamp_max : Q := 130%Q.

(** [clamp_min <= t <= clamp_max] *)
Definition plausible (t : Q) : bool :=
  Qle_bool clamp_min t && Qle_bool t clamp_max.

(** [float(f"{v:.1f}")]: the decimal with one fractional digit nearest
    to the float [v], ties to the even digit, read back as a float. *)
Definition round_1f (v : Q) : Q :=
  to_float (Qmake (round_half_even (v * 10)%Q) 10).

(** [max(x :: xs)]: the first of the greatest elements. *)
Fixpoint py_max (x : Q) (xs : list Q) : Q :=
  match xs with
  | [] => x
  | y :: ys => py_max (if Qle_bool y x then x else y) ys
  end.

End Num.

(** ** Temperature pipeline, release v1.3 (cascade of three tiers) *)

Module V13.

Import Text Num.

(** The shell snippets the pipeline runs on the companion. *)
Inductive probe : Type :=
| ProbeWfbNics                       (* first token of WFB_NICS *)
| ProbeProcListing                   (* first wl* entry of /proc/net/rtl88x2eu *)
| ProbeThermalState (iface : string) (* /proc/net/rtl88x2eu/<iface>/thermal_state *)
| ProbeWfbCli                        (* temperature lines of wfb-cli *)
| ProbeSysfsHwmon.                   (* first readable temp1_input *)

(** What the companion prints for each snippet during one call;
    [None] when running it or reading its output raises. *)
Definition remote_host : Type := probe -> option string.

(** [_safe_read(cmd)] *)
Definition safe_read (remote : remote_host) (p : probe) : option string :=
  option_map strip (remote p).

Notation "x <-? m ;; k" :=
  (match m with Some x => k | None => None end)
  (at level 61, m at next level, right associativity).

(** [_pick_iface()]; [None] when a read raises. *)
Definition pick_iface (self : SSHExecutor) (remote : remote_host)
    : option string :=
  iface <-? safe_read remote ProbeWfbNics ;;
  if Py.truthy iface then Some iface
  else
    iface <-? safe_read remote ProbeProcListing ;;
    if Py.truthy iface then Some iface
    else Some (strip (Py.or_default (wifi_iface self) "")).

(** Tier A, the list [temps] built from [proc_out]. *)
Definition thermal_temps (proc_out : string) : list Q :=
  flat_map
    (fun g =>
       match py_float g with
       | Some t => if plausible t then [t] else []
       | None => []
       end)
    (finditer_temperature 0 proc_out).

Definition tier_a (proc_out : string) : option Q :=
  match thermal_temps proc_out with
  | [] => None
  | t :: ts => Some (round_1f (py_max t ts))
  end.

(** Tier B on the output of wfb-cli.  The outer [option] is [None] when
    [float] raises, which the outer handler of the method catches. *)
Definition tier_b (out : string) : option (option Q) :=
  match search_celsius out with
  | Some g =>
      val <-? py_float g ;;
      if plausible val then Some (Some (round_1f val)) else Some None
  | None => Some None
  end.

(** Tier C on the text read from sysfs. *)
Definition tier_c (val_s : string) : option Q :=
  if Py.truthy val_s then
    match py_float val_s with
    | Some v =>
        let v := if Qle_bool v 200 then v else fdiv v 1000 in
        if plausible v then Some (round_1f v) else None
    | None => None
    end
  else None.

(** The [try] body of the method once the session is open: the outer
    [option] is [None] when an exception reaches the handler. *)
Definition cascade (self : SSHExecutor) (remote : remote_host)
    : option (option Q) :=
  iface <-? pick_iface self remote ;;
  a <-? (if Py.truthy iface then
           proc_out <-? safe_read remote (ProbeThermalState iface) ;;
           Some (tier_a proc_out)
         else Some None) ;;
  match a with
  | Some t => Some (Some t)
  | None =>
      out <-? safe_read remote ProbeWfbCli ;;
      b <-? tier_b out ;;
      match b with
      | Some t => Some (Some t)
      | None =>
          val_s <-? safe_read remote ProbeSysfsHwmon ;;
          Some (tier_c val_s)
      end
  end.

(** [get_wifi_module_temperature]; [session] is [None] when [_connect]
    raises. *)
Definition get_wifi_module_temperature (self : SSHExecutor)
    (session : option remote_host) : option Q :=
  match session with
  | Some remote =>
      match cascade self remote with
      | Some reading => reading
      | None => None
      end
  | None => None
  end.

End V13.

(** ** Temperature pipeline, release v1.1 (linear transform of a raw value) *)

Module V11.

Import Text Num.

Definition dq : string := String (ascii_of_nat 34) EmptyString.

(** [proc_path] *)
Definition proc_path (iface : string) : string :=
  "/proc/net/rtl88x2eu/" ++ iface ++ "/thermal_state".

Definition sysfs_cmd : string :=
  "
sh -lc '
TO=2
for p in /sys/class/ieee80211/*/device/hwmon/*/temp1_input /sys/class/hwmon/hwmon*/temp1_input; do
  [ -r " ++ dq ++ "$p" ++ dq ++ " ] || continue
  v=$(timeout ${TO}s cat " ++ dq ++ "$p" ++ dq ++ " 2>/dev/null) || continue
  echo " ++ dq ++ "$v" ++ dq ++ "
done
'
".

(** Tier A on the result of the capture of [thermal_state]; [offset]
    and [scale] are floats. *)
Definition tier_a (offset scale : Q) (res : capture) : option Q :=
  let '(ok, out, _, _) := res in
  if ok && Py.truthy (strip out) then
    match py_float (strip out) with
    | Some raw =>
        let temp_c := fmul (fsub raw offset) scale in
        let temp_c :=
          if negb (plausible temp_c) && plausible raw then raw
          else temp_c in
        if plausible temp_c then Some (round_1f temp_c) else None
    | None => None
    end
  else None.

(** The loop [for val_s in out.splitlines()] of tier B. *)
Fixpoint tier_b_lines (lines : list string) : option Q :=
  match lines with
  | [] => None
  | val_s :: rest =>
      match py_float (strip val_s) with
      | Some val =>
          let val := if Qle_bool val 200 then val else fdiv val 1000 in
          if plausible val then Some (round_1f val)
          else tier_b_lines rest
      | None => tier_b_lines rest
      end
  end.

Definition tier_b (res : capture) : option Q :=
  let '(ok, out, _, _) := res in
  if ok && Py.truthy out then tier_b_lines (splitlines out) else None.

Section Pipeline.

(** [shlex.quote] of the Python standard library. *)
Variable shlex_quote : string -> string.

Definition thermal_cmd (iface : string) : string :=
  "sh -lc 'timeout 2s cat " ++ shlex_quote (proc_path iface)
  ++ " 2>/dev/null || true'".

Definition get_wifi_module_temperature (net : network)
    (self : SSHExecutor) : M (option Q) :=
  let offset := to_float (wifi_offset self) in
  let scale := to_float (wifi_scale self) in
  let iface := Py.or_default (wifi_iface self) "None" in
  a <- execute_command_capture V1_1 net self (thermal_cmd iface) None ;;
  match tier_a offset scale a with
  | Some t => ret (Some t)
  | None =>
      b <- execute_command_capture V1_1 net self sysfs_cmd None ;;
      ret (tier_b b)
  end.

End Pipeline.

End V11.

(** ** Sample executors and networks *)

(** The executor as [__init__] builds it from the default configuration,
    with a secondary address configured. *)
Definition drone : SSHExecutor :=
  {| primary_ip := Some "10.5.6.100";
     primary_port := "2222";
     username := "roz";
     password := "default_password";
     current_ip := Some "10.5.6.100";
     current_port := "2222";
     secondary_ip := Some "192.168.1.10";
     secondary_port := "22";
     timeout := 5;
     max_attempts := 3;
     wifi_iface := Some "wlx782288d993c0";
     wifi_offset := 32;
     wifi_scale := 2.5 |}.

(** Nothing answers. *)
Definition net_dead : network :=
  {| tcp_connect := fun _ _ _ _ => false;
     ssh_connect := fun _ _ _ _ _ _ => ConnError;
     ssh_exec := fun _ _ => ExecRaised |}.

(** Every connection is accepted and every command exits with [status]. *)
Definition net_exits (status : Z) : network :=
  {| tcp_connect := fun _ _ _ _ => true;
     ssh_connect := fun _ _ _ _ _ _ => ConnOk;
     ssh_exec := fun _ _ => ExecDone status "" "" |}.

(** The primary address is down during the first three interactions and
    up from then on; the secondary address is up all the time. *)
Definition net_primary_returns : network :=
  {| tcp_connect := fun now ip _ _ =>
       if String.eqb ip "10.5.6.100" then (3 <=? now)%nat
       else String.eqb ip "192.168.1.10";
     ssh_connect := fun _ _ _ _ _ _ => ConnOk;
     ssh_exec := fun _ _ => ExecDone 0 "" "" |}.

(** The primary address is up all the time and the secondary is down. *)
Definition net_primary_only : network :=
  {| tcp_connect := fun _ ip _ _ => String.eqb ip "10.5.6.100";
     ssh_connect := fun _ _ _ _ _ _ => ConnOk;
     ssh_exec := fun _ _ => ExecDone 0 "" "" |}.

(** The first connection is refused for its credentials, the second is
    made but the execution raises, every later connection is refused. *)
Definition net_flaky : network :=
  {| tcp_connect := fun _ _ _ _ => false;
     ssh_connect := fun now _ _ _ _ _ =>
       match now with
       | O => ConnAuthError
       | S O => ConnOk
       | _ => ConnError
       end;
     ssh_exec := fun _ _ => ExecRaised |}.

Definition world0 : world := {| clock := 0; log := [] |}.

(** ** Vocabulary of the statements *)

(** [m] copies of the events [blk] of one attempt, with [gap] between
    consecutive copies and nothing after the last. *)
Fixpoint spaced (blk : list event) (gap : event) (m : nat) : list event :=
  match m with
  | O => []
  | S m' =>
      match m' with
      | O => blk
      | S _ => blk ++ gap :: spaced blk gap m'
      end
  end.

Definition is_sleep (e : event) : bool :=
  match e with
  | EvSleep _ => true
  | _ => false
  end.

Definition is_connect (e : event) : bool :=
  match e with
  | EvConnect _ _ _ _ _ => true
  | _ => false
  end.

Definition is_socket (e : event) : bool :=
  match e with
  | EvSocket _ _ _ => true
  | _ => false
  end.

(** How many events of [l] satisfy [p]. *)
Definition count (p : event -> bool) (l : list event) : nat :=
  List.length (filter p l).

(** The events of a session attempt whose [connect] raises. *)
Definition failed_connect_events (rel : release) (self : SSHExecutor)
    : list event :=
  EvConnect (current_ip self) (current_port self) (username self)
    (password self) (timeout self)
  :: (if closes_unconnected_client rel then [EvClose] else []).

(** The events of a session attempt that connects and runs [cmd]. *)
Definition session_events (self : SSHExecutor) (cmd : string) : list event :=
  [EvConnect (current_ip self) (current_port self) (username self)
     (password self) (timeout self);
   EvExec cmd;
   EvClose].

(** [connect] as the attempt made at clock [now] sees it. *)
Definition connect_at (net : network) (self : SSHExecutor) (now : nat)
    : connect_outcome :=
  ssh_connect net now (current_ip self) (current_port self) (username self)
    (password self) (timeout self).

(** The session attempt that starts at clock [now] and transmits [cmd]:
    whether its [try] body ends in a caught exception (raised by
    [connect], or by the execution once connected), the clock after it,
    and its events. *)
Definition attempt_raises (net : network) (self : SSHExecutor)
    (cmd : string) (now : nat) : bool :=
  match connect_at net self now with
  | ConnOk =>
      match ssh_exec net (S now) cmd with
      | ExecRaised => true
      | ExecDone _ _ _ => false
      end
  | ConnAuthError | ConnError => true
  end.

Definition attempt_end (net : network) (self : SSHExecutor) (now : nat)
    : nat :=
  match connect_at net self now with
  | ConnOk => S (S now)
  | ConnAuthError | ConnError => S now
  end.

Definition attempt_events (rel : release) (net : network)
    (self : SSHExecutor) (cmd : string) (now : nat) : list event :=
  match connect_at net self now with
  | ConnOk => session_events self cmd
  | ConnAuthError | ConnError => failed_connect_events rel self
  end.

(** Each of [m] attempts made one after the other from clock [now] ends
    in a caught exception. *)
Fixpoint all_attempts_raise (net : network) (self : SSHExecutor)
    (cmd : string) (now : nat) (m : nat) : bool :=
  match m with
  | O => true
  | S m' =>
      attempt_raises net self cmd now
      && all_attempts_raise net self cmd (attempt_end net self now) m'
  end.

(** The events of [m] such attempts with a sleep of 5 seconds between
    consecutive attempts and nothing after the last. *)
Fixpoint attempts_log (rel : release) (net : network) (self : SSHExecutor)
    (cmd : string) (now : nat) (m : nat) : list event :=
  match m with
  | O => []
  | S m' =>
      attempt_events rel net self cmd now ++
      match m' with
      | O => []
      | S _ =>
          EvSleep 5 ::
          attempts_log rel net self cmd (attempt_end net self now) m'
      end
  end.

(** Whether the last event of [l] is a sleep. *)
Definition ends_with_sleep (l : list event) : bool :=
  match rev l with
  | e :: _ => is_sleep e
  | [] => false
  end.

(** Every command transmitted in [l] is [cmd]. *)
Definition transmits_only (cmd : string) (l : list event) : Prop :=
  forall c, In (EvExec c) l -> c = cmd.

(** Every session of [l] is opened to [ip] and [port]. *)
Definition connects_only (ip : option string) (port : string)
    (l : list event) : Prop :=
  forall ip' port' user secret tmo,
    In (EvConnect ip' port' user secret tmo) l -> ip' = ip /\ port' = port.

(** Every reachability probe of [l] goes to one of [targets]. *)
Definition probes_within (targets : list (option string * string))
    (l : list event) : Prop :=
  forall ip port tmo,
    In (EvSocket ip port tmo) l -> In (Some ip, port) targets.

(** The events a reachability probe of [ip] and [port] is made of. *)
Definition probe_event (ip port : string) (e : event) : Prop :=
  (exists tmo, e = EvSocket ip port tmo) \/ e = EvSleep 5.

(** The events a command execution of [self] that transmits [cmd] is made
    of. *)
Definition session_event (self : SSHExecutor) (cmd : string) (e : event)
    : Prop :=
  e = EvConnect (current_ip self) (current_port self) (username self)
        (password self) (timeout self)
  \/ e = EvExec cmd \/ e = EvClose \/ e = EvSleep 5.

(** Every event a computation adds to the log satisfies [P]. *)
Definition adds {A : Type} (P : event -> Prop) (m : M A) : Prop :=
  forall w, exists new : list event,
    log (snd (m w)) = (log w ++ new)%list /\ Forall P new.

(** ** Vocabulary and samples of the temperature statements *)

Module Samples.

Import Text Num V13.

(** Tiers A and B run without an exception and yield no reading. *)
Definition tiers_a_b_silent (self : SSHExecutor) (remote : remote_host)
    : bool :=
  match pick_iface self remote with
  | Some iface =>
      (if Py.truthy iface then
         match safe_read remote (ProbeThermalState iface) with
         | Some proc_out =>
             match tier_a proc_out with
             | None => true
             | Some _ => false
             end
         | None => false
         end
       else true)
      && match safe_read remote ProbeWfbCli with
         | Some out =>
             match tier_b out with
             | Some None => true
             | _ => false
             end
         | None => false
         end
  | None => false
  end.

(** A companion whose interface is [wlan0] and whose driver prints
    [thermal] as thermal state; nothing else prints anything. *)
Definition remote_thermal (thermal : string) : remote_host :=
  fun p =>
    match p with
    | ProbeWfbNics => Some "wlan0"
    | ProbeThermalState _ => Some thermal
    | _ => Some ""
    end.

(** A companion on which only the sysfs sensor file can be read. *)
Definition remote_sysfs (raw : string) : remote_host :=
  fun p =>
    match p with
    | ProbeSysfsHwmon => Some raw
    | _ => Some ""
    end.

(** The statement that tier A returns the greatest plausible parsed
    value itself. *)
Definition returns_unrounded_maximum : Prop :=
  forall (self : SSHExecutor) (remote : remote_host)
         (iface proc_out : string),
    pick_iface self remote = Some iface ->
    Py.truthy iface = true ->
    safe_read remote (ProbeThermalState iface) = Some proc_out ->
    (exists t, In t (thermal_temps proc_out)) ->
    exists m v : Q,
      In m (thermal_temps proc_out) /\
      (forall t, In t (thermal_temps proc_out) -> (t <= m)%Q) /\
      get_wifi_module_temperature self (Some remote) = Some v /\
      (v == m)%Q.

(** The statement that a raw sysfs value of 9999 is rejected. *)
Definition rejects_9999 : Prop :=
  forall (self : SSHExecutor) (remote : remote_host),
    tiers_a_b_silent self remote = true ->
    safe_read remote ProbeSysfsHwmon = Some "9999" ->
    get_wifi_module_temperature self (Some remote) = None.


(** Every connection is accepted and every command prints [text] and
    exits with status 0. *)
Definition net_prints (text : string) : network :=
  {| tcp_connect := fun _ _ _ _ => true;
     ssh_connect := fun _ _ _ _ _ _ => ConnOk;
     ssh_exec := fun _ _ => ExecDone 0 text "" |}.




End Samples.


(** ** Relay commands *)

Module Relay.

(** The relay attributes of the executor object. *)
Record endpoint : Type := mkEndpoint {
  relay_ip : option string;
  relay_ssh_port : string;
  relay_username : string;
  relay_password : string
}.

(** [ssh.connect(self.relay_ip, int(self.relay_ssh_port),
    self.relay_username, self.relay_password, timeout=self.timeout)] *)
Definition connect_ (net : network) (self : SSHExecutor) (relay : endpoint)
    : M connect_outcome :=
  now <- tick ;;
  emit (EvConnect (relay_ip relay) (relay_ssh_port relay)
          (relay_username relay) (relay_password relay) (timeout self)) ;;;
  ret (ssh_connect net now (relay_ip relay) (relay_ssh_port relay)
         (relay_username relay) (relay_password relay) (timeout self)).

(** One iteration's [try] statement of [execute_relay_command]; the
    client is created before the [try] and always closed. *)
Definition execute_relay_command_try (net : network) (self : SSHExecutor)
    (relay : endpoint) (command : string) : M (option bool) :=
  c <- connect_ net self relay ;;
  match c with
  | ConnOk =>
      r <- (if Py.startswith "sudo " command then
              exec_command net
                ("echo " ++ relay_password relay ++ " | sudo -S "
                 ++ Py.slice_from 5 command)
            else exec_command net command) ;;
      emit EvClose ;;;
      match r with
      | ExecDone exit_status _ _ =>
          if exit_status =? 0 then ret (Some true) else ret (Some false)
      | ExecRaised => ret None
      end
  | ConnAuthError | ConnError =>
      emit EvClose ;;; ret None
  end.

Fixpoint execute_relay_command_loop (net : network) (self : SSHExecutor)
    (relay : endpoint) (command : string) (max_attempts : Z)
    (todo : nat) (attempt : Z) : M bool :=
  match todo with
  | O => ret false
  | S todo' =>
      r <- execute_relay_command_try net self relay command ;;
      match r with
      | Some b => ret b
      | None =>
          (if attempt <? max_attempts - 1 then sleep 5 else ret tt) ;;;
          execute_relay_command_loop net self relay command max_attempts
            todo' (attempt + 1)
      end
  end.

Definition execute_relay_command (net : network) (self : SSHExecutor)
    (relay : endpoint) (command : string) (max_attempts_arg : option Z)
    : M bool :=
  if negb (Py.truthy_opt (relay_ip relay))
     || negb (Py.truthy (relay_password relay))
  then ret false
  else
    let max_attempts := Py.or_default max_attempts_arg (max_attempts self) in
    execute_relay_command_loop net self relay command max_attempts
      (Z.to_nat max_attempts) 0.

Definition tunnel_restart_command : string :=
  "sudo systemctl restart ssh-tunnel-to-companion.service".

Definition restart_relay_ssh_tunnel (net : network) (self : SSHExecutor)
    (relay : endpoint) : M bool :=
  execute_relay_command net self relay tunnel_restart_command None.

(** The executor whose companion target and credentials are those of the
    relay; the policy is the executor's own. *)
Definition as_companion (self : SSHExecutor) (relay : endpoint)
    : SSHExecutor :=
  {| primary_ip := primary_ip self;
     primary_port := primary_port self;
     username := relay_username relay;
     password := relay_password relay;
     current_ip := relay_ip relay;
     current_port := relay_ssh_port relay;
     secondary_ip := secondary_ip self;
     secondary_port := secondary_port self;
     timeout := timeout self;
     max_attempts := max_attempts self;
     wifi_iface := wifi_iface self;
     wifi_offset := wifi_offset self;
     wifi_scale := wifi_scale self |}.

(** A relay station next to [drone]. *)
Definition station : endpoint :=
  {| relay_ip := Some "10.5.6.100";
     relay_ssh_port := "22";
     relay_username := "vind-admin";
     relay_password := "relay_secret" |}.

End Relay.

(** ** Utilities of the executor *)

(** [sync_date_time]; [platform] is [sys.platform] and [stamp] the text
    of [datetime.now().strftime("%Y-%m-%d %H:%M:%S")]. *)
Definition sync_command (stamp : string) : string :=
  "sudo date -s " ++ V11.dq ++ stamp ++ V11.dq.

Definition sync_date_time (rel : release) (net : network)
    (self : SSHExecutor) (platform stamp : string) : M bool :=
  if Py.startswith "win" platform then ret false
  else execute_command rel net self (sync_command stamp) None.

Module Transfer.

(** What [transfer_file] does to the outside world, in order: the events
    of the session and those of its file-transfer channel. *)
Inductive step : Type :=
| Session (e : event)
| SftpOpen                               (* ssh.open_sftp() *)
| SftpGet (remote_path local_path : string)   (* sftp.get(...) *)
| SftpClose.                             (* sftp.close() *)

(** The file-transfer channel as [transfer_file] sees it: whether
    [open_sftp], [get] and [close] return (an exception otherwise). *)
Record channel : Type := mkChannel {
  sftp_open : bool;
  sftp_get : string -> string -> bool;
  sftp_close : bool
}.

(** [transfer_file]: the pair returned and the steps made, for a call
    that starts at clock [now].  Nothing is retried: the policy
    [max_attempts] is not read. *)
Definition transfer_file (net : network) (sftp : channel)
    (self : SSHExecutor) (remote_path local_path : string) (now : nat)
    : (bool * option string) * list step :=
  if unconfigured self then ((false, None), [])
  else
    let connect :=
      Session (EvConnect (current_ip self) (current_port self)
                 (username self) (password self) (timeout self)) in
    match connect_at net self now with
    | ConnOk =>
        if sftp_open sftp then
          if sftp_get sftp remote_path local_path then
            if sftp_close sftp then
              ((true, Some local_path),
               [connect; SftpOpen; SftpGet remote_path local_path;
                SftpClose; Session EvClose])
            else
              ((false, None),
               [connect; SftpOpen; SftpGet remote_path local_path;
                SftpClose; Session EvClose])
          else
            ((false, None),
             [connect; SftpOpen; SftpGet remote_path local_path;
              Session EvClose])
        else ((false, None), [connect; SftpOpen; Session EvClose])
    | ConnAuthError | ConnError =>
        ((false, None), [connect; Session EvClose])
    end.

Definition is_session_connect (s : step) : bool :=
  match s with
  | Session e => is_connect e
  | _ => false
  end.

End Transfer.

(** ** More vocabulary of the retry loop *)

(** The clock after [m] attempts made one after the other from [now]. *)
Fixpoint attempts_end (net : network) (self : SSHExecutor) (now : nat)
    (m : nat) : nat :=
  match m with
  | O => now
  | S m' => attempts_end net self (attempt_end net self now) m'
  end.

(** The events of [m] attempts from clock [now], each followed by a sleep
    of 5 seconds. *)
Fixpoint retried_log (rel : release) (net : network) (self : SSHExecutor)
    (cmd : string) (now : nat) (m : nat) : list event :=
  match m with
  | O => []
  | S m' =>
      attempt_events rel net self cmd now ++
      EvSleep 5 ::
      retried_log rel net self cmd (attempt_end net self now) m'
  end.


(** The fields of a captured result. *)
Definition capture_ok (res : capture) : bool := fst (fst (fst res)).

Definition capture_status (res : capture) : Z := snd res.

(** The first connection is refused, every later one is accepted and
    every command exits with status 0. *)
Definition net_recovers : network :=
  {| tcp_connect := fun _ _ _ _ => true;
     ssh_connect := fun now _ _ _ _ _ =>
       match now with
       | O => ConnError
       | S _ => ConnOk
       end;
     ssh_exec := fun _ _ => ExecDone 0 "" "" |}.

Definition is_close (e : event) : bool :=
  match e with
  | EvClose => true
  | _ => false
  end.

Definition is_exec (e : event) : bool :=
  match e with
  | EvExec _ => true
  | _ => false
  end.

(** The clients a call created and closed: the events [new] it added
    have as many closes as connection attempts when the release closes
    a client that failed to connect, and as many closes as sessions on
    which a command was sent otherwise. *)
Definition clients_closed (rel : release) (new : list event) : Prop :=
  count is_close new
  = (if closes_unconnected_client rel then count is_connect new
     else count is_exec new)
  /\ (count is_exec new <= count is_connect new)%nat.

(** Where a call stands with the client of the running attempt: none
    yet or closed, created and not yet connected, or in a session. *)
Inductive client : Type := NoClient | Attempted | InSession.

(** The discipline of the clients over the events of a call.  A client
    is created at each connection attempt and none is open before.  A
    client that connected sends its command and is closed next.  One
    whose connect raised is closed next when the release closes such
    clients, and is left as it is otherwise: the call then goes on with
    a pause or the next attempt, or ends. *)
Fixpoint clients_paired (rel : release) (st : client) (l : list event)
    : bool :=
  match l with
  | [] =>
      match st with
      | NoClient => true
      | Attempted => negb (closes_unconnected_client rel)
      | InSession => false
      end
  | e :: rest =>
      match st, e with
      | NoClient, EvConnect _ _ _ _ _ => clients_paired rel Attempted rest
      | NoClient, EvSleep _ => clients_paired rel NoClient rest
      | Attempted, EvExec _ => clients_paired rel InSession rest
      | Attempted, EvClose =>
          closes_unconnected_client rel && clients_paired rel NoClient rest
      | Attempted, EvSleep _ =>
          negb (closes_unconnected_client rel)
          && clients_paired rel NoClient rest
      | Attempted, EvConnect _ _ _ _ _ =>
          negb (closes_unconnected_client rel)
          && clients_paired rel Attempted rest
      | InSession, EvClose => clients_paired rel NoClient rest
      | _, _ => false
      end
  end.

(** ** Configuration file *)

Module Config.

(** The values [json.load] builds: [None], [bool], [int], [float],
    [str], [list] and [dict] (an insertion-ordered list of members with
    distinct keys). *)
#[local] Unset Elimination Schemes.

Inductive json : Type :=
| JNull
| JBool (b : bool)
| JInt (n : Z)
| JFloat (q : Q)
| JStr (s : string)
| JArr (items : list json)
| JObj (members : list (string * json)).

#[local] Set Elimination Schemes.

Definition dict : Type := list (string * json).

(** [k in d] *)
Definition dict_contains (k : string) (d : dict) : bool :=
  existsb (fun kv => String.eqb (fst kv) k) d.

(** [d.get(k)] *)
Fixpoint dict_get (k : string) (d : dict) : option json :=
  match d with
  | [] => None
  | (k', v) :: rest => if String.eqb k' k then Some v else dict_get k rest
  end.

(** [d[k] = v]: the value is replaced where the key stands, a new key is
    added at the end. *)
Fixpoint dict_set (k : string) (v : json) (d : dict) : dict :=
  match d with
  | [] => [(k, v)]
  | (k', v') :: rest =>
      if String.eqb k' k then (k', v) :: rest
      else (k', v') :: dict_set k v rest
  end.

(** [p in s] on two strings. *)
Fixpoint is_substring (p s : string) : bool :=
  Py.startswith p s
  || match s with
     | EmptyString => false
     | String _ s' => is_substring p s'
     end.

(** [k == item] for a string [k]. *)
Definition equals_str (k : string) (item : json) : bool :=
  match item with
  | JStr s => String.eqb s k
  | _ => false
  end.

(** [k in config]: key membership on a dict, element membership on a
    list, substring test on a string, [TypeError] ([None]) otherwise. *)
Definition py_contains (config : json) (k : string) : option bool :=
  match config with
  | JObj d => Some (dict_contains k d)
  | JArr items => Some (existsb (equals_str k) items)
  | JStr s => Some (is_substring k s)
  | JNull | JBool _ | JInt _ | JFloat _ => None
  end.

(** [config[k] = v]: [TypeError] ([None]) unless [config] is a dict (a
    list takes integer indices only, a string takes no assignment). *)
Definition py_setitem (config : json) (k : string) (v : json)
    : option json :=
  match config with
  | JObj d => Some (JObj (dict_set k v d))
  | _ => None
  end.

(** [config.setdefault(k, v)]: [AttributeError] ([None]) unless [config]
    is a dict. *)
Definition py_setdefault (config : json) (k : string) (v : json)
    : option json :=
  match config with
  | JObj d => Some (JObj (if dict_contains k d then d else dict_set k v d))
  | _ => None
  end.

(** [_default_config()] of v1.3, the dict literal of v1.1. *)
Definition default_config : dict :=
  [("primary_ip", JStr "10.5.6.100");
   ("primary_port", JStr "2222");
   ("secondary_ip", JNull);
   ("secondary_port", JStr "22");
   ("username", JStr "roz");
   ("relay_ip", JStr "10.5.6.100");
   ("relay_ssh_port", JStr "22");
   ("relay_username", JStr "vind-admin");
   ("wifi_iface", JStr "wlx782288d993c0");
   ("wifi_temp", JObj [("offset", JInt 32); ("scale", JFloat 2.5)]);
   ("connection_check_enabled", JBool true);
   ("connection_check_interval", JInt 30000)].

(** What [load_config] finds on disk:
    - the configuration directory is missing and cannot be created;
    - the file is missing;
    - opening or reading the file raises (an [OSError], a
      [UnicodeDecodeError]);
    - the text is not JSON ([json.JSONDecodeError]);
    - the text is the JSON value [j]. *)
Inductive config_file : Type :=
| DirectoryUncreatable
| Missing
| Unreadable
| Malformed
| Holds (j : json).

Inductive outcome : Type :=
| Raises
| Returns (config : json).

(** [save_config]: [json.dump] of the configuration; reading the text
    back gives the same value. *)
Definition save_config (config : json) : config_file := Holds config.

End Config.

Module ConfigV13.
Import Config.

(** [for k, v in cfg_default.items(): if k not in config: config[k] = v];
    [None] when an exception is raised. *)
Fixpoint ensure_defaults (defaults : dict) (config : json) : option json :=
  match defaults with
  | [] => Some config
  | (k, v) :: rest =>
      match py_contains config k with
      | None => None
      | Some true => ensure_defaults rest config
      | Some false =>
          match py_setitem config k v with
          | None => None
          | Some config' => ensure_defaults rest config'
          end
      end
  end.

Definition load_config (file : config_file) : outcome :=
  match file with
  | DirectoryUncreatable => Raises
  | Missing => Returns (JObj default_config)
  | Unreadable => Returns (JObj default_config)     (* except Exception *)
  | Malformed => Returns (JObj default_config)      (* JSONDecodeError *)
  | Holds j =>
      match ensure_defaults default_config j with
      | Some config => Returns config
      | None => Returns (JObj default_config)       (* except Exception *)
      end
  end.

End ConfigV13.

Module ConfigV11.
Import Config.

Notation "x <-! m ;; k" :=
  (match m with
   | Some x => k
   | None => None
   end)
  (at level 61, m at next level, right associativity).

(** The chain of [config.setdefault(...)] calls; [None] when one of them
    raises. *)
Definition ensure_defaults (config : json) : option json :=
  c <-! py_setdefault config "primary_ip" (JStr "10.5.6.100") ;;
  c <-! py_setdefault c "primary_port" (JStr "2222") ;;
  c <-! py_setdefault c "secondary_ip" JNull ;;
  c <-! py_setdefault c "secondary_port" (JStr "22") ;;
  c <-! py_setdefault c "username" (JStr "roz") ;;
  c <-! py_setdefault c "relay_ip" (JStr "10.5.6.100") ;;
  c <-! py_setdefault c "relay_ssh_port" (JStr "22") ;;
  c <-! py_setdefault c "relay_username" (JStr "vind-admin") ;;
  c <-! py_setdefault c "wifi_iface" (JStr "wlx782288d993c0") ;;
  c <-! py_setdefault c "wifi_temp"
          (JObj [("offset", JInt 32); ("scale", JFloat 2.5)]) ;;
  c <-! py_setdefault c "connection_check_enabled" (JBool true) ;;
  c <-! py_setdefault c "connection_check_interval" (JInt 30000) ;;
  Some c.

Definition load_config (file : config_file) : outcome :=
  match file with
  | DirectoryUncreatable => Raises
  | Missing => Returns (JObj default_config)
  | Unreadable => Raises                 (* only JSONDecodeError is caught *)
  | Malformed => Returns (JObj default_config)
  | Holds j =>
      match ensure_defaults j with
      | Some config => Returns config
      | None => Raises                   (* AttributeError, not caught *)
      end
  end.

End ConfigV11.

(** Vocabulary of the configuration statements. *)

(** The members of [defaults] whose key [d] lacks. *)
Definition missing_defaults (defaults d : Config.dict) : Config.dict :=
  filter (fun kv => negb (Config.dict_contains (fst kv) d)) defaults.

(** Every key of the default configuration is found in [config] by the
    test [k in config]. *)
Definition has_all_defaults (config : Config.json) : Prop :=
  forall k, In k (map fst Config.default_config) ->
            Config.py_contains config k = Some true.

Definition is_dict (config : Config.json) : bool :=
  match config with
  | Config.JObj _ => true
  | _ => false
  end.


(** ** Vocabulary of the readings *)

(** A reading as the pipelines hand it out: within the plausible range
    and the float of a whole number of tenths. *)
Definition is_reading (t : Q) : Prop :=
  (-40 <= t)%Q /\ (t <= 130)%Q /\
  exists z : Z, -400 <= z <= 1300 /\ t = Num.to_float (z # 10).

(** A float is the float of some number. *)
Definition is_float (v : Q) : Prop := exists x : Q, v = Num.to_float x.

(** The whole numbers of tenths of the plausible range. *)
Definition tenths : list Z :=
  map (fun k => Z.of_nat k - 400) (seq 0 1701).

(** The same fraction, numerator and denominator. *)
Definition same_float (a b : Q) : bool :=
  (Qnum a =? Qnum b) && (Qden a =? Qden b)%positive.

(** The float of [z] tenths is plausible and formatting it with one
    decimal gives it back. *)
Definition tenth_is_fixed (z : Z) : bool :=
  let t := Num.to_float (z # 10) in
  Num.plausible t && same_float (Num.round_1f t) t.

(** The first element of [l] on which [f] yields a value. *)
Fixpoint first_some {A B : Type} (f : A -> option B) (l : list A)
    : option B :=
  match l with
  | [] => None
  | x :: rest =>
      match f x with
      | Some y => Some y
      | None => first_some f rest
      end
  end.

(** ** The application window (main.py of v1.3)

    The part of [DroneControlApp] that drives the executor: the fields
    the connection methods read and write, and the two labels they set.
    Message boxes are not part of the model; the temperature worker,
    which runs on a thread of its own, is represented by its busy flag
    only. *)

Module App.

Import Text.

Record state : Type := mkApp {
  ssh_executor : SSHExecutor;
  ssh_config : Config.dict;              (* ssh_executor.ssh_config *)
  relay : Relay.endpoint;
  is_rebooting_or_shutting_down : bool;
  connection_check_enabled : bool;
  connection_check_interval : Z;
  time_synced : bool;
  wifi_temp_busy : bool;
  top_status_label : string;
  companion_version_label : string
}.

Definition set_executor (app : state) (e : SSHExecutor) : state :=
  {| ssh_executor := e;
     ssh_config := ssh_config app;
     relay := relay app;
     is_rebooting_or_shutting_down := is_rebooting_or_shutting_down app;
     connection_check_enabled := connection_check_enabled app;
     connection_check_interval := connection_check_interval app;
     time_synced := time_synced app;
     wifi_temp_busy := wifi_temp_busy app;
     top_status_label := top_status_label app;
     companion_version_label := companion_version_label app |}.

Definition set_rebooting (app : state) (b : bool) : state :=
  {| ssh_executor := ssh_executor app;
     ssh_config := ssh_config app;
     relay := relay app;
     is_rebooting_or_shutting_down := b;
     connection_check_enabled := connection_check_enabled app;
     connection_check_interval := connection_check_interval app;
     time_synced := time_synced app;
     wifi_temp_busy := wifi_temp_busy app;
     top_status_label := top_status_label app;
     companion_version_label := companion_version_label app |}.

Definition set_time_synced (app : state) (b : bool) : state :=
  {| ssh_executor := ssh_executor app;
     ssh_config := ssh_config app;
     relay := relay app;
     is_rebooting_or_shutting_down := is_rebooting_or_shutting_down app;
     connection_check_enabled := connection_check_enabled app;
     connection_check_interval := connection_check_interval app;
     time_synced := b;
     wifi_temp_busy := wifi_temp_busy app;
     top_status_label := top_status_label app;
     companion_version_label := companion_version_label app |}.

Definition set_wifi_temp_busy (app : state) (b : bool) : state :=
  {| ssh_executor := ssh_executor app;
     ssh_config := ssh_config app;
     relay := relay app;
     is_rebooting_or_shutting_down := is_rebooting_or_shutting_down app;
     connection_check_enabled := connection_check_enabled app;
     connection_check_interval := connection_check_interval app;
     time_synced := time_synced app;
     wifi_temp_busy := b;
     top_status_label := top_status_label app;
     companion_version_label := companion_version_label app |}.

Definition set_top_status (app : state) (text : string) : state :=
  {| ssh_executor := ssh_executor app;
     ssh_config := ssh_config app;
     relay := relay app;
     is_rebooting_or_shutting_down := is_rebooting_or_shutting_down app;
     connection_check_enabled := connection_check_enabled app;
     connection_check_interval := connection_check_interval app;
     time_synced := time_synced app;
     wifi_temp_busy := wifi_temp_busy app;
     top_status_label := text;
     companion_version_label := companion_version_label app |}.

Definition set_companion_version (app : state) (text : string) : state :=
  {| ssh_executor := ssh_executor app;
     ssh_config := ssh_config app;
     relay := relay app;
     is_rebooting_or_shutting_down := is_rebooting_or_shutting_down app;
     connection_check_enabled := connection_check_enabled app;
     connection_check_interval := connection_check_interval app;
     time_synced := time_synced app;
     wifi_temp_busy := wifi_temp_busy app;
     top_status_label := top_status_label app;
     companion_version_label := text |}.

Definition set_ssh_config (app : state) (config : Config.dict) : state :=
  {| ssh_executor := ssh_executor app;
     ssh_config := config;
     relay := relay app;
     is_rebooting_or_shutting_down := is_rebooting_or_shutting_down app;
     connection_check_enabled := connection_check_enabled app;
     connection_check_interval := connection_check_interval app;
     time_synced := time_synced app;
     wifi_temp_busy := wifi_temp_busy app;
     top_status_label := top_status_label app;
     companion_version_label := companion_version_label app |}.

Definition set_relay (app : state) (station : Relay.endpoint) : state :=
  {| ssh_executor := ssh_executor app;
     ssh_config := ssh_config app;
     relay := station;
     is_rebooting_or_shutting_down := is_rebooting_or_shutting_down app;
     connection_check_enabled := connection_check_enabled app;
     connection_check_interval := connection_check_interval app;
     time_synced := time_synced app;
     wifi_temp_busy := wifi_temp_busy app;
     top_status_label := top_status_label app;
     companion_version_label := companion_version_label app |}.

Definition set_check_enabled (app : state) (b : bool) : state :=
  {| ssh_executor := ssh_executor app;
     ssh_config := ssh_config app;
     relay := relay app;
     is_rebooting_or_shutting_down := is_rebooting_or_shutting_down app;
     connection_check_enabled := b;
     connection_check_interval := connection_check_interval app;
     time_synced := time_synced app;
     wifi_temp_busy := wifi_temp_busy app;
     top_status_label := top_status_label app;
     companion_version_label := companion_version_label app |}.

Definition set_check_interval (app : state) (ms : Z) : state :=
  {| ssh_executor := ssh_executor app;
     ssh_config := ssh_config app;
     relay := relay app;
     is_rebooting_or_shutting_down := is_rebooting_or_shutting_down app;
     connection_check_enabled := connection_check_enabled app;
     connection_check_interval := ms;
     time_synced := time_synced app;
     wifi_temp_busy := wifi_temp_busy app;
     top_status_label := top_status_label app;
     companion_version_label := companion_version_label app |}.

(** The two assignments [ssh_executor.timeout = t] and
    [ssh_executor.max_attempts = n]. *)
Definition set_policy (self : SSHExecutor) (t n : Z) : SSHExecutor :=
  {| primary_ip := primary_ip self;
     primary_port := primary_port self;
     username := username self;
     password := password self;
     current_ip := current_ip self;
     current_port := current_port self;
     secondary_ip := secondary_ip self;
     secondary_port := secondary_port self;
     timeout := t;
     max_attempts := n;
     wifi_iface := wifi_iface self;
     wifi_offset := wifi_offset self;
     wifi_scale := wifi_scale self |}.

(** [s.lower()] on ASCII text. *)
Definition lower_char (c : ascii) : ascii :=
  if (65 <=? code c)%nat && (code c <=? 90)%nat
  then ascii_of_nat (code c + 32)
  else c.

Fixpoint lower (s : string) : string :=
  match s with
  | EmptyString => EmptyString
  | String c s' => String (lower_char c) (lower s')
  end.

(** [update_connection_status]: the text of the top label. *)
Definition update_connection_status (app : state)
    (status_text status_color ip_text ip_color : string) : state :=
  if String.eqb (lower status_color) "green" then
    set_top_status app ("Connected and Ready | " ++ ip_text)
  else if String.eqb (lower status_color) "red" then
    set_top_status app ("Not Ready | " ++ ip_text)
  else set_top_status app (status_text ++ " | " ++ ip_text).

(** [[\s:](\d+\.\d+)] anchored at the start of [s]: group 1. *)
Definition match_version (s : string) : option string :=
  match s with
  | String c s1 =>
      if is_space c || is_char 58 c then
        match span_digits s1 with
        | (EmptyString, _) => None
        | (ds, String d s2) =>
            if is_char 46 d then
              match span_digits s2 with
              | (EmptyString, _) => None
              | (fs, _) => Some (ds ++ "." ++ fs)
              end
            else None
        | (_, EmptyString) => None
        end
      else None
  | EmptyString => None
  end.

(** Group 1 of [re.search] for the pattern above. *)
Fixpoint search_version (s : string) : option string :=
  match s with
  | EmptyString => None
  | String _ s' =>
      match match_version s with
      | Some g => Some g
      | None => search_version s'
      end
  end.

(** The version shown for the text read from [/etc/sid.conf]. *)
Definition version_of (out : string) : string :=
  let content := strip out in
  if Py.truthy content then
    match search_version content with
    | Some g => g
    | None => "N/A"
    end
  else "N/A".

Section Methods.

Variable net : network.

(** [update_companion_version]: a session of its own to the current
    target, closed in every case. *)
Definition update_companion_version (app : state) : M state :=
  c <- connect_ net (ssh_executor app) ;;
  match c with
  | ConnOk =>
      r <- exec_command net "cat /etc/sid.conf" ;;
      emit EvClose ;;;
      match r with
      | ExecDone _ out _ =>
          ret (set_companion_version app
                 ("Companion Version: " ++ version_of out))
      | ExecRaised =>
          ret (set_companion_version app "Companion Version: N/A")
      end
  | ConnAuthError | ConnError =>
      emit EvClose ;;;
      ret (set_companion_version app "Companion Version: N/A")
  end.

(** [update_wifi_temp]: starts the worker unless one is running. *)
Definition update_wifi_temp (app : state) : state :=
  if wifi_temp_busy app then app else set_wifi_temp_busy app true.

(** [sync_time_with_popup]; [platform] is [sys.platform] and [stamp] the
    text of [datetime.now()] as [sync_date_time] formats it. *)
Definition sync_time_with_popup (platform stamp : string) (app : state)
    : M bool :=
  sync_date_time V1_3 net (ssh_executor app) platform stamp.

(** The body shared by [refresh_connection_status] and
    [periodic_connection_check] once their guard has passed:
    [timeout] and [max_attempts] are saved, converted with [int] (the
    identity on the integers they hold) and restored at the end;
    [on_connect] is what the caller does between the update of the
    status and the retrieval of the version. *)
Definition check_connection (on_connect : state -> M state) (app : state)
    : M state :=
  let original_timeout := timeout (ssh_executor app) in
  let original_max_attempts := max_attempts (ssh_executor app) in
  r <- test_connection net (ssh_executor app) ;;
  let (reachable_ip, e1) := r in
  let app1 := set_executor app e1 in
  app2 <-
    (if Py.truthy_opt reachable_ip then
       let app2 :=
         update_connection_status app1 "Connected and Ready" "green"
           ("Drone IP: " ++ Py.or_default reachable_ip "" ++ ":"
            ++ current_port e1) "green" in
       app3 <- on_connect app2 ;;
       app4 <- update_companion_version app3 ;;
       ret (update_wifi_temp app4)
     else
       let app2 :=
         update_connection_status app1 "Not Ready" "red"
           "Drone IP: Not Connected" "red" in
       Relay.restart_relay_ssh_tunnel net (ssh_executor app2) (relay app2) ;;;
       ret app2) ;;
  ret (set_executor app2
         (set_policy (ssh_executor app2) original_timeout
            original_max_attempts)).

Definition refresh_connection_status (app : state) : M state :=
  if is_rebooting_or_shutting_down app then
    ret (update_connection_status app "System Rebooting/Shutting Down" "gray"
           "Drone IP: Temporarily Unavailable" "gray")
  else check_connection (fun app' => ret app') app.

(** [periodic_connection_check]: one round; the flag returned is
    whether the round scheduled the next one. *)
Definition periodic_connection_check (platform stamp : string)
    (app : state) : M (state * bool) :=
  if negb (connection_check_enabled app)
     || is_rebooting_or_shutting_down app then
    ret (update_connection_status app "Connection Check Disabled" "gray"
           "Drone IP: N/A" "gray", false)
  else
    app' <-
      check_connection
        (fun app2 =>
           if negb (time_synced app2) then
             sync_time_with_popup platform stamp app2 ;;;
             ret (set_time_synced app2 true)
           else ret app2)
        app ;;
    ret (app', true).

(** The four reboot and shutdown helpers share one body: the flag is
    raised, the budget is set to one attempt, [run] sends the command,
    and the policy is restored at the end. *)
Definition power_action (status_text : string)
    (run : state -> M (bool * SSHExecutor)) (wait : Z) (app : state)
    : M state :=
  let app1 :=
    update_connection_status (set_rebooting app true) status_text "gray"
      "Drone IP: Temporarily Unavailable" "gray" in
  let original_max_attempts := max_attempts (ssh_executor app1) in
  let original_timeout := timeout (ssh_executor app1) in
  let app2 :=
    set_executor app1
      (set_policy (ssh_executor app1) (timeout (ssh_executor app1)) 1) in
  r <- run app2 ;;
  let (ok, e) := r in
  let app3 := set_executor app2 e in
  app4 <-
    (if ok then
       sleep wait ;;; refresh_connection_status app3
     else
       Relay.restart_relay_ssh_tunnel net (ssh_executor app3) (relay app3) ;;;
       ret app3) ;;
  ret (set_executor app4
         (set_policy (ssh_executor app4) original_timeout
            original_max_attempts)).

Definition on_companions (command : string) (app : state)
    : M (bool * SSHExecutor) :=
  execute_command_all V1_3 net (ssh_executor app) command.

Definition on_relay (command : string) (app : state)
    : M (bool * SSHExecutor) :=
  ok <- Relay.execute_relay_command net (ssh_executor app) (relay app)
          command None ;;
  ret (ok, ssh_executor app).

Definition reboot_companion_and_restart_tunnel : state -> M state :=
  power_action "System Rebooting" (on_companions "sudo reboot") 90.

Definition shutdown_companion_and_restart_tunnel : state -> M state :=
  power_action "System Shutting Down" (on_companions "sudo shutdown now") 120.

Definition reboot_relay : state -> M state :=
  power_action "System Rebooting" (on_relay "sudo reboot") 90.

Definition shutdown_relay : state -> M state :=
  power_action "System Shutting Down" (on_relay "sudo shutdown now") 120.




(** The relay page of the settings. *)
Record relay_form : Type := mkRelayForm {
  relay_ip_entry : string;
  relay_ssh_port_entry : string;
  relay_username_entry : string;
  relay_password_entry : string
}.

Definition apply_relay_ssh_config (form : relay_form) (app : state)
    : M (state * Config.config_file) :=
  let config :=
    Config.dict_set "relay_ssh_port"
      (Config.JStr (strip (relay_ssh_port_entry form)))
      (Config.dict_set "relay_ip"
         (Config.JStr (strip (relay_ip_entry form)))
         (ssh_config app)) in
  let station :=
    {| Relay.relay_ip := Some (strip (relay_ip_entry form));
       Relay.relay_ssh_port := strip (relay_ssh_port_entry form);
       Relay.relay_username := strip (relay_username_entry form);
       Relay.relay_password :=
         if Py.truthy (strip (relay_password_entry form))
         then strip (relay_password_entry form)
         else Relay.relay_password (relay app) |} in
  let app1 := set_relay (set_ssh_config app config) station in
  app2 <- refresh_connection_status app1 ;;
  ret (app2, Config.save_config (Config.JObj config)).

(** The connection page of the settings: the check box and what [int]
    makes of the three entries ([None] for [ValueError]). *)
Record connection_form : Type := mkConnectionForm {
  conn_check_enabled_box : bool;
  interval_entry : option Z;
  timeout_entry : option Z;
  max_attempts_entry : option Z
}.

(** [apply_connection_settings]: the state afterwards and the file
    written by [save_config], if it was reached. *)
Definition apply_connection_settings (platform stamp : string)
    (form : connection_form) (app : state)
    : M (state * option Config.config_file) :=
  let app1 :=
    set_ssh_config (set_check_enabled app (conn_check_enabled_box form))
      (Config.dict_set "connection_check_enabled"
         (Config.JBool (conn_check_enabled_box form)) (ssh_config app)) in
  match interval_entry form with
  | None => ret (app1, None)
  | Some interval_sec =>
      if interval_sec <=? 0 then ret (app1, None)
      else
        let app2 :=
          set_ssh_config (set_check_interval app1 (interval_sec * 1000))
            (Config.dict_set "connection_check_interval"
               (Config.JInt (interval_sec * 1000)) (ssh_config app1)) in
        match timeout_entry form with
        | None => ret (app2, None)
        | Some timeout_sec =>
            if timeout_sec <=? 0 then ret (app2, None)
            else
              let app3 :=
                set_executor app2
                  (set_policy (ssh_executor app2) timeout_sec
                     (max_attempts (ssh_executor app2))) in
              match max_attempts_entry form with
              | None => ret (app3, None)
              | Some attempts =>
                  if attempts <=? 0 then ret (app3, None)
                  else
                    let app4 :=
                      set_executor app3
                        (set_policy (ssh_executor app3)
                           (timeout (ssh_executor app3)) attempts) in
                    let file :=
                      Config.save_config (Config.JObj (ssh_config app4)) in
                    if connection_check_enabled app4 then
                      r <- periodic_connection_check platform stamp app4 ;;
                      ret (fst r, Some file)
                    else
                      ret (update_connection_status app4
                             "Connection Check Disabled" "gray"
                             "Drone IP: N/A" "gray", Some file)
              end
        end
  end.

End Methods.

(** The four power actions. *)
Inductive power : Type :=
| RebootCompanion
| ShutdownCompanion
| RebootRelay
| ShutdownRelay.

Definition run_power (net : network) (p : power) : state -> M state :=
  match p with
  | RebootCompanion => reboot_companion_and_restart_tunnel net
  | ShutdownCompanion => shutdown_companion_and_restart_tunnel net
  | RebootRelay => reboot_relay net
  | ShutdownRelay => shutdown_relay net
  end.

End App.

(** What a call with a budget of one attempt adds to the log. *)
Definition one_attempt (new : list event) : Prop :=
  (count is_connect new <= 1)%nat /\ count is_sleep new = 0%nat
  /\ count is_socket new = 0%nat.

(** The window as [__init__] leaves it for [drone] and [Relay.station],
    before the first connection check. *)
Definition window : App.state :=
  {| App.ssh_executor := drone;
     App.ssh_config := Config.default_config;
     App.relay := Relay.station;
     App.is_rebooting_or_shutting_down := false;
     App.connection_check_enabled := true;
     App.connection_check_interval := 30000;
     App.time_synced := false;
     App.wifi_temp_busy := false;
     App.top_status_label := "Connected and Ready | Drone IP: Checking...";
     App.companion_version_label := "Companion Version: N/A" |}.

(** The fields of the window that a connection check leaves alone. *)
Definition same_settings (app' app : App.state) : Prop :=
  App.ssh_config app' = App.ssh_config app /\
  App.relay app' = App.relay app /\
  App.is_rebooting_or_shutting_down app'
  = App.is_rebooting_or_shutting_down app /\
  App.connection_check_enabled app' = App.connection_check_enabled app /\
  App.connection_check_interval app' = App.connection_check_interval app.

(** The executor after a connection test that started from [self]:
    [self] itself, or [self] failed over to its secondary address. *)
Definition tested (self self' : SSHExecutor) : Prop :=
  self' = self
  \/ self' = set_current self (secondary_ip self) (secondary_port self).

(** The probes of a connection test go to the current target or to the
    secondary address. *)
Definition probes_of (self : SSHExecutor) (e : event) : Prop :=
  forall a p tmo,
    e = EvSocket a p tmo ->
    (Some a = current_ip self /\ p = current_port self)
    \/ (Some a = secondary_ip self /\ p = secondary_port self).

(** A form of the connection page is accepted when [int] converts its
    three entries to positive integers. *)
Definition accepted (form : App.connection_form) : bool :=
  match App.interval_entry form, App.timeout_entry form,
        App.max_attempts_entry form with
  | Some i, Some t, Some n => (0 <? i) && (0 <? t) && (0 <? n)
  | _, _, _ => false
  end.

(** A form with a zero timeout. *)
Definition zero_timeout_form : App.connection_form :=
  {| App.conn_check_enabled_box := false;
     App.interval_entry := Some 10;
     App.timeout_entry := Some 0;
     App.max_attempts_entry := Some 3 |}.

(** ** Camera parameters in the streaming configuration (main.py)

    The loop of [update_cam_params_config] that rewrites the lines read
    from [/etc/vision_streaming.conf]. *)

Module CamParams.

Import Text.

(** [s.endswith("]")] *)
Fixpoint ends_with_bracket (s : string) : bool :=
  match s with
  | EmptyString => false
  | String c EmptyString => is_char 93 c
  | String _ s' => ends_with_bracket s'
  end.

(** [s.lstrip('#')] *)
Fixpoint lstrip_hash (s : string) : string :=
  match s with
  | String c s' => if is_char 35 c then lstrip_hash s' else s
  | EmptyString => EmptyString
  end.

(** The newline character. *)
Definition nl : string := String (ascii_of_nat 10) EmptyString.

(** [stripped.startswith('[') and stripped.endswith(']')] *)
Definition is_header (line : string) : bool :=
  Py.startswith "[" (strip line) && ends_with_bracket (strip line).

(** ["camera_name" in line and device in line] *)
Definition is_target (device line : string) : bool :=
  Config.is_substring "camera_name" line && Config.is_substring device line.

(** The local variables of the loop. *)
Record flags : Type := mkFlags {
  in_target : bool;
  res_updated : bool;
  fps_updated : bool;
  format_updated : bool
}.

Definition initial : flags :=
  {| in_target := false; res_updated := false; fps_updated := false;
     format_updated := false |}.

Definition set_in_target (st : flags) (b : bool) : flags :=
  {| in_target := b; res_updated := res_updated st;
     fps_updated := fps_updated st; format_updated := format_updated st |}.

Section Rewrite.

Variables device resolution fps cam_format : string.

Definition resolution_line : string := "resolution = " ++ resolution ++ nl.
Definition fps_line : string := "fps = " ++ fps ++ nl.
Definition format_line : string := "format = " ++ cam_format ++ nl.

(** The lines appended when a target section ends. *)
Definition pending (st : flags) : list string :=
  if in_target st then
    (if res_updated st then [] else [resolution_line]) ++
    (if fps_updated st then [] else [fps_line]) ++
    (if format_updated st then [] else [format_line])
  else [].

(** [new_lines] for the lines still to read, from the state [st]. *)
Fixpoint rewrite_from (st : flags) (lines : list string) : list string :=
  match lines with
  | [] => pending st
  | line :: rest =>
      let stripped := strip line in
      if is_header line then
        pending st ++ line :: rewrite_from (set_in_target st false) rest
      else if is_target device line then
        line :: rewrite_from (set_in_target st true) rest
      else if in_target st then
        if Py.startswith "resolution" (lstrip_hash stripped) then
          resolution_line ::
          rewrite_from
            {| in_target := in_target st; res_updated := true;
               fps_updated := fps_updated st;
               format_updated := format_updated st |} rest
        else if Py.startswith "fps" (lstrip_hash stripped) then
          fps_line ::
          rewrite_from
            {| in_target := in_target st; res_updated := res_updated st;
               fps_updated := true;
               format_updated := format_updated st |} rest
        else if Py.startswith "format" (lstrip_hash stripped) then
          format_line ::
          rewrite_from
            {| in_target := in_target st; res_updated := res_updated st;
               fps_updated := fps_updated st;
               format_updated := true |} rest
        else line :: rewrite_from st rest
      else line :: rewrite_from st rest
  end.

Definition rewrite_lines (lines : list string) : list string :=
  rewrite_from initial lines.

(** One of the three lines the loop writes. *)
Definition is_parameter_line (line : string) : Prop :=
  line = resolution_line \/ line = fps_line \/ line = format_line.

End Rewrite.

(** A streaming configuration with two cameras. *)
Definition two_cameras : list string :=
  ["[camera0]" ++ nl; "camera_name = /dev/video0" ++ nl;
   "resolution = 640x480" ++ nl; "fps = 30" ++ nl; "format = MJPG" ++ nl;
   "[camera1]" ++ nl; "camera_name = /dev/video2" ++ nl].

End CamParams.


(** * Properties *)

(** ** Running computations *)

Ltac run :=
  cbv beta delta [bind ret emit tick sleep socket_create_connection
                  connect_ exec_command close_unconnected] iota;
  cbn [fst snd clock log].

Lemma spaced_step (blk : list event) (gap : event) (m : nat) :
  (1 <= m)%nat -> spaced blk gap (S m) = (blk ++ gap :: spaced blk gap m)%list.
Proof.
  destruct m as [|m]; [lia | reflexivity].
Qed.

Lemma last_iteration (n : Z) (todo : nat) :
  0 < n -> (n - Z.of_nat (S todo) <? n - 1) = negb (Nat.eqb todo 0).
Proof.
  intros Hn. destruct todo as [|todo]; cbn [Nat.eqb negb].
  - apply Z.ltb_ge. lia.
  - apply Z.ltb_lt. lia.
Qed.

Lemma count_app (p : event -> bool) (l1 l2 : list event) :
  count p (l1 ++ l2) = (count p l1 + count p l2)%nat.
Proof.
  unfold count. rewrite filter_app, length_app. reflexivity.
Qed.

Lemma count_spaced (p : event -> bool) (blk : list event) (gap : event)
    (m : nat) :
  count p (spaced blk gap m)
  = (m * count p blk + (m - 1) * count p [gap])%nat.
Proof.
  induction m as [|m IH]; [reflexivity|].
  destruct m as [|m].
  - cbn [spaced]. lia.
  - rewrite spaced_step by lia.
    change (gap :: spaced blk gap (S m))
      with ([gap] ++ spaced blk gap (S m))%list.
    rewrite !count_app, IH.
    replace (S (S m) - 1)%nat with (S m) by lia.
    replace (S m - 1)%nat with m by lia.
    nia.
Qed.

Lemma ends_with_sleep_snoc (l : list event) (e : event) :
  ends_with_sleep (l ++ [e]) = is_sleep e.
Proof.
  unfold ends_with_sleep. rewrite rev_app_distr. reflexivity.
Qed.

Lemma ends_with_sleep_app (l1 l2 : list event) :
  l2 <> [] -> ends_with_sleep (l1 ++ l2) = ends_with_sleep l2.
Proof.
  intros Hne. unfold ends_with_sleep. rewrite rev_app_distr.
  destruct (rev l2) as [|e l] eqn:Hrev; [|reflexivity].
  apply (f_equal (@rev event)) in Hrev. rewrite rev_involutive in Hrev.
  contradiction.
Qed.

Lemma ends_with_sleep_spaced (e gap : event) (m : nat) :
  is_sleep e = false -> ends_with_sleep (spaced [e] gap m) = false.
Proof.
  intros He. induction m as [|m IH]; [reflexivity|].
  destruct m as [|m]; [cbn [spaced]; unfold ends_with_sleep; exact He|].
  rewrite spaced_step by lia.
  change ([e] ++ gap :: spaced [e] gap (S m))%list
    with (([e] ++ [gap]) ++ spaced [e] gap (S m))%list.
  rewrite ends_with_sleep_app; [exact IH|].
  cbn [spaced]. destruct m; discriminate.
Qed.

(** ** Reachability prober *)

Section Reachability.

Variable net : network.
Variables ip port : string.
Variables tmo n : Z.
Hypothesis n_pos : 0 < n.

(** The loop with [todo] iterations left, entered at the iteration
    [n - todo]. *)
Lemma is_reachable_loop_spec (todo : nat) (w : world) :
  (1 <= todo)%nat -> Z.of_nat todo <= n ->
  let r := is_reachable_loop net ip port tmo n todo
             (n - Z.of_nat todo) w in
  let up := fun k => tcp_connect net (clock w + k) ip port tmo in
  exists m : nat,
    (1 <= m <= todo)%nat /\
    log (snd r)
    = (log w ++ spaced [EvSocket ip port tmo] (EvSleep 5) m)%list /\
    clock (snd r) = (clock w + m)%nat /\
    (forall k, (k < m - 1)%nat -> up k = false) /\
    (if fst r then up (m - 1)%nat = true
     else m = todo /\ up (m - 1)%nat = false).
Proof.
  revert w. induction todo as [|todo IH]; intros w Hpos Hle; [lia|].
  cbn [is_reachable_loop]. run.
  destruct (tcp_connect net (clock w) ip port tmo) eqn:Hnow.
  - exists 1%nat. cbn [fst snd clock log spaced Nat.sub].
    rewrite Nat.add_0_r, Nat.add_1_r.
    repeat split; auto; try (intros; lia).
  - rewrite last_iteration by exact n_pos.
    destruct todo as [|todo'].
    + cbn [Nat.eqb negb is_reachable_loop]. run.
      exists 1%nat. cbn [spaced Nat.sub].
      rewrite Nat.add_0_r, Nat.add_1_r.
      repeat split; auto; try (intros; lia).
    + cbn [Nat.eqb negb]. run.
      replace (n - Z.of_nat (S (S todo')) + 1)
        with (n - Z.of_nat (S todo')) by lia.
      set (w2 := {| clock := S (clock w);
                    log := ((log w ++ [EvSocket ip port tmo])
                              ++ [EvSleep 5])%list |}).
      destruct (IH w2) as (m & Hm & Hlog & Hclk & Hbefore & Hlast);
        [lia | lia |].
      exists (S m).
      split; [lia|]. split.
      { rewrite Hlog. unfold w2; cbn [log].
        rewrite spaced_step by lia.
        rewrite <- !app_assoc. reflexivity. }
      split.
      { rewrite Hclk. unfold w2; cbn [clock]. lia. }
      assert (Hshift : forall k,
                 tcp_connect net (clock w2 + k) ip port tmo
                 = tcp_connect net (clock w + S k) ip port tmo).
      { intros k. unfold w2; cbn [clock]. f_equal. lia. }
      split.
      { intros k Hk. destruct k as [|k].
        - rewrite Nat.add_0_r. exact Hnow.
        - rewrite <- Hshift. apply Hbefore. lia. }
      destruct (fst (is_reachable_loop net ip port tmo n (S todo')
                       (n - Z.of_nat (S todo')) w2)).
      * replace (S m - 1)%nat with (S (m - 1)) by lia.
        rewrite <- Hshift. exact Hlast.
      * destruct Hlast as [Hm' Hlast]. split; [lia|].
        replace (S m - 1)%nat with (S (m - 1)) by lia.
        rewrite <- Hshift. exact Hlast.
Qed.

End Reachability.

(** C6.  For every host, port, timeout and [max_attempts = n > 0],
    [is_reachable] returns [True] exactly when one of the first [n]
    connection attempts succeeds.  It makes [m] attempts, [1 <= m <= n],
    and what it does is exactly: an attempt, then [m - 1] times a sleep of
    5 seconds followed by an attempt; so it sleeps only between a failed
    attempt and the next one and never after the final attempt.  All
    attempts before the last one made fail; when the result is [True] the
    last attempt made is the first success, and when it is [False] all
    [n] attempts were made and failed. *)
Theorem is_reachable_retries (net : network) (self : SSHExecutor)
    (ip port : string) (timeout_arg max_attempts_arg : option Z)
    (w : world) :
  let tmo := Py.or_default timeout_arg (timeout self) in
  let n := Py.or_default max_attempts_arg (max_attempts self) in
  0 < n ->
  let r := is_reachable net self ip port timeout_arg max_attempts_arg w in
  let up := fun k => tcp_connect net (clock w + k) ip port tmo in
  (fst r = true <-> exists k, (k < Z.to_nat n)%nat /\ up k = true) /\
  exists (m : nat) (new : list event),
    (1 <= m <= Z.to_nat n)%nat /\
    clock (snd r) = (clock w + m)%nat /\
    log (snd r) = (log w ++ new)%list /\
    new = spaced [EvSocket ip port tmo] (EvSleep 5) m /\
    count is_socket new = m /\
    count is_sleep new = (m - 1)%nat /\
    ends_with_sleep new = false /\
    (forall k, (k < m - 1)%nat -> up k = false) /\
    (if fst r then up (m - 1)%nat = true
     else m = Z.to_nat n /\ up (m - 1)%nat = false).
Proof.
  intros tmo n Hn r up.
  destruct (is_reachable_loop_spec net ip port tmo n Hn (Z.to_nat n) w)
    as (m & Hm & Hlog & Hclk & Hbefore & Hlast); [lia | lia |].
  rewrite Z2Nat.id in Hlog, Hclk, Hlast by lia.
  replace (n - n) with 0 in Hlog, Hclk, Hlast by lia.
  change (is_reachable_loop net ip port tmo n (Z.to_nat n) 0 w)
    with r in Hlog, Hclk, Hlast.
  split.
  - split.
    + intros Hr. rewrite Hr in Hlast. exists (m - 1)%nat.
      split; [lia | exact Hlast].
    + intros (k & Hk & Hup). destruct (fst r); [reflexivity|].
      destruct Hlast as [Hmn Hfinal].
      destruct (Nat.eq_dec k (m - 1)) as [->|Hne].
      * unfold up in Hup. congruence.
      * assert (Hf : up k = false) by (apply Hbefore; lia).
        congruence.
  - exists m, (spaced [EvSocket ip port tmo] (EvSleep 5) m).
    split; [exact Hm|]. split; [exact Hclk|].
    split; [exact Hlog|]. split; [reflexivity|].
    rewrite !count_spaced, ends_with_sleep_spaced by reflexivity. cbn.
    repeat split; try lia; auto.
Qed.

(** The default policy on a dead network: three attempts, two sleeps. *)
Lemma is_reachable_retries_witness :
  let r := is_reachable net_dead drone "10.5.6.100" "2222" None None world0 in
  let up := fun k => tcp_connect net_dead (0 + k) "10.5.6.100" "2222" 5 in
  (fst r = true <-> exists k, (k < 3)%nat /\ up k = true) /\
  exists (m : nat) (new : list event),
    (1 <= m <= 3)%nat /\
    clock (snd r) = (0 + m)%nat /\
    log (snd r) = new /\
    new = spaced [EvSocket "10.5.6.100" "2222" 5] (EvSleep 5) m /\
    count is_socket new = m /\
    count is_sleep new = (m - 1)%nat /\
    ends_with_sleep new = false /\
    (forall k, (k < m - 1)%nat -> up k = false) /\
    (if fst r then up (m - 1)%nat = true
     else m = 3%nat /\ up (m - 1)%nat = false).
Proof.
  apply (is_reachable_retries net_dead drone "10.5.6.100" "2222" None None
           world0).
  reflexivity.
Defined.

(** ** Command executor: the retry loop *)

Section RetryLoop.

Variable rel : release.
Variable net : network.
Variable self : SSHExecutor.
Variable command : string.
Variable n : Z.
Hypothesis n_pos : 0 < n.

Lemma execute_command_try_raises (w : world) :
  attempt_raises net self (elevated (password self) command) (clock w)
  = true ->
  execute_command_try rel net self command w
  = (None,
     {| clock := attempt_end net self (clock w);
        log := (log w ++ attempt_events rel net self
                           (elevated (password self) command)
                           (clock w))%list |}).
Proof.
  unfold attempt_raises, attempt_end, attempt_events, execute_command_try,
    connect_at.
  run. intros Hraise.
  destruct (ssh_connect net (clock w) (current_ip self) (current_port self)
              (username self) (password self) (timeout self)).
  - run.
    destruct (ssh_exec net (S (clock w)) (elevated (password self) command));
      [|discriminate].
    unfold session_events. rewrite <- !app_assoc. reflexivity.
  - unfold failed_connect_events.
    destruct rel; cbn [closes_unconnected_client]; run;
      rewrite <- ?app_assoc; reflexivity.
  - unfold failed_connect_events.
    destruct rel; cbn [closes_unconnected_client]; run;
      rewrite <- ?app_assoc; reflexivity.
Qed.

(** All [todo] remaining attempts end in a caught exception. *)
Lemma execute_command_loop_exhausted (todo : nat) (w : world) :
  (1 <= todo)%nat -> Z.of_nat todo <= n ->
  all_attempts_raise net self (elevated (password self) command)
    (clock w) todo = true ->
  exists final : nat,
    execute_command_loop rel net self command n todo (n - Z.of_nat todo) w
    = (false,
       {| clock := final;
          log := (log w ++ attempts_log rel net self
                             (elevated (password self) command)
                             (clock w) todo)%list |}).
Proof.
  revert w. induction todo as [|todo IH]; intros w Hpos Hle Hall; [lia|].
  cbn [all_attempts_raise] in Hall. apply andb_prop in Hall.
  destruct Hall as [Hnow Hlater].
  cbn [execute_command_loop]. unfold bind at 1.
  rewrite (execute_command_try_raises w Hnow).
  rewrite last_iteration by exact n_pos.
  destruct todo as [|todo'].
  - cbn [Nat.eqb negb execute_command_loop attempts_log]. run.
    rewrite app_nil_r. eexists. reflexivity.
  - cbn [Nat.eqb negb]. run.
    replace (n - Z.of_nat (S (S todo')) + 1)
      with (n - Z.of_nat (S todo')) by lia.
    match goal with
    | |- context [execute_command_loop _ _ _ _ _ _ _ ?w'] =>
        destruct (IH w') as (final & Hloop); [lia | lia | exact Hlater |]
    end.
    exists final. rewrite Hloop. cbn [clock log].
    cbn [attempts_log]. rewrite <- !app_assoc. reflexivity.
Qed.

Lemma execute_command_try_exited (w : world) (status : Z)
    (out err : string) :
  connect_at net self (clock w) = ConnOk ->
  ssh_exec net (S (clock w)) (elevated (password self) command)
  = ExecDone status out err ->
  execute_command_try rel net self command w
  = (Some (status =? 0),
     {| clock := S (S (clock w));
        log := (log w ++ session_events self
                           (elevated (password self) command))%list |}).
Proof.
  intros Hconn Hexec. unfold execute_command_try, connect_at in *. run.
  rewrite Hconn. run. rewrite Hexec.
  unfold session_events. rewrite <- !app_assoc. cbn [app].
  destruct (status =? 0); reflexivity.
Qed.

End RetryLoop.

Lemma count_attempt_events (rel : release) (net : network)
    (self : SSHExecutor) (cmd : string) (now : nat) :
  count is_connect (attempt_events rel net self cmd now) = 1%nat /\
  count is_sleep (attempt_events rel net self cmd now) = 0%nat /\
  exists l e, attempt_events rel net self cmd now = (l ++ [e])%list /\
              is_sleep e = false.
Proof.
  unfold attempt_events, session_events, failed_connect_events.
  destruct (connect_at net self now).
  - repeat split; try reflexivity.
    eexists [_; _], _. split; reflexivity.
  - destruct rel; repeat split; try reflexivity.
    + eexists [_], _. split; reflexivity.
    + eexists [], _. split; reflexivity.
  - destruct rel; repeat split; try reflexivity.
    + eexists [_], _. split; reflexivity.
    + eexists [], _. split; reflexivity.
Qed.

Lemma count_attempts_log (rel : release) (net : network)
    (self : SSHExecutor) (cmd : string) (m : nat) (now : nat) :
  (1 <= m)%nat ->
  count is_connect (attempts_log rel net self cmd now m) = m /\
  count is_sleep (attempts_log rel net self cmd now m) = (m - 1)%nat /\
  ends_with_sleep (attempts_log rel net self cmd now m) = false.
Proof.
  revert now. induction m as [|m IH]; intros now Hm; [lia|].
  destruct (count_attempt_events rel net self cmd now)
    as (Hc & Hs & l & e & Hlast & He).
  cbn [attempts_log]. destruct m as [|m].
  - rewrite app_nil_r. repeat split; try assumption.
    rewrite Hlast, ends_with_sleep_snoc. exact He.
  - destruct (IH (attempt_end net self now)) as (IHc & IHs & IHe); [lia|].
    change (EvSleep 5 :: attempts_log rel net self cmd
                           (attempt_end net self now) (S m))
      with ([EvSleep 5] ++ attempts_log rel net self cmd
                             (attempt_end net self now) (S m))%list.
    rewrite !count_app, Hc, Hs, IHc, IHs.
    repeat split; try (cbn; lia).
    unfold ends_with_sleep in *. rewrite !rev_app_distr.
    destruct (rev (attempts_log rel net self cmd
                     (attempt_end net self now) (S m))) as [|x xs] eqn:Hrev;
      [|exact IHe].
    exfalso. apply (f_equal (@rev event)) in Hrev.
    rewrite rev_involutive in Hrev. rewrite Hrev in IHc.
    discriminate IHc.
Qed.

(** C3.  For every command and every [max_attempts = n > 0], on a
    configured executor: when each of the [n] attempts ends in a
    transport or authentication error (an exception raised by [connect]
    or by the execution), [execute_command] returns [False] after exactly
    [n] connection attempts and exactly [n - 1] sleeps of 5 seconds: one
    sleep between consecutive attempts and none after the last. *)
Theorem execute_command_exhausts_attempts (rel : release) (net : network)
    (self : SSHExecutor) (command : string) (max_attempts_arg : option Z)
    (w : world) :
  let n := Py.or_default max_attempts_arg (max_attempts self) in
  let cmd := elevated (password self) command in
  unconfigured self = false ->
  0 < n ->
  all_attempts_raise net self cmd (clock w) (Z.to_nat n) = true ->
  let r := execute_command rel net self command max_attempts_arg w in
  fst r = false /\
  exists new : list event,
    log (snd r) = (log w ++ new)%list /\
    new = attempts_log rel net self cmd (clock w) (Z.to_nat n) /\
    count is_connect new = Z.to_nat n /\
    count is_sleep new = (Z.to_nat n - 1)%nat /\
    ends_with_sleep new = false.
Proof.
  intros n cmd Hconf Hn Hall r.
  assert (Hr : exists final,
             r = (false,
                  {| clock := final;
                     log := (log w ++ attempts_log rel net self cmd (clock w)
                                        (Z.to_nat n))%list |})).
  { destruct (execute_command_loop_exhausted rel net self command n Hn
                (Z.to_nat n) w) as (final & Hloop);
      [lia | lia | exact Hall |].
    rewrite Z2Nat.id in Hloop by lia.
    replace (n - n) with 0 in Hloop by lia.
    exists final. unfold r, execute_command. rewrite Hconf. exact Hloop. }
  destruct Hr as (final & ->). cbn [fst snd log].
  split; [reflexivity|].
  exists (attempts_log rel net self cmd (clock w) (Z.to_nat n)).
  split; [reflexivity|]. split; [reflexivity|].
  apply count_attempts_log. lia.
Qed.

(** A rejected credential, a session that breaks, a refused connection:
    three attempts, two sleeps, failure. *)
Lemma execute_command_exhausts_attempts_witness :
  let r := execute_command V1_3 net_flaky drone "sudo reboot" None world0 in
  let attempt :=
    EvConnect (Some "10.5.6.100") "2222" "roz" "default_password" 5 in
  fst r = false /\
  exists new : list event,
    log (snd r) = new /\
    new = [attempt; EvSleep 5;
           attempt; EvExec "echo default_password | sudo -S reboot"; EvClose;
           EvSleep 5;
           attempt] /\
    count is_connect new = 3%nat /\
    count is_sleep new = 2%nat /\
    ends_with_sleep new = false.
Proof.
  apply (execute_command_exhausts_attempts V1_3 net_flaky drone "sudo reboot"
           None world0); reflexivity.
Defined.

(** C4.  When the first session attempt connects and authenticates and
    the remote command finishes with a non-zero exit status,
    [execute_command] returns [False] on that attempt: the whole call is
    one connection, the command and the close; no sleep and no further
    attempt, whatever [max_attempts > 0] allows. *)
Theorem execute_command_remote_exit_not_retried (rel : release)
    (net : network) (self : SSHExecutor) (command : string)
    (max_attempts_arg : option Z) (w : world)
    (status : Z) (out err : string) :
  let n := Py.or_default max_attempts_arg (max_attempts self) in
  unconfigured self = false ->
  0 < n ->
  connect_at net self (clock w) = ConnOk ->
  ssh_exec net (S (clock w)) (elevated (password self) command)
  = ExecDone status out err ->
  status <> 0 ->
  let r := execute_command rel net self command max_attempts_arg w in
  fst r = false /\
  exists new : list event,
    log (snd r) = (log w ++ new)%list /\
    new = session_events self (elevated (password self) command) /\
    count is_connect new = 1%nat /\
    count is_sleep new = 0%nat.
Proof.
  intros n Hconf Hn Hconn Hexec Hstatus r.
  assert (Hr : r = (false,
                    {| clock := S (S (clock w));
                       log := (log w ++ session_events self
                                 (elevated (password self) command))%list |})).
  { unfold r, execute_command. rewrite Hconf. fold n.
    destruct (Z.to_nat n) as [|todo] eqn:Htodo; [lia|].
    cbn [execute_command_loop]. unfold bind at 1.
    rewrite (execute_command_try_exited rel net self command w status out err
               Hconn Hexec).
    apply Z.eqb_neq in Hstatus. rewrite Hstatus. reflexivity. }
  rewrite Hr. cbn [fst snd log].
  split; [reflexivity|].
  exists (session_events self (elevated (password self) command)).
  repeat split; reflexivity.
Qed.

(** Exit status 1 under a policy of three attempts. *)
Lemma execute_command_remote_exit_not_retried_witness :
  let r := execute_command V1_3 (net_exits 1) drone "ls" None world0 in
  fst r = false /\
  exists new : list event,
    log (snd r) = new /\
    new = session_events drone "ls" /\
    count is_connect new = 1%nat /\
    count is_sleep new = 0%nat.
Proof.
  apply (execute_command_remote_exit_not_retried V1_3 (net_exits 1) drone
           "ls" None world0 1 "" "").
  - reflexivity.
  - reflexivity.
  - reflexivity.
  - reflexivity.
  - discriminate.
Defined.

(** ** Command executor: what is transmitted *)

Lemma adds_ret {A : Type} (P : event -> Prop) (a : A) : adds P (ret a).
Proof.
  intros w. exists []. split; [symmetry; apply app_nil_r | constructor].
Qed.

Lemma adds_tick (P : event -> Prop) : adds P tick.
Proof.
  intros w. exists []. split; [symmetry; apply app_nil_r | constructor].
Qed.

Lemma adds_emit (P : event -> Prop) (e : event) : P e -> adds P (emit e).
Proof.
  intros He w. exists [e]. split; [reflexivity|].
  constructor; [exact He | constructor].
Qed.

Lemma adds_bind {A B : Type} (P : event -> Prop) (m : M A) (f : A -> M B) :
  adds P m -> (forall a, adds P (f a)) -> adds P (bind m f).
Proof.
  intros Hm Hf w. unfold bind.
  destruct (Hm w) as (new1 & Hlog1 & Hnew1).
  destruct (m w) as [a w1]. cbn [snd] in Hlog1.
  destruct (Hf a w1) as (new2 & Hlog2 & Hnew2).
  exists (new1 ++ new2)%list. split.
  - rewrite Hlog2, Hlog1. symmetry. apply app_assoc.
  - apply Forall_app. split; assumption.
Qed.

Ltac adds_step :=
  first
    [ apply adds_ret
    | apply adds_tick
    | apply adds_emit; unfold session_event; tauto
    | apply adds_bind; [| intros ? ] ].

Section SessionEvents.

Variable rel : release.
Variable net : network.
Variable self : SSHExecutor.
Variable cmd : string.

Lemma adds_retry_pause (attempt n : Z) :
  adds (session_event self cmd)
    (if attempt <? n - 1 then sleep 5 else ret tt).
Proof.
  destruct (attempt <? n - 1); unfold sleep; adds_step.
Qed.

Lemma adds_close_unconnected :
  adds (session_event self cmd) (close_unconnected rel).
Proof.
  unfold close_unconnected.
  destruct (closes_unconnected_client rel); adds_step.
Qed.

Lemma adds_connect : adds (session_event self cmd) (connect_ net self).
Proof.
  unfold connect_. repeat adds_step.
Qed.

Lemma adds_exec_command : adds (session_event self cmd) (exec_command net cmd).
Proof.
  unfold exec_command. repeat adds_step.
Qed.

End SessionEvents.

Lemma execute_command_try_adds (rel : release) (net : network)
    (self : SSHExecutor) (command : string) :
  adds (session_event self (elevated (password self) command))
    (execute_command_try rel net self command).
Proof.
  unfold execute_command_try.
  apply adds_bind; [apply adds_connect|].
  intros [ | | ].
  - apply adds_bind; [apply adds_exec_command|].
    intros [|status out err]; repeat adds_step.
    destruct (status =? 0); adds_step.
  - apply adds_bind; [apply adds_close_unconnected|].
    intros _; adds_step.
  - apply adds_bind; [apply adds_close_unconnected|].
    intros _; adds_step.
Qed.

Lemma execute_command_adds (rel : release) (net : network)
    (self : SSHExecutor) (command : string) (max_attempts_arg : option Z) :
  adds (session_event self (elevated (password self) command))
    (execute_command rel net self command max_attempts_arg).
Proof.
  unfold execute_command. destruct (unconfigured self); [adds_step|].
  generalize 0.
  induction (Z.to_nat (Py.or_default max_attempts_arg (max_attempts self)))
    as [|todo IH]; intros attempt; cbn [execute_command_loop].
  - adds_step.
  - apply adds_bind; [apply execute_command_try_adds|].
    intros [b|]; [adds_step|].
    apply adds_bind; [apply adds_retry_pause|].
    intros _. apply IH.
Qed.

Lemma execute_command_capture_try_adds (rel : release) (net : network)
    (self : SSHExecutor) (command : string) :
  adds (session_event self command)
    (execute_command_capture_try rel net self command).
Proof.
  unfold execute_command_capture_try.
  apply adds_bind; [apply adds_connect|].
  intros [ | | ].
  - apply adds_bind; [apply adds_exec_command|].
    intros [|status out err]; repeat adds_step.
  - apply adds_bind; [apply adds_close_unconnected|].
    intros _; adds_step.
  - apply adds_bind; [apply adds_close_unconnected|].
    intros _; adds_step.
Qed.

Lemma execute_command_capture_loop_adds (rel : release) (net : network)
    (self : SSHExecutor) (command : string) (n : Z) (todo : nat)
    (attempt : Z) :
  adds (session_event self command)
    (execute_command_capture_loop rel net self command n todo attempt).
Proof.
  revert attempt.
  induction todo as [|todo IH]; intros attempt;
    cbn [execute_command_capture_loop].
  - adds_step.
  - apply adds_bind; [apply execute_command_capture_try_adds|].
    intros [res|]; [adds_step|].
    apply adds_bind; [apply adds_retry_pause|].
    intros _. apply IH.
Qed.

Lemma execute_command_capture_adds (rel : release) (net : network)
    (self : SSHExecutor) (command : string) (max_attempts_arg : option Z) :
  adds (session_event self command)
    (execute_command_capture rel net self command max_attempts_arg).
Proof.
  unfold execute_command_capture.
  destruct (unconfigured self); [adds_step|].
  apply execute_command_capture_loop_adds.
Qed.

Lemma session_events_transmit (self : SSHExecutor) (cmd : string)
    (l : list event) :
  Forall (session_event self cmd) l -> transmits_only cmd l.
Proof.
  intros Hall c Hin. rewrite Forall_forall in Hall.
  destruct (Hall _ Hin) as [H|[H|[H|H]]]; try discriminate H.
  injection H as ->. reflexivity.
Qed.

Lemma session_events_connect (self : SSHExecutor) (cmd : string)
    (l : list event) :
  Forall (session_event self cmd) l ->
  connects_only (current_ip self) (current_port self) l.
Proof.
  intros Hall ip port user secret tmo Hin. rewrite Forall_forall in Hall.
  destruct (Hall _ Hin) as [H|[H|[H|H]]]; try discriminate H.
  injection H as -> -> _ _ _. split; reflexivity.
Qed.

Lemma startswith_split (p s : string) :
  Py.startswith p s = true -> s = p ++ Py.slice_from (String.length p) s.
Proof.
  revert s. induction p as [|a p IH]; intros s H; [reflexivity|].
  destruct s as [|b s]; [discriminate|].
  cbn [Py.startswith] in H. apply andb_prop in H. destruct H as [Hab Hps].
  apply Ascii.eqb_eq in Hab. subst b.
  cbn [String.length Py.slice_from append]. f_equal. apply IH. exact Hps.
Qed.

Lemma execute_command_loop_adds (rel : release) (net : network)
    (self : SSHExecutor) (command : string) (n : Z) (todo : nat)
    (attempt : Z) :
  adds (session_event self (elevated (password self) command))
    (execute_command_loop rel net self command n todo attempt).
Proof.
  revert attempt.
  induction todo as [|todo IH]; intros attempt; cbn [execute_command_loop].
  - adds_step.
  - apply adds_bind; [apply execute_command_try_adds|].
    intros [b|]; [adds_step|].
    apply adds_bind; [apply adds_retry_pause|].
    intros _. apply IH.
Qed.

Lemma execute_command_first_session (rel : release) (net : network)
    (self : SSHExecutor) (command : string) (max_attempts_arg : option Z)
    (w : world) :
  unconfigured self = false ->
  0 < Py.or_default max_attempts_arg (max_attempts self) ->
  connect_at net self (clock w) = ConnOk ->
  exists rest,
    log (snd (execute_command rel net self command max_attempts_arg w))
    = (log w ++ session_events self (elevated (password self) command)
       ++ rest)%list.
Proof.
  intros Hconf Hn Hconn.
  unfold execute_command. rewrite Hconf.
  set (n := Py.or_default max_attempts_arg (max_attempts self)) in *.
  destruct (Z.to_nat n) as [|todo] eqn:Htodo; [lia|].
  cbn [execute_command_loop].
  unfold connect_at in Hconn.
  unfold bind at 1, execute_command_try. run.
  rewrite Hconn. run.
  destruct (ssh_exec net (S (clock w)) (elevated (password self) command))
    as [|status out err].
  - destruct (0 <? n - 1); cbn beta iota;
      match goal with
      | |- context [execute_command_loop ?a ?b ?c ?d ?e ?f ?g ?w'] =>
          destruct (execute_command_loop_adds a b c d e f g w')
            as (rest & Hrest & _);
          rewrite Hrest; cbn [log]
      end;
      unfold session_events; rewrite <- !app_assoc; cbn [app];
      eexists; reflexivity.
  - exists []. destruct (status =? 0); cbn [snd log]; unfold session_events;
      rewrite <- !app_assoc; reflexivity.
Qed.

(** C5.  [execute_command] transmits exactly one command text, whatever
    the attempt.  For a command that starts with ["sudo "], that text is
    ["echo "], the secret of the executor, [" | sudo -S "] and the
    command after the prefix: the secret stands at that one place of the
    piped form and nowhere around it.  A command without the prefix is
    transmitted unchanged.  In both cases the text is indeed sent once
    the first connection is made on a configured executor. *)
Theorem execute_command_elevation (rel : release) (net : network)
    (self : SSHExecutor) (command : string) (max_attempts_arg : option Z)
    (w : world) :
  let n := Py.or_default max_attempts_arg (max_attempts self) in
  let r := execute_command rel net self command max_attempts_arg w in
  let piped :=
    "echo " ++ password self ++ " | sudo -S " ++ Py.slice_from 5 command in
  exists new : list event,
    log (snd r) = (log w ++ new)%list /\
    (Py.startswith "sudo " command = true ->
     command = "sudo " ++ Py.slice_from 5 command /\
     transmits_only piped new /\
     (unconfigured self = false -> 0 < n ->
      connect_at net self (clock w) = ConnOk ->
      exists rest, new = (session_events self piped ++ rest)%list)) /\
    (Py.startswith "sudo " command = false ->
     transmits_only command new /\
     (unconfigured self = false -> 0 < n ->
      connect_at net self (clock w) = ConnOk ->
      exists rest, new = (session_events self command ++ rest)%list)).
Proof.
  intros n r piped.
  destruct (execute_command_adds rel net self command max_attempts_arg w)
    as (new & Hlog & Hnew).
  fold r in Hlog. exists new. split; [exact Hlog|].
  assert (Hsent : unconfigured self = false -> 0 < n ->
                  connect_at net self (clock w) = ConnOk ->
                  exists rest,
                    new = (session_events self
                             (elevated (password self) command) ++ rest)%list).
  { intros Hconf Hn Hconn.
    destruct (execute_command_first_session rel net self command
                max_attempts_arg w Hconf Hn Hconn) as (rest & Hrest).
    fold r in Hrest. exists rest.
    rewrite Hlog in Hrest. apply app_inv_head in Hrest. exact Hrest. }
  apply session_events_transmit in Hnew.
  split.
  - intros Hsudo.
    assert (He : elevated (password self) command = piped)
      by (unfold elevated; rewrite Hsudo; reflexivity).
    rewrite He in Hnew, Hsent.
    split; [exact (startswith_split "sudo " command Hsudo)|].
    split; assumption.
  - intros Hplain.
    assert (He : elevated (password self) command = command)
      by (unfold elevated; rewrite Hplain; reflexivity).
    rewrite He in Hnew, Hsent.
    split; assumption.
Qed.

(** On a companion that accepts the connection, ["sudo reboot"] goes out
    piped and ["ls"] as it is. *)
Lemma execute_command_elevation_witness :
  (exists rest,
     log (snd (execute_command V1_3 (net_exits 0) drone "sudo reboot" None
                 world0))
     = (session_events drone "echo default_password | sudo -S reboot"
        ++ rest)%list) /\
  (exists rest,
     log (snd (execute_command V1_3 (net_exits 0) drone "ls" None world0))
     = (session_events drone "ls" ++ rest)%list).
Proof.
  split.
  - destruct (execute_command_elevation V1_3 (net_exits 0) drone
                "sudo reboot" None world0) as (new & Hlog & Hsudo & _).
    destruct (Hsudo eq_refl) as (_ & _ & Hsent).
    destruct (Hsent eq_refl eq_refl eq_refl) as (rest & Hrest).
    exists rest. rewrite Hlog, Hrest. reflexivity.
  - destruct (execute_command_elevation V1_3 (net_exits 0) drone
                "ls" None world0) as (new & Hlog & _ & Hplain).
    destruct (Hplain eq_refl) as (_ & Hsent).
    destruct (Hsent eq_refl eq_refl eq_refl) as (rest & Hrest).
    exists rest. rewrite Hlog, Hrest. reflexivity.
Defined.

(** C10.  [execute_command_capture] transmits the command exactly as
    given: every command text it sends, on every attempt and for every
    executor (hence for every secret), is [command] itself, also when it
    starts with ["sudo "]; and once the first connection is made on a
    configured executor, that text is indeed sent. *)
Theorem execute_command_capture_verbatim (rel : release) (net : network)
    (self : SSHExecutor) (command : string) (max_attempts_arg : option Z)
    (w : world) :
  let n := Py.or_default max_attempts_arg (max_attempts self) in
  let r := execute_command_capture rel net self command max_attempts_arg w in
  exists new : list event,
    log (snd r) = (log w ++ new)%list /\
    transmits_only command new /\
    (unconfigured self = false -> 0 < n ->
     connect_at net self (clock w) = ConnOk ->
     exists rest, new = (session_events self command ++ rest)%list).
Proof.
  intros n r.
  destruct (execute_command_capture_adds rel net self command
              max_attempts_arg w) as (new & Hlog & Hnew).
  fold r in Hlog. exists new. split; [exact Hlog|].
  split; [exact (session_events_transmit _ _ _ Hnew)|].
  intros Hconf Hn Hconn.
  assert (Hrest : exists rest,
             log (snd r) = (log w ++ session_events self command ++ rest)%list).
  { unfold r, execute_command_capture. rewrite Hconf. fold n.
    destruct (Z.to_nat n) as [|todo] eqn:Htodo; [lia|].
    cbn [execute_command_capture_loop].
    unfold connect_at in Hconn.
    unfold bind at 1, execute_command_capture_try. run.
    rewrite Hconn. run.
    destruct (ssh_exec net (S (clock w)) command) as [|status out err].
    - destruct (0 <? n - 1); cbn beta iota;
        match goal with
        | |- context [execute_command_capture_loop ?a ?b ?c ?d ?e ?f ?g ?w'] =>
            destruct (execute_command_capture_loop_adds a b c d e f g w')
              as (rest & Hrest & _);
            rewrite Hrest; cbn [log]
        end;
        unfold session_events; rewrite <- !app_assoc; cbn [app];
        eexists; reflexivity.
    - exists []. cbn [snd log]. unfold session_events.
      rewrite <- !app_assoc. reflexivity. }
  destruct Hrest as (rest & Hrest). exists rest.
  rewrite Hlog in Hrest. apply app_inv_head in Hrest. exact Hrest.
Qed.

(** ["sudo reboot"] through the capture variant goes out as it is. *)
Lemma execute_command_capture_verbatim_witness :
  let r := execute_command_capture V1_3 (net_exits 0) drone "sudo reboot"
             None world0 in
  exists new : list event,
    log (snd r) = new /\
    transmits_only "sudo reboot" new /\
    exists rest, new = (session_events drone "sudo reboot" ++ rest)%list.
Proof.
  destruct (execute_command_capture_verbatim V1_3 (net_exits 0) drone
              "sudo reboot" None world0) as (new & Hlog & Hnew & Hsent).
  exists new. split; [exact Hlog|]. split; [exact Hnew|].
  apply Hsent; reflexivity.
Defined.

(** ** Dual-target execution *)

Lemma set_current_restore (self : SSHExecutor) (ip : option string)
    (port : string) :
  set_current (set_current self ip port) (current_ip self) (current_port self)
  = self.
Proof.
  destruct self; reflexivity.
Qed.

(** [execute_command_all] runs [execute_command] on the executor as it
    is (the run the code names [primary]; its sessions go to the current
    address and port) and, when a secondary address is configured, once
    more with the secondary address as the current target.  It returns
    [True] exactly when both runs do (the first run alone without a
    secondary), and it hands back the executor it was given, whatever
    the two runs returned. *)
Lemma execute_command_all_restores_target (rel : release) (net : network)
    (self : SSHExecutor) (command : string) (w : world) :
  let r := execute_command_all rel net self command w in
  let primary := execute_command rel net self command None w in
  let swapped := set_current self (secondary_ip self) (secondary_port self) in
  let secondary := execute_command rel net swapped command None (snd primary) in
  snd (fst r) = self /\
  current_ip (snd (fst r)) = current_ip self /\
  current_port (snd (fst r)) = current_port self /\
  (exists new : list event,
     log (snd primary) = (log w ++ new)%list /\
     connects_only (current_ip self) (current_port self) new) /\
  (exists new : list event,
     log (snd secondary) = (log (snd primary) ++ new)%list /\
     connects_only (secondary_ip self) (secondary_port self) new) /\
  (if Py.truthy_opt (secondary_ip self)
   then (fst (fst r) = true <-> fst primary = true /\ fst secondary = true)
        /\ snd r = snd secondary
   else (fst (fst r) = true <-> fst primary = true)
        /\ snd r = snd primary).
Proof.
  intros r primary swapped secondary.
  assert (Hr : r = if Py.truthy_opt (secondary_ip self)
                   then (fst primary && fst secondary, self, snd secondary)
                   else (fst primary, self, snd primary)).
  { unfold r, execute_command_all, bind. fold primary.
    destruct primary as [p w1] eqn:Hp.
    destruct (Py.truthy_opt (secondary_ip self)).
    - unfold secondary, swapped. cbn [snd fst].
      destruct (execute_command rel net
                  (set_current self (secondary_ip self) (secondary_port self))
                  command None w1) as [s w2].
      unfold ret. cbn [fst snd]. rewrite set_current_restore. reflexivity.
    - unfold ret. cbn [fst snd]. rewrite andb_true_r. reflexivity. }
  assert (Hfirst : exists new : list event,
             log (snd primary) = (log w ++ new)%list /\
             connects_only (current_ip self) (current_port self) new).
  { destruct (execute_command_adds rel net self command None w)
      as (new & Hlog & Hnew).
    exists new. split; [exact Hlog|].
    exact (session_events_connect _ _ _ Hnew). }
  assert (Hsecond : exists new : list event,
             log (snd secondary) = (log (snd primary) ++ new)%list /\
             connects_only (secondary_ip self) (secondary_port self) new).
  { destruct (execute_command_adds rel net swapped command None (snd primary))
      as (new & Hlog & Hnew).
    exists new. split; [exact Hlog|].
    exact (session_events_connect _ _ _ Hnew). }
  rewrite Hr.
  destruct (Py.truthy_opt (secondary_ip self)); cbn [fst snd];
    (split; [reflexivity|]); (split; [reflexivity|]);
    (split; [reflexivity|]); (split; [exact Hfirst|]);
    (split; [exact Hsecond|]); (split; [|reflexivity]).
  - rewrite andb_true_iff. tauto.
  - tauto.
Qed.

(** C8 (evaluation).  Whatever the state, [execute_command_all] returns
    the conjunction of two runs of [execute_command] and hands back the
    executor it was given; the sessions of the first run go to the
    current target and those of the second to the secondary address: the
    primary address of the configuration is not read.  While the
    current target is the primary configuration the first run is the
    one the specification describes.  The executor [drone] has primary
    10.5.6.100:2222 and secondary 192.168.1.10:22; after the failover of
    [test_connection] on [net_primary_returns] its current target is the
    secondary.  On that executor ["sudo reboot"] is sent in two sessions
    to 192.168.1.10:22 and in none to 10.5.6.100:2222, which accepts
    connections, and [True] is returned, in both releases. *)
Theorem execute_command_all_skips_primary_after_failover :
  let first := test_connection net_primary_returns drone world0 in
  let self1 := snd (fst first) in
  let session :=
    [EvConnect (Some "192.168.1.10") "22" "roz" "default_password" 5;
     EvExec "echo default_password | sudo -S reboot";
     EvClose] in
  (* the two runs, whatever the state *)
  (forall (rel : release) (net : network) (self : SSHExecutor)
          (command : string) (w : world),
     let r := execute_command_all rel net self command w in
     let primary := execute_command rel net self command None w in
     let swapped :=
       set_current self (secondary_ip self) (secondary_port self) in
     let secondary :=
       execute_command rel net swapped command None (snd primary) in
     snd (fst r) = self /\
     (exists new : list event,
        log (snd primary) = (log w ++ new)%list /\
        connects_only (current_ip self) (current_port self) new) /\
     (exists new : list event,
        log (snd secondary) = (log (snd primary) ++ new)%list /\
        connects_only (secondary_ip self) (secondary_port self) new) /\
     (if Py.truthy_opt (secondary_ip self)
      then (fst (fst r) = true <-> fst primary = true /\ fst secondary = true)
           /\ snd r = snd secondary
      else (fst (fst r) = true <-> fst primary = true)
           /\ snd r = snd primary)) /\
  (* on the primary configuration the first run goes to the primary *)
  (forall (rel : release) (net : network) (self : SSHExecutor)
          (command : string) (w : world),
     current_ip self = primary_ip self ->
     current_port self = primary_port self ->
     exists new : list event,
       log (snd (execute_command rel net self command None w))
       = (log w ++ new)%list /\
       connects_only (primary_ip self) (primary_port self) new) /\
  (* after the failover the current target is the secondary *)
  primary_ip self1 = Some "10.5.6.100" /\
  primary_port self1 = "2222" /\
  current_ip self1 = Some "192.168.1.10" /\
  current_port self1 = "22" /\
  secondary_ip self1 = Some "192.168.1.10" /\
  secondary_port self1 = "22" /\
  (* the configured primary accepts connections *)
  (forall now user secret tmo,
     ssh_connect net_primary_returns now (Some "10.5.6.100") "2222"
       user secret tmo = ConnOk) /\
  (* both runs go to the secondary and the call returns [True] *)
  (forall rel : release,
     let r := execute_command_all rel net_primary_returns self1
                "sudo reboot" (snd first) in
     fst (fst r) = true /\
     snd (fst r) = self1 /\
     log (snd r) = (log (snd first) ++ session ++ session)%list).
Proof.
  cbv zeta. split.
  { intros rel net self command w.
    pose proof (execute_command_all_restores_target rel net self command w)
      as H.
    cbv zeta in H. tauto. }
  split.
  { intros rel net self command w Hip Hport.
    destruct (execute_command_adds rel net self command None w)
      as (new & Hlog & Hnew).
    exists new. split; [exact Hlog|].
    rewrite <- Hip, <- Hport. exact (session_events_connect _ _ _ Hnew). }
  repeat match goal with |- _ /\ _ => split end;
    try (vm_compute; reflexivity).
  intros rel. destruct rel; repeat split; vm_compute; reflexivity.
Qed.

(** ** Connection test *)

Lemma adds_weaken {A : Type} (P Q : event -> Prop) (m : M A) :
  (forall e, P e -> Q e) -> adds P m -> adds Q m.
Proof.
  intros HPQ Hm w. destruct (Hm w) as (new & Hlog & Hnew).
  exists new. split; [exact Hlog|].
  apply Forall_impl with (P := P); assumption.
Qed.

Lemma is_reachable_adds (net : network) (self : SSHExecutor)
    (ip port : string) (timeout_arg max_attempts_arg : option Z) :
  adds (probe_event ip port)
    (is_reachable net self ip port timeout_arg max_attempts_arg).
Proof.
  unfold is_reachable. generalize 0.
  induction (Z.to_nat (Py.or_default max_attempts_arg (max_attempts self)))
    as [|todo IH]; intros attempt; cbn [is_reachable_loop].
  - apply adds_ret.
  - apply adds_bind.
    + unfold socket_create_connection.
      apply adds_bind; [apply adds_tick|]. intros now.
      apply adds_bind; [|intros _; apply adds_ret].
      apply adds_emit. left. eexists. reflexivity.
    + intros [|]; [apply adds_ret|].
      apply adds_bind; [|intros _; apply IH].
      destruct (attempt <? _); [|apply adds_ret].
      apply adds_emit. right. reflexivity.
Qed.

Lemma probe_if_set_adds (net : network) (self : SSHExecutor)
    (ip : option string) (port : string) :
  adds (fun e => forall a p tmo, e = EvSocket a p tmo ->
                                 Some a = ip /\ p = port)
    (probe_if_set net self ip port).
Proof.
  unfold probe_if_set. destruct ip as [a|]; [|apply adds_ret].
  destruct (Py.truthy a); [|apply adds_ret].
  apply adds_weaken with (P := probe_event a port);
    [|apply is_reachable_adds].
  intros e [[tmo ->] | ->] a' p' tmo' Heq; [|discriminate].
  injection Heq as -> -> _. split; reflexivity.
Qed.

(** [test_connection] probes the current target and the secondary
    address, and nothing else. *)
Lemma test_connection_probes (net : network) (self : SSHExecutor)
    (w : world) :
  exists new : list event,
    log (snd (test_connection net self w)) = (log w ++ new)%list /\
    probes_within [(current_ip self, current_port self);
                   (secondary_ip self, secondary_port self)] new.
Proof.
  assert (Hadds : adds (fun e => forall a p tmo, e = EvSocket a p tmo ->
                          (Some a = current_ip self /\ p = current_port self)
                          \/ (Some a = secondary_ip self
                              /\ p = secondary_port self))
                    (test_connection net self)).
  { unfold test_connection. apply adds_bind.
    - eapply adds_weaken; [|apply probe_if_set_adds].
      cbv beta. intros e He a p tmo Heq. left. exact (He a p tmo Heq).
    - intros [|]; [apply adds_ret|]. apply adds_bind.
      + eapply adds_weaken; [|apply probe_if_set_adds].
        cbv beta. intros e He a p tmo Heq. right. exact (He a p tmo Heq).
      + intros [|]; apply adds_ret. }
  destruct (Hadds w) as (new & Hlog & Hnew).
  exists new. split; [exact Hlog|].
  intros ip port tmo Hin. rewrite Forall_forall in Hnew.
  destruct (Hnew _ Hin ip port tmo eq_refl) as [[Ha Hp]|[Ha Hp]];
    rewrite Ha, Hp; cbn [In]; auto.
Qed.

Section Failover.

Variable net : network.
Variable self : SSHExecutor.
Hypothesis attempts_pos : 0 < max_attempts self.

Lemma is_reachable_default (ip port : string) (w : world) :
  let r := is_reachable net self ip port None None w in
  let up := fun k => tcp_connect net (clock w + k) ip port (timeout self) in
  exists m : nat,
    (1 <= m <= Z.to_nat (max_attempts self))%nat /\
    clock (snd r) = (clock w + m)%nat /\
    (forall k, (k < m - 1)%nat -> up k = false) /\
    (if fst r then up (m - 1)%nat = true
     else m = Z.to_nat (max_attempts self) /\ up (m - 1)%nat = false).
Proof.
  intros r up.
  destruct (is_reachable_loop_spec net ip port (timeout self)
              (max_attempts self) attempts_pos
              (Z.to_nat (max_attempts self)) w)
    as (m & Hm & _ & Hclk & Hbefore & Hlast); [lia | lia |].
  rewrite Z2Nat.id in Hclk, Hlast by lia.
  replace (max_attempts self - max_attempts self) with 0
    in Hclk, Hlast by lia.
  exists m. repeat split; try lia; assumption.
Qed.

Lemma is_reachable_down (ip port : string) (w : world) :
  (forall k, (k < Z.to_nat (max_attempts self))%nat ->
     tcp_connect net (clock w + k) ip port (timeout self) = false) ->
  let r := is_reachable net self ip port None None w in
  fst r = false /\
  clock (snd r) = (clock w + Z.to_nat (max_attempts self))%nat.
Proof.
  intros Hdown r.
  destruct (is_reachable_default ip port w) as (m & Hm & Hclk & _ & Hlast).
  fold r in Hclk, Hlast. destruct (fst r).
  - rewrite Hdown in Hlast by lia. discriminate.
  - destruct Hlast as [-> _]. split; [reflexivity | exact Hclk].
Qed.

Lemma is_reachable_up (ip port : string) (w : world) :
  (exists k, (k < Z.to_nat (max_attempts self))%nat /\
     tcp_connect net (clock w + k) ip port (timeout self) = true) ->
  fst (is_reachable net self ip port None None w) = true.
Proof.
  intros (k & Hk & Hup).
  destruct (is_reachable_default ip port w)
    as (m & Hm & _ & Hbefore & Hlast).
  destruct (fst (is_reachable net self ip port None None w));
    [reflexivity|].
  destruct Hlast as [Hmn Hfinal].
  destruct (Nat.eq_dec k (m - 1)) as [->|Hne]; [congruence|].
  rewrite Hbefore in Hup by lia. discriminate.
Qed.

(** The first half of the failover rule: from a primary that does not
    answer to a secondary that does. *)
Lemma test_connection_fails_over (primary secondary : string) (w : world) :
  current_ip self = Some primary -> Py.truthy primary = true ->
  secondary_ip self = Some secondary -> Py.truthy secondary = true ->
  (forall k, (k < Z.to_nat (max_attempts self))%nat ->
     tcp_connect net (clock w + k) primary (current_port self)
       (timeout self) = false) ->
  (exists k, (k < Z.to_nat (max_attempts self))%nat /\
     tcp_connect net (clock w + Z.to_nat (max_attempts self) + k)
       secondary (secondary_port self) (timeout self) = true) ->
  let r := test_connection net self w in
  fst (fst r) = Some secondary /\
  current_ip (snd (fst r)) = Some secondary /\
  current_port (snd (fst r)) = secondary_port self.
Proof.
  intros Hp Hpt Hs Hst Hdown Hup r.
  unfold r, test_connection, bind, probe_if_set.
  rewrite Hp, Hpt, Hs, Hst.
  destruct (is_reachable_down primary (current_port self) w Hdown)
    as [Hfalse Hclk].
  destruct (is_reachable net self primary (current_port self) None None w)
    as [b w1]. cbn [fst snd] in Hfalse, Hclk. subst b.
  assert (Htrue : fst (is_reachable net self secondary (secondary_port self)
                         None None w1) = true).
  { apply is_reachable_up. rewrite Hclk. exact Hup. }
  destruct (is_reachable net self secondary (secondary_port self)
              None None w1) as [b w2].
  cbn [fst] in Htrue. subst b.
  unfold ret. cbn. auto.
Qed.

(** Once the current target is the secondary, [test_connection] answers
    with the secondary address or with [None], whatever the network. *)
Lemma test_connection_after_failover (w : world) :
  current_ip self = secondary_ip self ->
  let r := test_connection net self w in
  fst (fst r) = secondary_ip self \/ fst (fst r) = None.
Proof.
  intros Hcur r. unfold r, test_connection, bind.
  destruct (probe_if_set net self (current_ip self) (current_port self) w)
    as [[|] w1].
  - left. unfold ret. cbn. exact Hcur.
  - destruct (probe_if_set net self (secondary_ip self)
                (secondary_port self) w1) as [[|] w2];
      unfold ret; cbn; auto.
Qed.

End Failover.

(** C1 (evaluation).  Whatever the state, [test_connection] opens sockets
    to the current target and to the secondary address only; the primary
    address of the configuration is not read.  The executor [drone] has
    primary 10.5.6.100:2222 and secondary 192.168.1.10:22.  On [net_primary_returns] the first call of
    [test_connection] finds the primary down three times, finds the
    secondary up, returns the secondary address and makes it the current
    target.  During the second call the configured primary answers again,
    yet the call probes only the secondary and returns the secondary
    address: the primary is not evaluated again.  And when the secondary
    then goes down while the primary is up ([net_primary_only]), the call
    probes the secondary twice three times, never the primary, and
    returns [None]. *)
Theorem test_connection_does_not_return_to_primary :
  let primary_probe := EvSocket "10.5.6.100" "2222" 5 in
  let secondary_probe := EvSocket "192.168.1.10" "22" 5 in
  let first := test_connection net_primary_returns drone world0 in
  let self1 := snd (fst first) in
  let second := test_connection net_primary_returns self1 (snd first) in
  let third := test_connection net_primary_only self1 (snd first) in
  (* every call probes the current target and the secondary address only *)
  (forall (net : network) (self : SSHExecutor) (w : world),
   exists new : list event,
     log (snd (test_connection net self w)) = (log w ++ new)%list /\
     probes_within [(current_ip self, current_port self);
                    (secondary_ip self, secondary_port self)] new) /\
  (* the first call fails over *)
  fst (fst first) = Some "192.168.1.10" /\
  current_ip self1 = Some "192.168.1.10" /\
  current_port self1 = "22" /\
  log (snd first)
  = [primary_probe; EvSleep 5; primary_probe; EvSleep 5; primary_probe;
     secondary_probe] /\
  (* the configured primary is unchanged and reachable from then on *)
  primary_ip self1 = Some "10.5.6.100" /\
  primary_port self1 = "2222" /\
  (forall k,
     tcp_connect net_primary_returns (clock (snd first) + k)
       "10.5.6.100" "2222" 5 = true) /\
  (* the second call stays on the secondary *)
  fst (fst second) = Some "192.168.1.10" /\
  fst (fst second) <> primary_ip self1 /\
  log (snd second) = (log (snd first) ++ [secondary_probe])%list /\
  (* the secondary down, the primary up: no target *)
  (forall now, tcp_connect net_primary_only now "10.5.6.100" "2222" 5 = true) /\
  fst (fst third) = None /\
  log (snd third)
  = (log (snd first)
     ++ spaced [secondary_probe] (EvSleep 5) 3
     ++ spaced [secondary_probe] (EvSleep 5) 3)%list.
Proof.
  cbv zeta. split; [intros; apply test_connection_probes|].
  repeat match goal with |- _ /\ _ => split end;
    intros; vm_compute; try reflexivity.
  discriminate.
Qed.

(** ** Numbers of the temperature pipelines *)

Section Rounding.

Import Num.
Local Open Scope Q_scope.

Lemma round_half_even_nearest (q : Q) :
  Qabs (q - inject_Z (round_half_even q)) <= 1 # 2.
Proof.
  apply Qabs_Qle_condition.
  destruct q as [n d]. unfold round_half_even. cbn [Qnum Qden].
  pose proof (Z.div_mod n (Zpos d) ltac:(discriminate)) as Hdiv.
  pose proof (Z.mod_pos_bound n (Zpos d) ltac:(reflexivity)) as Hmod.
  remember (n / Zpos d)%Z as f. remember (n mod Zpos d)%Z as r.
  unfold Qle, Qminus, Qplus, Qopp, inject_Z. cbn [Qnum Qden].
  rewrite !Pos.mul_1_r.
  destruct (2 * r ?= Zpos d)%Z eqn:Hcmp;
    [apply Z.compare_eq in Hcmp | rewrite Z.compare_lt_iff in Hcmp
     | rewrite Z.compare_gt_iff in Hcmp];
    try destruct (Z.even f); split; nia.
Qed.

Lemma round_half_even_exact (q : Q) (z : Z) :
  q == inject_Z z -> round_half_even q = z.
Proof.
  destruct q as [n d]. unfold Qeq, inject_Z, round_half_even.
  cbn [Qnum Qden]. intros H. rewrite Z.mul_1_r in H. subst n.
  rewrite Z.div_mul by discriminate. rewrite Z.mod_mul by discriminate.
  reflexivity.
Qed.

(** Halfway between two integers the even one is taken. *)
Lemma round_half_even_tie (q : Q) :
  q - inject_Z (round_half_even q) == 1 # 2 \/
  q - inject_Z (round_half_even q) == - (1 # 2) ->
  Z.even (round_half_even q) = true.
Proof.
  destruct q as [n d]. unfold round_half_even. cbn [Qnum Qden].
  pose proof (Z.div_mod n (Zpos d) ltac:(discriminate)) as Hdiv.
  pose proof (Z.mod_pos_bound n (Zpos d) ltac:(reflexivity)) as Hmod.
  remember (n / Zpos d)%Z as f. remember (n mod Zpos d)%Z as r.
  unfold Qeq, Qminus, Qplus, Qopp, inject_Z. cbn [Qnum Qden].
  rewrite !Pos.mul_1_r.
  destruct (2 * r ?= Zpos d)%Z eqn:Hcmp;
    [apply Z.compare_eq in Hcmp | rewrite Z.compare_lt_iff in Hcmp
     | rewrite Z.compare_gt_iff in Hcmp].
  - destruct (Z.even f) eqn:He; [intros _; exact He|].
    intros _. rewrite Z.even_add, He. reflexivity.
  - intros [H|H]; nia.
  - intros [H|H]; nia.
Qed.

Lemma inject_Z_le_inv (a b : Z) : inject_Z a <= inject_Z b -> (a <= b)%Z.
Proof. rewrite <- Zle_Qle. tauto. Qed.

Lemma round_half_even_mono (a b : Q) :
  a <= b -> (round_half_even a <= round_half_even b)%Z.
Proof.
  intros Hab.
  pose proof (round_half_even_nearest a) as Ha.
  pose proof (round_half_even_nearest b) as Hb.
  pose proof (round_half_even_tie a) as Ta.
  pose proof (round_half_even_tie b) as Tb.
  apply Qabs_Qle_condition in Ha. apply Qabs_Qle_condition in Hb.
  set (za := round_half_even a) in *. set (zb := round_half_even b) in *.
  clearbody za zb.
  destruct (Z_le_gt_dec za zb) as [Hle|Hgt]; [exact Hle|exfalso].
  assert (H1 : inject_Z zb + 1 <= inject_Z za).
  { change 1 with (inject_Z 1). rewrite <- inject_Z_plus.
    rewrite <- Zle_Qle. lia. }
  assert (Hza : za = (zb + 1)%Z).
  { assert (H2 : inject_Z za <= inject_Z (zb + 1)).
    { rewrite inject_Z_plus. change (inject_Z 1) with 1. lra. }
    apply inject_Z_le_inv in H2. lia. }
  assert (Ea : Z.even za = true) by (apply Ta; right; lra).
  assert (Eb : Z.even zb = true) by (apply Tb; left; lra).
  rewrite Hza, Z.even_add, Eb in Ea. discriminate.
Qed.

Lemma round_half_even_unique (q : Q) (z : Z) :
  Qabs (q - inject_Z z) <= 1 # 2 ->
  (q - inject_Z z == 1 # 2 \/ q - inject_Z z == - (1 # 2) ->
   Z.even z = true) ->
  round_half_even q = z.
Proof.
  intros Hz Tz.
  pose proof (round_half_even_nearest q) as Hr.
  pose proof (round_half_even_tie q) as Tr.
  apply Qabs_Qle_condition in Hz. apply Qabs_Qle_condition in Hr.
  set (r := round_half_even q) in *. clearbody r.
  assert (H1 : inject_Z r <= inject_Z (z + 1)).
  { rewrite inject_Z_plus. change (inject_Z 1) with 1. lra. }
  assert (H2 : inject_Z z <= inject_Z (r + 1)).
  { rewrite inject_Z_plus. change (inject_Z 1) with 1. lra. }
  apply inject_Z_le_inv in H1, H2.
  destruct (Z.eq_dec r z) as [E|NE]; [exact E|exfalso].
  assert (Hc : r = (z + 1)%Z \/ z = (r + 1)%Z) by lia.
  destruct Hc as [Hc|Hc].
  - assert (Hi : inject_Z r == inject_Z z + 1).
    { rewrite Hc, inject_Z_plus. reflexivity. }
    assert (Er : Z.even r = true) by (apply Tr; right; lra).
    assert (Ez : Z.even z = true) by (apply Tz; left; lra).
    rewrite Hc, Z.even_add, Ez in Er. discriminate.
  - assert (Hi : inject_Z z == inject_Z r + 1).
    { rewrite Hc, inject_Z_plus. reflexivity. }
    assert (Er : Z.even r = true) by (apply Tr; left; lra).
    assert (Ez : Z.even z = true) by (apply Tz; right; lra).
    rewrite Hc, Z.even_add, Er in Ez. discriminate.
Qed.

Lemma round_half_even_compat (a b : Q) :
  a == b -> round_half_even a = round_half_even b.
Proof.
  intros Hab. apply round_half_even_unique.
  - rewrite Hab. apply round_half_even_nearest.
  - rewrite Hab. apply round_half_even_tie.
Qed.

Lemma round_half_even_opp (q : Q) :
  round_half_even (- q) = (- round_half_even q)%Z.
Proof.
  pose proof (round_half_even_nearest q) as Hr.
  pose proof (round_half_even_tie q) as Tr.
  apply Qabs_Qle_condition in Hr.
  apply round_half_even_unique.
  - apply Qabs_Qle_condition. rewrite inject_Z_opp. lra.
  - rewrite inject_Z_opp, Z.even_opp. intros [H|H]; apply Tr; [right|left]; lra.
Qed.


Lemma pow2_pos (e : Z) : 0 < 2 ^ e.
Proof. apply Qpower_0_lt. reflexivity. Qed.

Lemma pow2_le (a b : Z) : (a <= b)%Z -> 2 ^ a <= 2 ^ b.
Proof. intros H. apply Qpower_le_compat_l; [exact H|discriminate]. Qed.

Lemma pow2_add (a b : Z) : 2 ^ (a + b) == 2 ^ a * 2 ^ b.
Proof. apply Qpower_plus. discriminate. Qed.

Lemma pow2_inject (n : Z) : (0 <= n)%Z -> inject_Z (2 ^ n) == 2 ^ n.
Proof. intros H. rewrite Zpower_Qpower by exact H. reflexivity. Qed.

(** [2 ^ ilog2 p q <= p / q < 2 ^ (ilog2 p q + 1)] *)
Lemma ilog2_spec (p q : positive) :
  2 ^ ilog2 p q <= Zpos p # q /\ Zpos p # q < 2 ^ (ilog2 p q + 1).
Proof.
  unfold ilog2.
  pose proof (Z.log2_spec (Zpos p) ltac:(reflexivity)) as [Hp1 Hp2].
  pose proof (Z.log2_spec (Zpos q) ltac:(reflexivity)) as [Hq1 Hq2].
  pose proof (Z.log2_nonneg (Zpos p)) as Ha.
  pose proof (Z.log2_nonneg (Zpos q)) as Hb.
  set (a := Z.log2 (Zpos p)) in *. set (b := Z.log2 (Zpos q)) in *.
  clearbody a b.
  rewrite Zle_Qle in Hp1, Hq1. rewrite Zlt_Qlt in Hp2, Hq2.
  rewrite pow2_inject in Hp1, Hq1 by lia.
  rewrite pow2_inject in Hp2, Hq2 by lia.
  assert (Hdiv : Zpos p # q == inject_Z (Zpos p) / inject_Z (Zpos q))
    by apply Qmake_Qdiv.
  assert (Hqpos : 0 < inject_Z (Zpos q)) by reflexivity.
  set (P := inject_Z (Zpos p)) in *. set (D := inject_Z (Zpos q)) in *.
  clearbody P D.
  assert (Hup : forall c, (a + 1 <= c + b)%Z -> Zpos p # q < 2 ^ c).
  { intros c Hc. rewrite Hdiv. apply Qlt_shift_div_r; [exact Hqpos|].
    apply Qlt_le_trans with (2 ^ Z.succ a); [exact Hp2|].
    apply Qle_trans with (2 ^ c * 2 ^ b).
    - rewrite <- pow2_add. apply pow2_le. lia.
    - apply Qmult_le_l; [apply pow2_pos|exact Hq1]. }
  assert (Hlow : forall c, (c + b + 1 <= a)%Z -> 2 ^ c <= Zpos p # q).
  { intros c Hc. rewrite Hdiv. apply Qle_shift_div_l; [exact Hqpos|].
    apply Qle_trans with (2 ^ a); [|exact Hp1].
    apply Qle_trans with (2 ^ c * 2 ^ Z.succ b).
    - apply Qmult_le_l; [apply pow2_pos|]. apply Qlt_le_weak. exact Hq2.
    - rewrite <- pow2_add. apply pow2_le. lia. }
  destruct (Qle_bool (2 ^ (a - b)) (Zpos p # q)) eqn:Hc.
  - apply Qle_bool_iff in Hc. split; [exact Hc|]. apply Hup. lia.
  - split; [apply Hlow; lia|].
    replace (a - b - 1 + 1)%Z with (a - b)%Z by lia.
    apply Qnot_le_lt. intros H. apply Qle_bool_iff in H. congruence.
Qed.

(** The binade of a positive number: the unit in the last place is 52
    binary places below it, the subnormal numbers share that of
    [2 ^ -1022]. *)
Lemma ulp_exponent_spec (x : Q) :
  0 < x ->
  let e := (ulp_exponent x + 52)%Z in
  (-1022 <= e)%Z /\ x < 2 ^ (e + 1) /\ ((-1022 < e)%Z -> 2 ^ e <= x).
Proof.
  intros Hx e. subst e. destruct x as [n d]. unfold ulp_exponent.
  cbn [Qnum Qden].
  destruct n as [|p|p]; [inversion Hx| |inversion Hx].
  destruct (ilog2_spec p d) as [Hlo Hhi].
  set (l := ilog2 p d) in *. clearbody l.
  replace (Z.max l (-1022) - 52 + 52)%Z with (Z.max l (-1022)) by lia.
  split; [lia|]. split.
  - apply Qlt_le_trans with (2 ^ (l + 1)); [exact Hhi|]. apply pow2_le. lia.
  - intros Hn. replace (Z.max l (-1022)) with l by lia. exact Hlo.
Qed.

Lemma ulp_exponent_opp (x : Q) : ulp_exponent (- x) = ulp_exponent x.
Proof. destruct x as [[|p|p] d]; reflexivity. Qed.

Lemma nearest_opp (x : Q) : nearest (- x) == - nearest x.
Proof.
  unfold nearest. rewrite ulp_exponent_opp.
  set (u := 2 ^ ulp_exponent x).
  rewrite (round_half_even_compat (- x / u) (- (x / u))).
  - rewrite round_half_even_opp, inject_Z_opp. ring.
  - unfold Qdiv. ring.
Qed.

Lemma nearest_0 (x : Q) : x == 0 -> nearest x == 0.
Proof.
  intros Hx. unfold nearest.
  rewrite (round_half_even_exact (x / 2 ^ ulp_exponent x) 0).
  - ring.
  - generalize (2 ^ ulp_exponent x). intros u. unfold Qdiv.
    rewrite Hx. ring.
Qed.

(** Around a positive number of binade [e] the rounded value stays
    within the binade's closure. *)
Lemma nearest_bounds (x : Q) :
  0 < x ->
  let e := (ulp_exponent x + 52)%Z in
  0 <= nearest x /\ nearest x <= 2 ^ (e + 1) /\
  ((-1022 < e)%Z -> 2 ^ e <= nearest x).
Proof.
  intros Hx e. destruct (ulp_exponent_spec x Hx) as (He & Hhi & Hlo).
  fold e in He, Hhi, Hlo. unfold nearest.
  replace (ulp_exponent x) with (e - 52)%Z by (subst e; lia).
  pose proof (pow2_pos (e - 52)) as Hu.
  set (u := 2 ^ (e - 52)) in *.
  assert (H53 : 2 ^ (e + 1) == inject_Z (2 ^ 53) * u).
  { unfold u. rewrite pow2_inject by lia. rewrite <- pow2_add.
    replace (53 + (e - 52))%Z with (e + 1)%Z by lia. reflexivity. }
  assert (H52 : 2 ^ e == inject_Z (2 ^ 52) * u).
  { unfold u. rewrite pow2_inject by lia. rewrite <- pow2_add.
    replace (52 + (e - 52))%Z with e by lia. reflexivity. }
  split; [|split].
  - apply Qmult_le_0_compat; [|apply Qlt_le_weak; exact Hu].
    change 0 with (inject_Z 0). rewrite <- Zle_Qle.
    rewrite <- (round_half_even_exact 0 0) by reflexivity.
    apply round_half_even_mono. apply Qle_shift_div_l; [exact Hu|].
    rewrite Qmult_0_l. apply Qlt_le_weak. exact Hx.
  - rewrite H53. apply Qmult_le_compat_r; [|apply Qlt_le_weak; exact Hu].
    rewrite <- Zle_Qle.
    rewrite <- (round_half_even_exact (inject_Z (2 ^ 53)) (2 ^ 53))
      by reflexivity.
    apply round_half_even_mono. apply Qle_shift_div_r; [exact Hu|].
    rewrite <- H53. apply Qlt_le_weak. exact Hhi.
  - intros Hn. rewrite H52.
    apply Qmult_le_compat_r; [|apply Qlt_le_weak; exact Hu].
    rewrite <- Zle_Qle.
    rewrite <- (round_half_even_exact (inject_Z (2 ^ 52)) (2 ^ 52))
      by reflexivity.
    apply round_half_even_mono. apply Qle_shift_div_l; [exact Hu|].
    rewrite <- H52. exact (Hlo Hn).
Qed.

Lemma nearest_mono_pos (x y : Q) :
  0 < x -> x <= y -> nearest x <= nearest y.
Proof.
  intros Hx Hxy.
  assert (Hy : 0 < y) by lra.
  destruct (ulp_exponent_spec x Hx) as (Hex & Hxhi & Hxlo).
  destruct (ulp_exponent_spec y Hy) as (Hey & Hyhi & Hylo).
  destruct (nearest_bounds x Hx) as (_ & Hnx & _).
  destruct (nearest_bounds y Hy) as (_ & _ & Hny).
  destruct (Z.lt_trichotomy (ulp_exponent x) (ulp_exponent y))
    as [Hlt|[Heq|Hgt]].
  - apply Qle_trans with (2 ^ (ulp_exponent x + 52 + 1)); [exact Hnx|].
    apply Qle_trans with (2 ^ (ulp_exponent y + 52)); [apply pow2_le; lia|].
    apply Hny. lia.
  - unfold nearest. rewrite Heq.
    apply Qmult_le_compat_r; [|apply Qlt_le_weak; apply pow2_pos].
    rewrite <- Zle_Qle. apply round_half_even_mono.
    unfold Qdiv. apply Qmult_le_compat_r; [exact Hxy|].
    apply Qlt_le_weak. apply Qinv_lt_0_compat. apply pow2_pos.
  - exfalso.
    assert (H1 : 2 ^ (ulp_exponent x + 52) <= x) by (apply Hxlo; lia).
    assert (H2 : 2 ^ (ulp_exponent y + 52 + 1) <= 2 ^ (ulp_exponent x + 52))
      by (apply pow2_le; lia).
    lra.
Qed.

(** Rounding to the nearest binary64 number keeps the order. *)
Lemma nearest_mono (x y : Q) : x <= y -> nearest x <= nearest y.
Proof.
  intros Hxy.
  assert (Hsign : forall z, 0 <= z -> 0 <= nearest z).
  { intros z Hz. destruct (Qlt_le_dec 0 z) as [Hp|Hn].
    - apply (nearest_bounds z Hp).
    - rewrite (nearest_0 z) by lra. apply Qle_refl. }
  assert (Hneg : forall z, z <= 0 -> nearest z <= 0).
  { intros z Hz. assert (H := Hsign (- z) ltac:(lra)).
    rewrite nearest_opp in H. lra. }
  destruct (Qlt_le_dec 0 x) as [Hx|Hx].
  - apply nearest_mono_pos; assumption.
  - destruct (Qlt_le_dec y 0) as [Hy|Hy].
    + assert (H := nearest_mono_pos (- y) (- x) ltac:(lra) ltac:(lra)).
      rewrite !nearest_opp in H. lra.
    + apply Qle_trans with 0; [apply Hneg|apply Hsign]; assumption.
Qed.

Lemma infinity_pos : 0 < infinity.
Proof. apply pow2_pos. Qed.

Lemma saturate_mono (a b : Q) : a <= b -> saturate a <= saturate b.
Proof.
  intros Hab. pose proof infinity_pos as Hi. unfold saturate.
  set (i := infinity) in *. clearbody i.
  destruct (Qle_bool i a) eqn:H1; destruct (Qle_bool i b) eqn:H2;
    destruct (Qle_bool a (- i)) eqn:H3; destruct (Qle_bool b (- i)) eqn:H4;
    try apply Qle_bool_iff in H1; try apply Qle_bool_iff in H2;
    try apply Qle_bool_iff in H3; try apply Qle_bool_iff in H4;
    try (assert (~ i <= a) by (rewrite <- Qle_bool_iff; congruence));
    try (assert (~ i <= b) by (rewrite <- Qle_bool_iff; congruence));
    try (assert (~ a <= - i) by (rewrite <- Qle_bool_iff; congruence));
    try (assert (~ b <= - i) by (rewrite <- Qle_bool_iff; congruence));
    lra.
Qed.

(** [float], arithmetic and formatting all round to the nearest
    binary64 number, which keeps the order. *)
Lemma to_float_mono (x y : Q) : x <= y -> to_float x <= to_float y.
Proof.
  intros Hxy. unfold to_float. apply saturate_mono.
  rewrite !Qred_correct. apply nearest_mono. exact Hxy.
Qed.


(** [round_1f v] is the float of the multiple of one tenth nearest to
    [v]. *)
Lemma round_1f_nearest (v : Q) :
  round_1f v = to_float (round_half_even (v * 10) # 10) /\
  Qabs ((round_half_even (v * 10) # 10) - v) <= 1 # 20.
Proof.
  split; [reflexivity|].
  pose proof (round_half_even_nearest (v * 10)) as Hn.
  apply Qabs_Qle_condition in Hn. apply Qabs_Qle_condition.
  set (z := round_half_even (v * 10)) in *. clearbody z.
  assert (Hz : z # 10 == inject_Z z * (1 # 10)).
  { unfold Qeq, Qmult, inject_Z. cbn. lia. }
  rewrite Hz. destruct Hn as [Hlo Hhi].
  split; lra.
Qed.

Lemma py_max_in (x : Q) (xs : list Q) : In (py_max x xs) (x :: xs).
Proof.
  revert x. induction xs as [|y ys IH]; intros x; cbn [py_max].
  - left. reflexivity.
  - destruct (IH (if Qle_bool y x then x else y)) as [H|H].
    + rewrite <- H. destruct (Qle_bool y x); [left | right; left];
        reflexivity.
    + right. right. exact H.
Qed.

Lemma py_max_lower (x : Q) (xs : list Q) : x <= py_max x xs.
Proof.
  revert x. induction xs as [|y ys IH]; intros x; cbn [py_max].
  - apply Qle_refl.
  - destruct (Qle_bool y x) eqn:Hyx; [apply IH|].
    apply Qle_trans with y; [|apply IH].
    apply Qlt_le_weak. apply Qnot_le_lt. intros Hle.
    apply Qle_bool_iff in Hle. congruence.
Qed.

Lemma py_max_upper (x : Q) (xs : list Q) (t : Q) :
  In t (x :: xs) -> t <= py_max x xs.
Proof.
  revert x. induction xs as [|y ys IH]; intros x Hin; cbn [py_max].
  - destruct Hin as [<-|[]]. apply Qle_refl.
  - destruct Hin as [<-|[<-|Hin]].
    + apply Qle_trans with (if Qle_bool y x then x else y);
        [|apply py_max_lower].
      destruct (Qle_bool y x) eqn:Hyx; [apply Qle_refl|].
      apply Qlt_le_weak. apply Qnot_le_lt. intros Hle.
      apply Qle_bool_iff in Hle. congruence.
    + apply Qle_trans with (if Qle_bool y x then x else y);
        [|apply py_max_lower].
      destruct (Qle_bool y x) eqn:Hyx; [|apply Qle_refl].
      apply Qle_bool_iff. exact Hyx.
    + apply IH. right. exact Hin.
Qed.

Lemma plausible_iff (t : Q) :
  plausible t = true <-> -40 <= t /\ t <= 130.
Proof.
  unfold plausible, clamp_min, clamp_max.
  rewrite andb_true_iff, !Qle_bool_iff. reflexivity.
Qed.

Lemma same_float_eq (a b : Q) : same_float a b = true -> a = b.
Proof.
  destruct a as [n d], b as [n' d']. unfold same_float. cbn [Qnum Qden].
  intros H. apply andb_prop in H. destruct H as [Hn Hd].
  apply Z.eqb_eq in Hn. apply Pos.eqb_eq in Hd. subst. reflexivity.
Qed.

Lemma tenths_spec (z : Z) : (-400 <= z <= 1300)%Z -> In z tenths.
Proof.
  intros Hz. unfold tenths. apply in_map_iff.
  exists (Z.to_nat (z + 400)). split; [lia|]. apply in_seq. lia.
Qed.

(** The float of a whole number of tenths of the plausible range is
    plausible, and formatting it with one decimal gives it back. *)
Lemma tenths_fixed (z : Z) :
  (-400 <= z <= 1300)%Z ->
  plausible (to_float (z # 10)) = true /\
  round_1f (to_float (z # 10)) = to_float (z # 10).
Proof.
  intros Hz.
  assert (Hall : forallb tenth_is_fixed tenths = true)
    by (vm_compute; reflexivity).
  rewrite forallb_forall in Hall.
  specialize (Hall z (tenths_spec z Hz)). unfold tenth_is_fixed in Hall.
  apply andb_prop in Hall. destruct Hall as [Hp Hs].
  split; [exact Hp | exact (same_float_eq _ _ Hs)].
Qed.

(** Halfway between two tenths the even one is taken. *)
Lemma tenth_tie (v : Q) :
  (round_half_even (v * 10) # 10) - v == 1 # 20 \/
  (round_half_even (v * 10) # 10) - v == - (1 # 20) ->
  Z.even (round_half_even (v * 10)) = true.
Proof.
  intros H. apply round_half_even_tie.
  set (z := round_half_even (v * 10)) in *. clearbody z.
  assert (Hz : z # 10 == inject_Z z * (1 # 10)).
  { unfold Qeq, Qmult, inject_Z. cbn. lia. }
  rewrite Hz in H. destruct H as [H|H]; [right|left]; lra.
Qed.

(** Only those tenths have a plausible float. *)
Lemma tenths_plausible (z : Z) :
  plausible (to_float (z # 10)) = true -> (-400 <= z <= 1300)%Z.
Proof.
  intros Hp. apply plausible_iff in Hp. destruct Hp as [Hlo Hhi].
  destruct (Z_lt_le_dec z (-400)) as [Hl|Hl].
  - exfalso.
    assert (H : to_float (z # 10) <= to_float (-401 # 10)).
    { apply to_float_mono. unfold Qle. cbn [Qnum Qden]. lia. }
    assert (Hc : to_float (-401 # 10) < -40) by (vm_compute; reflexivity).
    lra.
  - destruct (Z_lt_le_dec 1300 z) as [Hu|Hu]; [|lia].
    exfalso.
    assert (H : to_float (1301 # 10) <= to_float (z # 10)).
    { apply to_float_mono. unfold Qle. cbn [Qnum Qden]. lia. }
    assert (Hc : 130 < to_float (1301 # 10)) by (vm_compute; reflexivity).
    lra.
Qed.

(** A plausible value is formatted as one of those tenths. *)
Lemma round_half_even_plausible (v : Q) :
  plausible v = true -> (-400 <= round_half_even (v * 10) <= 1300)%Z.
Proof.
  intros Hv. apply plausible_iff in Hv. destruct Hv as [Hlo Hhi].
  split.
  - rewrite <- (round_half_even_exact (inject_Z (-400)) (-400))
      by reflexivity.
    apply round_half_even_mono. change (inject_Z (-400)) with (-400). lra.
  - rewrite <- (round_half_even_exact (inject_Z 1300) 1300) by reflexivity.
    apply round_half_even_mono. change (inject_Z 1300) with 1300. lra.
Qed.

Lemma ulp_exponent_binade (x : Q) (e : Z) :
  (-1022 <= e)%Z -> 2 ^ e <= x -> x < 2 ^ (e + 1) ->
  ulp_exponent x = (e - 52)%Z.
Proof.
  intros He Hlo Hhi.
  assert (Hx : 0 < x) by (pose proof (pow2_pos e); lra).
  destruct (ulp_exponent_spec x Hx) as (Hmin & Hup & Hdown).
  set (e' := (ulp_exponent x + 52)%Z) in *.
  destruct (Z.lt_trichotomy e' e) as [Hlt|[Heq|Hgt]]; [exfalso|lia|exfalso].
  - assert (H : 2 ^ (e' + 1) <= 2 ^ e) by (apply pow2_le; lia). lra.
  - assert (H : 2 ^ (e + 1) <= 2 ^ e') by (apply pow2_le; lia).
    assert (H' : 2 ^ e' <= x) by (apply Hdown; lia). lra.
Qed.

Lemma ulp_exponent_compat (x y : Q) :
  x == y -> ulp_exponent x = ulp_exponent y.
Proof.
  assert (Hpos : forall a b, 0 < a -> a == b ->
                             ulp_exponent a = ulp_exponent b).
  { intros a b Ha Hab.
    assert (Hb : 0 < b) by (rewrite <- Hab; exact Ha).
    destruct (ulp_exponent_spec a Ha) as (Hmin & Hup & Hdown).
    destruct (ulp_exponent_spec b Hb) as (Hmin' & Hup' & Hdown').
    destruct (Z.lt_trichotomy (ulp_exponent a) (ulp_exponent b))
      as [Hlt|[Heq|Hgt]]; [exfalso|exact Heq|exfalso].
    - assert (H : 2 ^ (ulp_exponent a + 52 + 1) <= 2 ^ (ulp_exponent b + 52))
        by (apply pow2_le; lia).
      assert (H' : 2 ^ (ulp_exponent b + 52) <= b) by (apply Hdown'; lia).
      lra.
    - assert (H : 2 ^ (ulp_exponent b + 52 + 1) <= 2 ^ (ulp_exponent a + 52))
        by (apply pow2_le; lia).
      assert (H' : 2 ^ (ulp_exponent a + 52) <= a) by (apply Hdown; lia).
      lra. }
  intros Hxy.
  destruct (Qlt_le_dec 0 x) as [Hx|Hx]; [exact (Hpos x y Hx Hxy)|].
  destruct (Qlt_le_dec x 0) as [Hx'|Hx'].
  - rewrite <- (ulp_exponent_opp x), <- (ulp_exponent_opp y).
    apply Hpos; [lra | rewrite Hxy; reflexivity].
  - assert (H0 : x == 0) by lra.
    assert (H0' : y == 0) by (rewrite <- Hxy; exact H0).
    destruct x as [n d], y as [n' d']. unfold Qeq in H0, H0'.
    cbn [Qnum Qden] in H0, H0'. rewrite Z.mul_1_r in H0, H0'.
    subst n n'. reflexivity.
Qed.

(** The float of a number does not depend on the fraction that
    denotes it. *)
Lemma to_float_compat (x y : Q) : x == y -> to_float x = to_float y.
Proof.
  intros Hxy. unfold to_float. f_equal. apply Qred_complete.
  unfold nearest. rewrite (ulp_exponent_compat x y Hxy).
  generalize (2 ^ ulp_exponent y). intros u.
  rewrite (round_half_even_compat (x / u) (y / u)); [reflexivity|].
  unfold Qdiv. rewrite Hxy. reflexivity.
Qed.

(** No float lies between 130000 and the next multiple of [2 ^ -36]. *)
Lemma float_above_130000 (v : Q) :
  is_float v -> 130000 < v -> 130000 + (1 # 68719476736) <= v.
Proof.
  intros [x ->] Hv.
  destruct (Qlt_le_dec 130000 x) as [Hx|Hx].
  2:{ exfalso. pose proof (to_float_mono x 130000 Hx) as H.
      assert (Hc : to_float 130000 == 130000) by (vm_compute; reflexivity).
      lra. }
  destruct (Qlt_le_dec x 131072) as [Hx'|Hx'].
  2:{ pose proof (to_float_mono 131072 x Hx') as H.
      assert (Hc : to_float 131072 == 131072) by (vm_compute; reflexivity).
      lra. }
  assert (Hu : ulp_exponent x = (-36)%Z).
  { apply (ulp_exponent_binade x 16); [lia| |].
    - change (2 ^ 16) with 65536. lra.
    - change (2 ^ (16 + 1)) with 131072. exact Hx'. }
  revert Hv. unfold to_float, nearest. rewrite Hu.
  set (k := round_half_even (x / 2 ^ (-36))). clearbody k.
  change (2 ^ (-36)) with (1 # 68719476736).
  unfold saturate.
  destruct (Qle_bool infinity (Qred (inject_Z k * (1 # 68719476736))));
    [intros _; vm_compute; discriminate|].
  destruct (Qle_bool (Qred (inject_Z k * (1 # 68719476736))) (- infinity));
    [intros H; vm_compute in H; discriminate|].
  rewrite Qred_correct.
  unfold Qlt, Qle, Qplus, Qmult, inject_Z. cbn [Qnum Qden]. lia.
Qed.

(** The arithmetic on finite floats rounds the exact result. *)
Lemma float_arithmetic (x y : Q) :
  is_finite x = true -> is_finite y = true ->
  fsub x y = to_float (x - y) /\
  fmul x y = to_float (x * y) /\
  fdiv x y = to_float (x / y).
Proof.
  intros Hx Hy. unfold fsub, fmul, fdiv. rewrite Hx, Hy.
  repeat split; reflexivity.
Qed.

(** An operand that is not finite gives a result that is not. *)
Lemma float_not_finite (x y : Q) :
  is_finite x = false ->
  fsub x y = infinity /\ fmul x y = infinity /\ fdiv x y = infinity.
Proof.
  intros Hx. unfold fsub, fmul, fdiv. rewrite Hx.
  repeat split; reflexivity.
Qed.

Lemma is_finite_iff (x : Q) :
  is_finite x = true <-> - infinity < x /\ x < infinity.
Proof.
  unfold is_finite. rewrite andb_true_iff, !negb_true_iff.
  generalize infinity. intros i.
  split.
  - intros [H1 H2]. split; apply Qnot_le_lt; intros H;
      apply Qle_bool_iff in H; congruence.
  - intros [H1 H2].
    split; apply not_true_is_false; intros H; apply Qle_bool_iff in H; lra.
Qed.

End Rounding.

(** The float operations are evaluated by [vm_compute] only. *)
Opaque Num.to_float Num.fsub Num.fmul Num.fdiv Num.is_finite Num.infinity.

(** Some binary64 numbers: the float of 0.1; [2 ^ 53 + 1], halfway
    between two floats, goes to the even one; the least subnormal
    number and half of it; the greatest float, and the least number
    that overflows. *)
Example binary64_values :
  Num.to_float 0.1 = (3602879701896397 # 36028797018963968)%Q /\
  Num.to_float 9007199254740993 = 9007199254740992%Q /\
  Num.to_float (2 ^ (-1074)) = Qred (2 ^ (-1074)) /\
  Num.to_float (2 ^ (-1075)) = 0%Q /\
  Num.to_float (2 ^ 1024 - 2 ^ 970 - 1) = Qred (2 ^ 1024 - 2 ^ 971) /\
  Num.to_float (2 ^ 1024 - 2 ^ 970) = Num.infinity /\
  Num.is_finite (Num.to_float (2 ^ 1024 - 2 ^ 970)) = false /\
  Num.fmul (Num.fsub 33 32) (Num.to_float 2.55) = Num.to_float 2.55 /\
  (Num.to_float 2.55 < 2.55)%Q.
Proof.
  repeat (split; [vm_compute; reflexivity|]). vm_compute. reflexivity.
Qed.

(** ** The scanner of tier A *)

Section Scanner.

Import Text.

Lemma append_assoc (a b c : string) : (a ++ b) ++ c = a ++ (b ++ c).
Proof.
  induction a as [|x a IH]; cbn [append]; [reflexivity|].
  rewrite IH. reflexivity.
Qed.

Lemma span_digits_split (s ds rest : string) :
  span_digits s = (ds, rest) ->
  s = ds ++ rest /\ all_chars is_digit ds = true.
Proof.
  revert ds rest. induction s as [|c s IH]; intros ds rest H;
    cbn [span_digits] in H.
  - injection H as <- <-. split; reflexivity.
  - destruct (is_digit c) eqn:Hc.
    + destruct (span_digits s) as [ds' rest'].
      injection H as <- <-.
      destruct (IH ds' rest' eq_refl) as [-> Hall].
      cbn [append all_chars]. rewrite Hc, Hall. split; reflexivity.
    + injection H as <- <-. split; reflexivity.
Qed.

Lemma lstrip_split (s : string) :
  exists ws, s = ws ++ lstrip s /\ all_chars is_space ws = true.
Proof.
  induction s as [|c s (ws & Hs & Hws)]; cbn [lstrip].
  - exists "". split; reflexivity.
  - destruct (is_space c) eqn:Hc.
    + exists (String c ws). cbn [append all_chars].
      rewrite Hc, Hws, <- Hs. split; reflexivity.
    + exists "". split; reflexivity.
Qed.

Lemma after_prefix_split (p s rest : string) :
  after_prefix p s = Some rest -> s = p ++ rest.
Proof.
  revert s. induction p as [|a p IH]; intros s H; cbn [after_prefix] in H.
  - injection H as <-. reflexivity.
  - destruct s as [|b s]; [discriminate|].
    destruct (Ascii.eqb a b) eqn:Hab; [|discriminate].
    apply Ascii.eqb_eq in Hab. subst b.
    cbn [append]. f_equal. apply IH. exact H.
Qed.

(** A match of the number pattern is a prefix of the text. *)
Lemma match_number_split (s g rest : string) :
  match_number s = Some (g, rest) -> s = g ++ rest.
Proof.
  unfold match_number. intros H.
  assert (Hsign : exists sign s1,
             (match s with
              | String c s' => if is_char 45 c then ("-", s') else ("", s)
              | EmptyString => ("", s)
              end) = (sign, s1) /\ s = sign ++ s1).
  { destruct s as [|c s']; [exists "", ""; split; reflexivity|].
    destruct (is_char 45 c) eqn:Hc.
    - exists "-", s'. split; [reflexivity|].
      unfold is_char, code in Hc. apply Nat.eqb_eq in Hc.
      rewrite <- (ascii_nat_embedding c), Hc. reflexivity.
    - exists "", (String c s'). split; reflexivity. }
  destruct Hsign as (sign & s1 & Heq & ->). rewrite Heq in H. clear Heq.
  destruct (span_digits s1) as [ds s2] eqn:Hds.
  apply span_digits_split in Hds. destruct Hds as [-> _].
  destruct ds as [|d ds]; [discriminate|].
  destruct s2 as [|c s3].
  - injection H as <- <-. rewrite append_assoc. reflexivity.
  - destruct (is_char 46 c) eqn:Hc.
    + destruct (span_digits s3) as [fs s4] eqn:Hfs.
      apply span_digits_split in Hfs. destruct Hfs as [-> _].
      assert (Hdot : c = "."%char).
      { unfold is_char, code in Hc. apply Nat.eqb_eq in Hc.
        rewrite <- (ascii_nat_embedding c), Hc. reflexivity. }
      subst c.
      destruct fs as [|f fs]; injection H as <- <-;
        repeat (rewrite append_assoc || cbn [append]); reflexivity.
    + injection H as <- <-. rewrite append_assoc. reflexivity.
Qed.

(** A match of the temperature pattern is made of the keyword, white
    space and the number captured. *)
Lemma match_temperature_split (s g : string) (len : nat) :
  match_temperature s = Some (g, len) ->
  exists ws rest,
    s = "temperature:" ++ ws ++ g ++ rest /\
    all_chars is_space ws = true.
Proof.
  unfold match_temperature. intros H.
  destruct (after_prefix "temperature:" s) as [s1|] eqn:Hpre; [|discriminate].
  apply after_prefix_split in Hpre.
  destruct (match_number (lstrip s1)) as [[g' rest]|] eqn:Hnum;
    [|discriminate].
  injection H as -> _.
  apply match_number_split in Hnum.
  destruct (lstrip_split s1) as (ws & Hs1 & Hws).
  exists ws, rest. split; [|exact Hws].
  rewrite Hpre, Hs1 at 1. rewrite Hnum. reflexivity.
Qed.

(** Every group found stands in the text behind the keyword. *)
Lemma finditer_temperature_occurrence (s g : string) (skip : nat) :
  In g (finditer_temperature skip s) ->
  exists pre ws rest,
    s = pre ++ "temperature:" ++ ws ++ g ++ rest /\
    all_chars is_space ws = true.
Proof.
  revert skip. induction s as [|c s IH]; intros skip Hin;
    cbn [finditer_temperature] in Hin; [contradiction|].
  assert (Hlater : forall k, In g (finditer_temperature k s) ->
            exists pre ws rest,
              String c s = pre ++ "temperature:" ++ ws ++ g ++ rest /\
              all_chars is_space ws = true).
  { intros k Hk. destruct (IH k Hk) as (pre & ws & rest & -> & Hws).
    exists (String c pre), ws, rest. split; [reflexivity | exact Hws]. }
  destruct skip as [|k]; [|exact (Hlater k Hin)].
  destruct (match_temperature (String c s)) as [[g0 len]|] eqn:Hm;
    [|exact (Hlater 0%nat Hin)].
  destruct Hin as [<-|Hin]; [|exact (Hlater _ Hin)].
  destruct (match_temperature_split _ _ _ Hm) as (ws & rest & Hs & Hws).
  exists "", ws, rest. split; [exact Hs | exact Hws].
Qed.

End Scanner.

(** The readings of the three tiers on the outputs the specification
    lists. *)
Example tier_a_two_paths :
  Text.finditer_temperature 0 "temperature: 45 temperature: 52" = ["45"; "52"]
  /\ V13.tier_a "temperature: 45 temperature: 52" = Some 52%Q.
Proof. split; vm_compute; reflexivity. Qed.

Example tier_b_rf_temp : V13.tier_b "rf_temp: 63 C" = Some (Some 63%Q).
Proof. vm_compute. reflexivity. Qed.

(** 45.231 is formatted as 45.2, and 45.45, whose float lies above the
    decimal, as 45.5. *)
Example tier_c_millidegrees :
  V13.tier_c "45231" = Some (Num.to_float 45.2) /\
  V13.tier_c "45450" = Some (Num.to_float 45.5) /\
  V13.tier_c "45150" = Some (Num.to_float 45.1) /\
  V13.tier_c "200.00000000000001" = None.
Proof. repeat split; vm_compute; reflexivity. Qed.

(** ** Temperature pipeline of v1.3 *)

Section Cascade.

Import Text Num V13 Samples.
Local Open Scope Q_scope.

Variable self : SSHExecutor.
Variable remote : remote_host.

(** Tier A answers as soon as it has a plausible value. *)
Lemma cascade_tier_a (iface proc_out : string) (t : Q) :
  pick_iface self remote = Some iface ->
  Py.truthy iface = true ->
  safe_read remote (ProbeThermalState iface) = Some proc_out ->
  tier_a proc_out = Some t ->
  get_wifi_module_temperature self (Some remote) = Some t.
Proof.
  intros Hpick Htruthy Hread Ha.
  unfold get_wifi_module_temperature, cascade.
  rewrite Hpick, Htruthy, Hread, Ha. reflexivity.
Qed.

(** Tier C decides when tiers A and B are silent. *)
Lemma cascade_tier_c (val_s : string) :
  tiers_a_b_silent self remote = true ->
  safe_read remote ProbeSysfsHwmon = Some val_s ->
  get_wifi_module_temperature self (Some remote) = tier_c val_s.
Proof.
  unfold tiers_a_b_silent, get_wifi_module_temperature, cascade.
  intros Hsilent Hread.
  destruct (pick_iface self remote) as [iface|]; [|discriminate].
  apply andb_prop in Hsilent. destruct Hsilent as [Ha Hb].
  assert (Hfirst :
            (if Py.truthy iface
             then match safe_read remote (ProbeThermalState iface) with
                  | Some proc_out => Some (tier_a proc_out)
                  | None => None
                  end
             else Some None) = Some None).
  { destruct (Py.truthy iface); [|reflexivity].
    destruct (safe_read remote (ProbeThermalState iface)) as [proc_out|];
      [|discriminate].
    destruct (tier_a proc_out); [discriminate | reflexivity]. }
  rewrite Hfirst.
  destruct (safe_read remote ProbeWfbCli) as [out|]; [|discriminate].
  destruct (tier_b out) as [[t|]|]; try discriminate.
  rewrite Hread. reflexivity.
Qed.

(** [temps] holds the plausible values among the parsed occurrences. *)
Lemma thermal_temps_spec (proc_out : string) (t : Q) :
  In t (thermal_temps proc_out) <->
  exists g, In g (finditer_temperature 0 proc_out) /\
            py_float g = Some t /\ -40 <= t /\ t <= 130.
Proof.
  unfold thermal_temps. rewrite in_flat_map. split.
  - intros (g & Hg & Hin). exists g. split; [exact Hg|].
    destruct (py_float g) as [v|]; [|contradiction].
    destruct (plausible v) eqn:Hv; [|contradiction].
    destruct Hin as [->|[]]. split; [reflexivity|].
    apply plausible_iff. exact Hv.
  - intros (g & Hg & Hparse & Hrange). exists g. split; [exact Hg|].
    rewrite Hparse. apply plausible_iff in Hrange. rewrite Hrange.
    left. reflexivity.
Qed.

End Cascade.

(** C7 (amended).  In tier A, for every thermal-state text in which at
    least one parsed [temperature: <number>] value lies in [-40, 130],
    the pipeline returns the greatest of those values formatted with
    one decimal place and read back: the float of the multiple of one
    tenth nearest to the maximum (within 0.05 of it, ties to the even
    digit), and the maximum itself when it is the float of a number
    with at most one decimal.  The values compared are the floats of
    the numbers that stand in the text behind [temperature:] and lie in
    the range.  Given ["temperature: 45 temperature: 52"] it returns
    52.0; given ["temperature: 129.95"], whose float lies below the
    decimal, 129.9; given ["temperature: 45.45"], whose float lies
    above it, 45.5. *)
Theorem tier_a_rounded_maximum (self : SSHExecutor)
    (remote : V13.remote_host) (iface proc_out : string) :
  V13.pick_iface self remote = Some iface ->
  Py.truthy iface = true ->
  V13.safe_read remote (V13.ProbeThermalState iface) = Some proc_out ->
  (exists t, In t (V13.thermal_temps proc_out)) ->
  (forall g,
     In g (Text.finditer_temperature 0 proc_out) ->
     exists pre ws rest,
       proc_out = pre ++ "temperature:" ++ ws ++ g ++ rest /\
       Text.all_chars Text.is_space ws = true) /\
  (forall t,
     In t (V13.thermal_temps proc_out) <->
     exists g, In g (Text.finditer_temperature 0 proc_out) /\
               Num.py_float g = Some t /\ (-40 <= t)%Q /\ (t <= 130)%Q) /\
  (exists m : Q,
     In m (V13.thermal_temps proc_out) /\
     (forall t, In t (V13.thermal_temps proc_out) -> (t <= m)%Q) /\
     V13.get_wifi_module_temperature self (Some remote)
     = Some (Num.round_1f m) /\
     (exists z : Z,
        -400 <= z <= 1300 /\
        (Qabs ((z # 10) - m) <= 1 # 20)%Q /\
        (((z # 10) - m == 1 # 20)%Q \/ ((z # 10) - m == - (1 # 20))%Q ->
         Z.even z = true) /\
        Num.round_1f m = Num.to_float (z # 10)) /\
     (forall (x : Q) (z : Z),
        (x == z # 10)%Q -> m = Num.to_float x -> Num.round_1f m = m)) /\
  (proc_out = "temperature: 45 temperature: 52" ->
   V13.get_wifi_module_temperature self (Some remote) = Some 52%Q) /\
  (proc_out = "temperature: 129.95" ->
   V13.get_wifi_module_temperature self (Some remote)
   = Some (Num.to_float 129.9)) /\
  (proc_out = "temperature: 45.45" ->
   V13.get_wifi_module_temperature self (Some remote)
   = Some (Num.to_float 45.5)).
Proof.
  intros Hpick Htruthy Hread [t0 Ht0].
  split; [intros g; apply finditer_temperature_occurrence|].
  split; [intros t; apply thermal_temps_spec|]. split.
  - destruct (V13.thermal_temps proc_out) as [|t ts] eqn:Htemps;
      [contradiction|].
    exists (Num.py_max t ts).
    split; [apply py_max_in|].
    split; [intros u Hu; apply py_max_upper; exact Hu|].
    split.
    { apply (cascade_tier_a self remote iface proc_out); try assumption.
      unfold V13.tier_a. rewrite Htemps. reflexivity. }
    assert (Hm : Num.plausible (Num.py_max t ts) = true).
    { apply plausible_iff.
      assert (Hin : In (Num.py_max t ts) (V13.thermal_temps proc_out))
        by (rewrite Htemps; apply py_max_in).
      apply thermal_temps_spec in Hin.
      destruct Hin as (g & _ & _ & Hrange). exact Hrange. }
    split.
    + exists (Num.round_half_even (Num.py_max t ts * 10)).
      split; [apply round_half_even_plausible; exact Hm|].
      split; [apply round_1f_nearest|].
      split; [|reflexivity].
      apply tenth_tie.
    + intros x z Hx Hz. rewrite (to_float_compat _ _ Hx) in Hz.
      rewrite Hz in Hm |- *.
      apply tenths_fixed. apply tenths_plausible. exact Hm.
  - split; [|split]; intros ->.
    + apply (cascade_tier_a self remote iface
               "temperature: 45 temperature: 52"); try assumption.
      vm_compute. reflexivity.
    + apply (cascade_tier_a self remote iface "temperature: 129.95");
        try assumption.
      vm_compute. reflexivity.
    + apply (cascade_tier_a self remote iface "temperature: 45.45");
        try assumption.
      vm_compute. reflexivity.
Qed.

(** Two radio paths at 45 and 52 degrees: the reading is 52.0. *)
Lemma tier_a_rounded_maximum_witness :
  V13.get_wifi_module_temperature drone
    (Some (Samples.remote_thermal "temperature: 45 temperature: 52"))
  = Some 52%Q.
Proof.
  apply (tier_a_rounded_maximum drone
           (Samples.remote_thermal "temperature: 45 temperature: 52")
           "wlan0" "temperature: 45 temperature: 52").
  - reflexivity.
  - reflexivity.
  - reflexivity.
  - exists 45%Q. vm_compute. left. reflexivity.
  - reflexivity.
Defined.

(** A thermal state whose decimal lies halfway between two tenths: the
    float of 129.95 lies below it and the reading is 129.9. *)
Example tier_a_binary_rounding :
  V13.get_wifi_module_temperature drone
    (Some (Samples.remote_thermal "temperature: 129.95"))
  = Some (Num.to_float 129.9) /\
  (Num.to_float 129.95 < 129.95)%Q /\ (Num.to_float 129.9 == 129.9 -> False)%Q.
Proof. repeat split; vm_compute; congruence. Qed.

(** C7 (as stated) fails: for the thermal state ["temperature: 45.67"]
    the only parsed value is 45.67 and the pipeline returns 45.7; and for
    ["temperature: 500"], whose only value is out of range, tier A
    returns nothing. *)
Lemma tier_a_maximum_is_rounded :
  ~ Samples.returns_unrounded_maximum /\
  Text.finditer_temperature 0 "temperature: 500" = ["500"] /\
  V13.get_wifi_module_temperature drone
    (Some (Samples.remote_thermal "temperature: 500")) = None.
Proof.
  split; [|split; reflexivity].
  intros Hstated.
  destruct (Hstated drone (Samples.remote_thermal "temperature: 45.67")
              "wlan0" "temperature: 45.67")
    as (m & v & Hm & _ & Hget & Heq).
  - reflexivity.
  - reflexivity.
  - reflexivity.
  - exists (Num.to_float 45.67). vm_compute. left. reflexivity.
  - vm_compute in Hm. destruct Hm as [<-|[]].
    vm_compute in Hget. injection Hget as <-.
    vm_compute in Heq. discriminate Heq.
Qed.

(** C2 (amended).  When tiers A and B yield no reading and the sysfs
    read returns the raw value 9999, the value exceeds 200 and is taken
    as millidegrees: 9.999 lies in the plausible range and the pipeline
    returns it rounded to one decimal place, 10.0. *)
Theorem tier_c_accepts_9999 (self : SSHExecutor) (remote : V13.remote_host) :
  Samples.tiers_a_b_silent self remote = true ->
  V13.safe_read remote V13.ProbeSysfsHwmon = Some "9999" ->
  Num.py_float "9999" = Some 9999%Q /\
  Qle_bool 9999 200 = false /\
  Num.plausible (9999 / 1000) = true /\
  V13.get_wifi_module_temperature self (Some remote) = Some 10%Q.
Proof.
  intros Hsilent Hread.
  split; [vm_compute; reflexivity|].
  split; [vm_compute; reflexivity|].
  split; [vm_compute; reflexivity|].
  rewrite (cascade_tier_c self remote "9999" Hsilent Hread).
  vm_compute. reflexivity.
Qed.

(** Only the sysfs sensor answers, with 9999. *)
Lemma tier_c_accepts_9999_witness :
  V13.get_wifi_module_temperature drone (Some (Samples.remote_sysfs "9999"))
  = Some 10%Q.
Proof.
  exact (proj2 (proj2 (proj2
           (tier_c_accepts_9999 drone (Samples.remote_sysfs "9999")
              eq_refl eq_refl)))).
Defined.

(** C2 (as stated) fails: with only the sysfs sensor answering 9999 the
    pipeline returns 10.0, not [None]. *)
Lemma tier_c_does_not_reject_9999 : ~ Samples.rejects_9999.
Proof.
  intros Hstated.
  specialize (Hstated drone (Samples.remote_sysfs "9999") eq_refl eq_refl).
  vm_compute in Hstated. discriminate Hstated.
Qed.

(** ** Temperature pipeline of v1.1 *)


Lemma py_float_nonempty (s : string) (v : Q) :
  Num.py_float s = Some v -> Py.truthy s = true.
Proof.
  destruct s; [discriminate | reflexivity].
Qed.




(** ** Command executor: recovery, guards and the captured variant *)

Section Recovery.

Variable rel : release.
Variable net : network.
Variable self : SSHExecutor.
Variable command : string.
Variable n : Z.
Hypothesis n_pos : 0 < n.

(** [k] attempts end in a caught exception and the next one completes. *)
Lemma execute_command_loop_recovers (k todo : nat) (w : world)
    (status : Z) (out err : string) :
  (k < todo)%nat -> Z.of_nat todo <= n ->
  all_attempts_raise net self (elevated (password self) command)
    (clock w) k = true ->
  connect_at net self (attempts_end net self (clock w) k) = ConnOk ->
  ssh_exec net (S (attempts_end net self (clock w) k))
    (elevated (password self) command) = ExecDone status out err ->
  execute_command_loop rel net self command n todo (n - Z.of_nat todo) w
  = (status =? 0,
     {| clock := S (S (attempts_end net self (clock w) k));
        log := (log w
                ++ retried_log rel net self
                     (elevated (password self) command) (clock w) k
                ++ session_events self
                     (elevated (password self) command))%list |}).
Proof.
  revert todo w. induction k as [|k IH]; intros todo w Hk Hle Hall Hconn Hexec.
  - destruct todo as [|todo]; [lia|].
    cbn [attempts_end retried_log app] in *.
    cbn [execute_command_loop]. unfold bind at 1.
    rewrite (execute_command_try_exited rel net self command w status out err
               Hconn Hexec).
    reflexivity.
  - destruct todo as [|todo]; [lia|].
    cbn [all_attempts_raise] in Hall. apply andb_prop in Hall.
    destruct Hall as [Hnow Hlater].
    cbn [attempts_end retried_log] in *.
    cbn [execute_command_loop]. unfold bind at 1.
    rewrite (execute_command_try_raises rel net self command w Hnow).
    rewrite last_iteration by exact n_pos.
    destruct todo as [|todo']; [lia|].
    cbn [Nat.eqb negb]. run.
    replace (n - Z.of_nat (S (S todo')) + 1)
      with (n - Z.of_nat (S todo')) by lia.
    match goal with
    | |- context [execute_command_loop _ _ _ _ _ _ _ ?w'] =>
        rewrite (IH (S todo') w'); cbn [clock log];
          [| lia | lia | exact Hlater | exact Hconn | exact Hexec]
    end.
    rewrite <- !app_assoc. reflexivity.
Qed.

End Recovery.

Lemma count_retried_log (rel : release) (net : network)
    (self : SSHExecutor) (cmd : string) (k : nat) (now : nat) :
  count is_connect (retried_log rel net self cmd now k) = k /\
  count is_sleep (retried_log rel net self cmd now k) = k.
Proof.
  revert now. induction k as [|k IH]; intros now; [split; reflexivity|].
  destruct (count_attempt_events rel net self cmd now) as (Hc & Hs & _).
  destruct (IH (attempt_end net self now)) as (IHc & IHs).
  cbn [retried_log].
  change (EvSleep 5 :: retried_log rel net self cmd
                         (attempt_end net self now) k)
    with ([EvSleep 5] ++ retried_log rel net self cmd
                           (attempt_end net self now) k)%list.
  rewrite !count_app, Hc, Hs, IHc, IHs. split; cbn; lia.
Qed.

(** X1.  The first attempt of [execute_command] that completes decides:
    when [k] attempts (fewer than [max_attempts]) end in a caught
    exception and the next one connects and gets an exit status, the
    result is [True] exactly for status 0, each failed attempt was
    followed by a sleep of 5 seconds, and nothing follows the completed
    session: [k + 1] connections, [k] sleeps. *)
Theorem execute_command_first_completed_attempt (rel : release)
    (net : network) (self : SSHExecutor) (command : string)
    (max_attempts_arg : option Z) (w : world) (k : nat)
    (status : Z) (out err : string) :
  let n := Py.or_default max_attempts_arg (max_attempts self) in
  let cmd := elevated (password self) command in
  let t := attempts_end net self (clock w) k in
  unconfigured self = false ->
  (k < Z.to_nat n)%nat ->
  all_attempts_raise net self cmd (clock w) k = true ->
  connect_at net self t = ConnOk ->
  ssh_exec net (S t) cmd = ExecDone status out err ->
  let r := execute_command rel net self command max_attempts_arg w in
  fst r = (status =? 0) /\
  exists new : list event,
    log (snd r) = (log w ++ new)%list /\
    new = (retried_log rel net self cmd (clock w) k
           ++ session_events self cmd)%list /\
    count is_connect new = S k /\
    count is_sleep new = k /\
    ends_with_sleep new = false.
Proof.
  intros n cmd t Hconf Hk Hall Hconn Hexec r.
  assert (Hn : 0 < n) by lia.
  assert (Hr : r = (status =? 0,
                    {| clock := S (S t);
                       log := (log w ++ retried_log rel net self cmd (clock w) k
                               ++ session_events self cmd)%list |})).
  { unfold r, execute_command. rewrite Hconf.
    pose proof (execute_command_loop_recovers rel net self command n Hn k
                  (Z.to_nat n) w status out err) as Hloop.
    rewrite Z2Nat.id in Hloop by lia.
    replace (n - n) with 0 in Hloop by lia.
    apply Hloop; [exact Hk | lia | exact Hall | exact Hconn | exact Hexec]. }
  rewrite Hr. cbn [fst snd log]. split; [reflexivity|].
  eexists. split; [reflexivity|]. split; [reflexivity|].
  destruct (count_retried_log rel net self cmd k (clock w)) as (Hc & Hs).
  rewrite !count_app, Hc, Hs.
  repeat split; try (cbn; lia).
  rewrite ends_with_sleep_app by discriminate. reflexivity.
Qed.

(** The first connection is refused, the second completes with status 0. *)
Lemma execute_command_first_completed_attempt_witness :
  let r := execute_command V1_3 net_recovers drone "sudo reboot" None world0 in
  let attempt :=
    EvConnect (Some "10.5.6.100") "2222" "roz" "default_password" 5 in
  fst r = true /\
  exists new : list event,
    log (snd r) = new /\
    new = [attempt; EvSleep 5;
           attempt; EvExec "echo default_password | sudo -S reboot"; EvClose] /\
    count is_connect new = 2%nat /\
    count is_sleep new = 1%nat /\
    ends_with_sleep new = false.
Proof.
  exact (execute_command_first_completed_attempt V1_3 net_recovers drone
           "sudo reboot" None world0 1 0 "" ""
           eq_refl ltac:(vm_compute; lia) eq_refl eq_refl eq_refl).
Defined.

(** ** Command executor: guards *)

(** X2.  The guards of the command executor: when the executor has no
    current address or no password, or when the attempt budget is zero
    or negative, [execute_command] and [execute_command_capture] fail
    without any interaction with the outside world; the captured variant
    then reports exit status -1 and an empty standard output. *)
Theorem execute_command_guards (rel : release) (net : network)
    (self : SSHExecutor) (command : string) (max_attempts_arg : option Z)
    (w : world) :
  unconfigured self = true
  \/ Py.or_default max_attempts_arg (max_attempts self) <= 0 ->
  let r := execute_command_capture rel net self command max_attempts_arg w in
  execute_command rel net self command max_attempts_arg w = (false, w) /\
  snd r = w /\
  capture_ok (fst r) = false /\
  capture_status (fst r) = -1 /\
  snd (fst (fst (fst r))) = "".
Proof.
  intros Hguard r. unfold r, execute_command, execute_command_capture.
  destruct (unconfigured self); [repeat split|].
  destruct Hguard as [Hun | Hn]; [discriminate|].
  assert (Hz : Z.to_nat (Py.or_default max_attempts_arg (max_attempts self))
               = 0%nat) by lia.
  rewrite Hz. cbn [execute_command_loop execute_command_capture_loop].
  repeat split.
Qed.

(** No current address; and a budget of zero attempts. *)
Lemma execute_command_guards_witness :
  execute_command V1_3 (net_exits 0) (set_current drone None "2222")
    "ls" None world0 = (false, world0) /\
  execute_command V1_1 (net_exits 0) drone "ls" (Some 0) world0
  = (false, world0).
Proof.
  split.
  - apply (execute_command_guards V1_3 (net_exits 0)
             (set_current drone None "2222") "ls" None world0).
    left. reflexivity.
  - apply (execute_command_guards V1_1 (net_exits 0) drone "ls" (Some 0)
             world0).
    right. cbn. lia.
Defined.

(** ** The captured variant *)

Lemma execute_command_capture_loop_status (rel : release) (net : network)
    (self : SSHExecutor) (command : string) (n : Z) (todo : nat)
    (attempt : Z) (w : world) :
  let r := execute_command_capture_loop rel net self command n todo attempt w
  in capture_ok (fst r) = (capture_status (fst r) =? 0).
Proof.
  revert attempt w. induction todo as [|todo IH]; intros attempt w;
    [reflexivity|].
  cbn [execute_command_capture_loop]. unfold execute_command_capture_try.
  run.
  destruct (ssh_connect net (clock w) (current_ip self) (current_port self)
              (username self) (password self) (timeout self)).
  - run.
    destruct (ssh_exec net (S (clock w)) command) as [|status out err].
    + run. destruct (attempt <? n - 1); run; apply IH.
    + reflexivity.
  - destruct rel; cbn [closes_unconnected_client]; run;
      destruct (attempt <? n - 1); run; apply IH.
  - destruct rel; cbn [closes_unconnected_client]; run;
      destruct (attempt <? n - 1); run; apply IH.
Qed.

(** X3.  The flag returned by [execute_command_capture] always agrees
    with the exit status returned beside it: it is [True] exactly when
    the status is 0, on every path (remote exit, guard, budget used up,
    where the status is -1). *)
Theorem execute_command_capture_flag_is_status (rel : release)
    (net : network) (self : SSHExecutor) (command : string)
    (max_attempts_arg : option Z) (w : world) :
  let r := execute_command_capture rel net self command max_attempts_arg w in
  capture_ok (fst r) = (capture_status (fst r) =? 0).
Proof.
  unfold execute_command_capture.
  destruct (unconfigured self); [reflexivity|].
  apply execute_command_capture_loop_status.
Qed.

Lemma execute_command_try_capture (rel : release) (net : network)
    (self : SSHExecutor) (command : string) (w : world) :
  execute_command_try rel net self command w
  = (let (res, w') :=
       execute_command_capture_try rel net self
         (elevated (password self) command) w in
     (option_map capture_ok res, w')).
Proof.
  unfold execute_command_try, execute_command_capture_try. run.
  destruct (ssh_connect net (clock w) (current_ip self) (current_port self)
              (username self) (password self) (timeout self)).
  - run.
    destruct (ssh_exec net (S (clock w)) (elevated (password self) command))
      as [|status out err]; [reflexivity|].
    destruct (status =? 0); reflexivity.
  - destruct rel; reflexivity.
  - destruct rel; reflexivity.
Qed.

Lemma execute_command_loop_capture (rel : release) (net : network)
    (self : SSHExecutor) (command : string) (n : Z) (todo : nat)
    (attempt : Z) (w : world) :
  execute_command_loop rel net self command n todo attempt w
  = (let (res, w') :=
       execute_command_capture_loop rel net self
         (elevated (password self) command) n todo attempt w in
     (capture_ok res, w')).
Proof.
  revert attempt w. induction todo as [|todo IH]; intros attempt w;
    [reflexivity|].
  cbn [execute_command_loop execute_command_capture_loop].
  unfold bind at 1. rewrite execute_command_try_capture.
  unfold bind at 2.
  destruct (execute_command_capture_try rel net self
              (elevated (password self) command) w) as [[res|] w'];
    cbn [option_map]; [reflexivity|].
  destruct (attempt <? n - 1); run; apply IH.
Qed.

(** X4.  [execute_command] is the captured variant run on the elevated
    command text, with everything but the flag dropped: for every
    network, executor, command and budget both make the same
    interactions and [execute_command] returns the flag of the capture. *)
Theorem execute_command_is_capture_of_elevated (rel : release)
    (net : network) (self : SSHExecutor) (command : string)
    (max_attempts_arg : option Z) (w : world) :
  let r := execute_command_capture rel net self
             (elevated (password self) command) max_attempts_arg w in
  execute_command rel net self command max_attempts_arg w
  = (capture_ok (fst r), snd r).
Proof.
  unfold execute_command, execute_command_capture.
  destruct (unconfigured self); [reflexivity|].
  rewrite execute_command_loop_capture.
  destruct (execute_command_capture_loop rel net self
              (elevated (password self) command)
              (Py.or_default max_attempts_arg (max_attempts self))
              (Z.to_nat (Py.or_default max_attempts_arg (max_attempts self)))
              0 w).
  reflexivity.
Qed.

(** ** Connection test: what an answer means and what a call costs *)

(** A probe of [ip] and [port] under the policy of the executor, for any
    attempt budget (none is made when the budget is not positive). *)
Lemma is_reachable_trace (net : network) (self : SSHExecutor)
    (ip port : string) (w : world) :
  let r := is_reachable net self ip port None None w in
  let up := fun k => tcp_connect net (clock w + k) ip port (timeout self) in
  exists m : nat,
    (m <= Z.to_nat (max_attempts self))%nat /\
    clock (snd r) = (clock w + m)%nat /\
    log (snd r)
    = (log w ++ spaced [EvSocket ip port (timeout self)] (EvSleep 5) m)%list /\
    (forall k, (k < m - 1)%nat -> up k = false) /\
    (if fst r then (1 <= m)%nat /\ up (m - 1)%nat = true
     else m = Z.to_nat (max_attempts self) /\
          forall k, (k < m)%nat -> up k = false).
Proof.
  intros r up.
  destruct (Z_lt_le_dec 0 (max_attempts self)) as [Hpos | Hneg].
  - destruct (is_reachable_loop_spec net ip port (timeout self)
                (max_attempts self) Hpos (Z.to_nat (max_attempts self)) w)
      as (m & Hm & Hlog & Hclk & Hbefore & Hlast); [lia | lia |].
    rewrite Z2Nat.id in Hlog, Hclk, Hlast by lia.
    replace (max_attempts self - max_attempts self) with 0
      in Hlog, Hclk, Hlast by lia.
    exists m. subst r up. unfold is_reachable. cbn [Py.or_default].
    cbv beta in *.
    destruct (is_reachable_loop net ip port (timeout self)
                (max_attempts self) (Z.to_nat (max_attempts self)) 0 w)
      as [b w'].
    cbn [fst snd] in *.
    split; [lia|]. split; [exact Hclk|]. split; [exact Hlog|].
    split; [exact Hbefore|].
    destruct b.
    + split; [lia | exact Hlast].
    + destruct Hlast as [Hmn Hfinal]. split; [exact Hmn|].
      intros k Hk. destruct (Nat.eq_dec k (m - 1)) as [->|Hne];
        [exact Hfinal | apply Hbefore; lia].
  - exists 0%nat. unfold r, is_reachable. cbn [Py.or_default].
    assert (Hz : Z.to_nat (max_attempts self) = 0%nat) by lia.
    rewrite Hz. cbn [is_reachable_loop ret fst snd spaced].
    rewrite app_nil_r, Nat.add_0_r.
    repeat split; try reflexivity; intros; lia.
Qed.

Lemma set_current_same (self : SSHExecutor) :
  set_current self (current_ip self) (current_port self) = self.
Proof.
  destruct self. reflexivity.
Qed.

(** X5.  What an answer of [test_connection] means.  An address is
    returned only if it is non-empty and accepted a connection during
    the call; it is the current target of the executor afterwards, and
    it is either the target the call started with (the executor is then
    unchanged) or the secondary address (the current port is then the
    secondary port).  When [None] is returned the executor is unchanged.
    No field other than the current address and port ever changes. *)
Theorem test_connection_answer (net : network) (self : SSHExecutor)
    (w : world) :
  let r := test_connection net self w in
  let self' := snd (fst r) in
  self' = set_current self (current_ip self') (current_port self') /\
  match fst (fst r) with
  | None => self' = self
  | Some a =>
      Py.truthy a = true /\
      current_ip self' = Some a /\
      ((current_ip self = Some a /\ self' = self)
       \/ (secondary_ip self = Some a
           /\ current_port self' = secondary_port self)) /\
      exists now : nat,
        (clock w <= now < clock (snd r))%nat /\
        tcp_connect net now a (current_port self') (timeout self) = true
  end.
Proof.
  intros r self'. unfold self', r, test_connection, bind.
  assert (Hprobe : forall ip port w0,
             let p := probe_if_set net self ip port w0 in
             (clock w0 <= clock (snd p))%nat /\
             (fst p = true ->
              exists a, ip = Some a /\ Py.truthy a = true /\
                exists now, (clock w0 <= now < clock (snd p))%nat /\
                  tcp_connect net now a port (timeout self) = true)).
  { intros ip port w0. unfold probe_if_set.
    destruct ip as [a|]; [|cbn; split; [lia | discriminate]].
    destruct (Py.truthy a) eqn:Ha; [|cbn; split; [lia | discriminate]].
    cbv zeta.
    destruct (is_reachable_trace net self a port w0)
      as (m & Hm & Hclk & _ & _ & Hlast).
    split; [lia|]. intros Htrue. rewrite Htrue in Hlast.
    destruct Hlast as [Hone Hup].
    exists a. repeat split; try assumption.
    exists (clock w0 + (m - 1))%nat. split; [lia | exact Hup]. }
  pose proof (Hprobe (current_ip self) (current_port self) w) as [Hc1 H1].
  destruct (probe_if_set net self (current_ip self) (current_port self) w)
    as [[|] w1]; cbn [fst snd] in *.
  - unfold ret. cbn [fst snd].
    split; [symmetry; apply set_current_same|].
    destruct (H1 eq_refl) as (a & Hip & Ha & now & Hnow & Hup).
    rewrite Hip. split; [exact Ha|]. split; [reflexivity|].
    split; [left; split; reflexivity|].
    exists now. split; [lia | exact Hup].
  - pose proof (Hprobe (secondary_ip self) (secondary_port self) w1)
      as [Hc2 H2].
    destruct (probe_if_set net self (secondary_ip self)
                (secondary_port self) w1) as [[|] w2]; cbn [fst snd] in *.
    + unfold ret. cbn [fst snd].
      split; [reflexivity|].
      destruct (H2 eq_refl) as (a & Hip & Ha & now & Hnow & Hup).
      rewrite Hip. cbn [set_current current_ip current_port].
      split; [exact Ha|]. split; [reflexivity|].
      split; [right; split; reflexivity|].
      exists now. split; [lia | exact Hup].
    + unfold ret. cbn [fst snd].
      split; [symmetry; apply set_current_same | reflexivity].
Qed.



(** ** Relay commands *)

Lemma execute_relay_command_try_as_companion (net : network)
    (self : SSHExecutor) (relay : Relay.endpoint) (command : string)
    (w : world) :
  Relay.execute_relay_command_try net self relay command w
  = execute_command_try V1_1 net (Relay.as_companion self relay) command w.
Proof.
  unfold Relay.execute_relay_command_try, execute_command_try,
    Relay.connect_, connect_, elevated.
  cbn [Relay.as_companion current_ip current_port username password timeout
       closes_unconnected_client close_unconnected].
  destruct (Py.startswith "sudo " command); reflexivity.
Qed.

Lemma execute_relay_command_loop_as_companion (net : network)
    (self : SSHExecutor) (relay : Relay.endpoint) (command : string)
    (n : Z) (todo : nat) (attempt : Z) (w : world) :
  Relay.execute_relay_command_loop net self relay command n todo attempt w
  = execute_command_loop V1_1 net (Relay.as_companion self relay) command n
      todo attempt w.
Proof.
  revert attempt w. induction todo as [|todo IH]; intros attempt w;
    [reflexivity|].
  cbn [Relay.execute_relay_command_loop execute_command_loop].
  unfold bind at 1 3.
  rewrite execute_relay_command_try_as_companion.
  destruct (execute_command_try V1_1 net (Relay.as_companion self relay)
              command w) as [[b|] w']; [reflexivity|].
  destruct (attempt <? n - 1); run; apply IH.
Qed.

Lemma execute_relay_command_as_companion (net : network)
    (self : SSHExecutor) (relay : Relay.endpoint) (command : string)
    (max_attempts_arg : option Z) (w : world) :
  Relay.execute_relay_command net self relay command max_attempts_arg w
  = execute_command V1_1 net (Relay.as_companion self relay) command
      max_attempts_arg w.
Proof.
  unfold Relay.execute_relay_command, execute_command, unconfigured.
  cbn [Relay.as_companion current_ip password max_attempts].
  destruct (negb (Py.truthy_opt (Relay.relay_ip relay))
            || negb (Py.truthy (Relay.relay_password relay)));
    [reflexivity|].
  apply execute_relay_command_loop_as_companion.
Qed.

(** X7.  In both releases [execute_relay_command] is the retry loop of
    the v1.1 [execute_command] run against the relay: for every network,
    command and budget it makes the same interactions and returns the
    same result as [execute_command] of release v1.1 on an executor
    whose current target and credentials are the relay's and whose
    timeout and attempt budget are the executor's own.  It does not
    depend on the current companion target. *)
Theorem execute_relay_command_is_legacy_loop (net : network)
    (self : SSHExecutor) (relay : Relay.endpoint) (command : string)
    (max_attempts_arg : option Z) (w : world) :
  Relay.execute_relay_command net self relay command max_attempts_arg w
  = execute_command V1_1 net (Relay.as_companion self relay) command
      max_attempts_arg w
  /\ forall (ip : option string) (port : string),
       Relay.execute_relay_command net (set_current self ip port) relay
         command max_attempts_arg w
       = Relay.execute_relay_command net self relay command
           max_attempts_arg w.
Proof.
  split; [apply execute_relay_command_as_companion|].
  intros ip port. rewrite !execute_relay_command_as_companion.
  reflexivity.
Qed.

(** X8.  Every interaction of [execute_relay_command] is a session to
    the relay address and port with the relay credentials and the
    timeout of the executor, the command (with the relay password piped
    to [sudo -S] when it starts with [sudo ]), a close, or a sleep of 5
    seconds; [restart_relay_ssh_tunnel] transmits nothing but the
    elevated restart of [ssh-tunnel-to-companion.service]. *)
Theorem relay_sessions (net : network) (self : SSHExecutor)
    (relay : Relay.endpoint) (command : string)
    (max_attempts_arg : option Z) (w : world) :
  (exists new : list event,
     log (snd (Relay.execute_relay_command net self relay command
                 max_attempts_arg w)) = (log w ++ new)%list /\
     Forall (fun e =>
               e = EvConnect (Relay.relay_ip relay)
                     (Relay.relay_ssh_port relay)
                     (Relay.relay_username relay)
                     (Relay.relay_password relay) (timeout self)
               \/ e = EvExec (elevated (Relay.relay_password relay) command)
               \/ e = EvClose \/ e = EvSleep 5) new) /\
  (exists new : list event,
     log (snd (Relay.restart_relay_ssh_tunnel net self relay w))
     = (log w ++ new)%list /\
     transmits_only
       ("echo " ++ Relay.relay_password relay
        ++ " | sudo -S systemctl restart ssh-tunnel-to-companion.service")
       new).
Proof.
  split.
  - rewrite execute_relay_command_as_companion.
    exact (execute_command_adds V1_1 net (Relay.as_companion self relay)
             command max_attempts_arg w).
  - unfold Relay.restart_relay_ssh_tunnel.
    rewrite execute_relay_command_as_companion.
    destruct (execute_command_adds V1_1 net (Relay.as_companion self relay)
                Relay.tunnel_restart_command None w) as (new & Hlog & Hnew).
    exists new. split; [exact Hlog|].
    exact (session_events_transmit _ _ _ Hnew).
Qed.

(** ** Clients created and closed *)

Lemma clients_closed_app (rel : release) (l1 l2 : list event) :
  clients_closed rel l1 -> clients_closed rel l2 ->
  clients_closed rel (l1 ++ l2).
Proof.
  unfold clients_closed. rewrite !count_app.
  destruct (closes_unconnected_client rel); lia.
Qed.

Lemma clients_paired_app (rel : release) (st : client) (a b : list event) :
  clients_paired rel st a = true ->
  clients_paired rel NoClient b = true ->
  clients_paired rel st (a ++ b) = true.
Proof.
  revert st. induction a as [|e a IH]; intros st Ha Hb.
  - cbn [app]. destruct st; [exact Hb| |discriminate].
    cbn [clients_paired] in Ha.
    destruct b as [|e b]; [exact Ha|].
    destruct e; try discriminate; cbn [clients_paired] in *;
      rewrite Ha; exact Hb.
  - cbn [app]. destruct st, e; try discriminate; cbn [clients_paired] in *;
      try (apply andb_prop in Ha; destruct Ha as [Hc Ha]; rewrite Hc;
           cbn [andb]);
      apply IH; assumption.
Qed.

(** The events of a call are made of attempts and pauses: what holds of
    the events of a session, of those of a failed connection and of a
    pause, and of any two lists put end to end, holds of the events a
    call adds. *)
Lemma execute_command_capture_loop_blocks (P : list event -> Prop)
    (rel : release) (net : network)
    (self : SSHExecutor) (command : string) (n : Z) (todo : nat)
    (attempt : Z) (w : world) :
  P [] ->
  (forall a b, P a -> P b -> P (a ++ b)%list) ->
  P [EvSleep 5] ->
  P (session_events self command) ->
  P (failed_connect_events rel self) ->
  exists new : list event,
    log (snd (execute_command_capture_loop rel net self command n todo
                attempt w)) = (log w ++ new)%list /\
    P new.
Proof.
  intros Hnil Happ Hsleep Hsession Hfailed.
  revert attempt w. induction todo as [|todo IH]; intros attempt w.
  - exists []. cbn. rewrite app_nil_r. split; [reflexivity | exact Hnil].
  - cbn [execute_command_capture_loop]. unfold execute_command_capture_try.
    run.
    assert (Hstep : forall (blk : list event) (now : nat),
               P blk ->
               exists new : list event,
                 log (snd (((if attempt <? n - 1 then sleep 5 else ret tt) ;;;
                            execute_command_capture_loop rel net self command
                              n todo (attempt + 1))
                           {| clock := now; log := (log w ++ blk)%list |}))
                 = (log w ++ new)%list /\
                 P new).
    { intros blk now Hblk.
      destruct (attempt <? n - 1); run.
      - match goal with
        | |- context [execute_command_capture_loop _ _ _ _ _ _ _ ?w'] =>
            destruct (IH (attempt + 1) w') as (new & Hlog & Hnew)
        end.
        cbn [log] in Hlog.
        exists (blk ++ [EvSleep 5] ++ new)%list.
        split; [rewrite Hlog, <- !app_assoc; reflexivity|].
        apply Happ; [exact Hblk|]. apply Happ; assumption.
      - match goal with
        | |- context [execute_command_capture_loop _ _ _ _ _ _ _ ?w'] =>
            destruct (IH (attempt + 1) w') as (new & Hlog & Hnew)
        end.
        cbn [log] in Hlog.
        exists (blk ++ new)%list.
        split; [rewrite Hlog, <- !app_assoc; reflexivity|].
        apply Happ; assumption. }
    unfold session_events in Hsession.
    unfold failed_connect_events in Hfailed.
    destruct (ssh_connect net (clock w) (current_ip self) (current_port self)
                (username self) (password self) (timeout self)).
    + run.
      destruct (ssh_exec net (S (clock w)) command) as [|status out err].
      * rewrite <- !app_assoc. cbn [app].
        apply Hstep. exact Hsession.
      * run. eexists. rewrite <- !app_assoc. cbn [app].
        split; [reflexivity | exact Hsession].
    + destruct rel; cbn [closes_unconnected_client] in *; run;
        rewrite <- ?app_assoc; cbn [app];
        apply Hstep; exact Hfailed.
    + destruct rel; cbn [closes_unconnected_client] in *; run;
        rewrite <- ?app_assoc; cbn [app];
        apply Hstep; exact Hfailed.
Qed.

(** X9.  Clients created and closed.  In release v1.1 every connection
    attempt of [execute_command] and of [execute_command_capture] is
    followed by the close of its client, at once when the connect raised
    and after the command otherwise, before anything else happens: a
    call adds as many closes as connection attempts.  In release v1.3
    only the clients that connected are closed, each right after its
    command: a call adds as many closes as sessions on which a command
    was sent, and a client whose connect raised is left unclosed.  On a
    network that refuses the first connection, accepts the second and
    raises during the command, and refuses the third, v1.1 closes three
    clients and v1.3 one. *)
Theorem clients_created_and_closed (rel : release) (net : network)
    (self : SSHExecutor) (command : string) (max_attempts_arg : option Z)
    (w : world) :
  (exists new : list event,
     log (snd (execute_command rel net self command max_attempts_arg w))
     = (log w ++ new)%list /\
     clients_paired rel NoClient new = true /\
     clients_closed rel new) /\
  (exists new : list event,
     log (snd (execute_command_capture rel net self command
                 max_attempts_arg w)) = (log w ++ new)%list /\
     clients_paired rel NoClient new = true /\
     clients_closed rel new) /\
  (let connect :=
     EvConnect (Some "10.5.6.100") "2222" "roz" "default_password" 5 in
   log (snd (execute_command V1_1 net_flaky drone "ls" None world0))
   = [connect; EvClose; EvSleep 5;
      connect; EvExec "ls"; EvClose; EvSleep 5;
      connect; EvClose] /\
   log (snd (execute_command V1_3 net_flaky drone "ls" None world0))
   = [connect; EvSleep 5;
      connect; EvExec "ls"; EvClose; EvSleep 5;
      connect]).
Proof.
  assert (Hloop : forall cmd n todo attempt w0,
             exists new : list event,
               log (snd (execute_command_capture_loop rel net self cmd n todo
                           attempt w0)) = (log w0 ++ new)%list /\
               clients_paired rel NoClient new = true /\
               clients_closed rel new).
  { intros cmd n todo attempt w0.
    apply (execute_command_capture_loop_blocks
             (fun new => clients_paired rel NoClient new = true /\
                         clients_closed rel new)).
    - split; [reflexivity|]. unfold clients_closed. destruct rel; cbn; lia.
    - intros a b [Ha1 Ha2] [Hb1 Hb2]. split.
      + apply clients_paired_app; assumption.
      + apply clients_closed_app; assumption.
    - split; [reflexivity|]. unfold clients_closed. destruct rel; cbn; lia.
    - split; [reflexivity|]. unfold clients_closed. destruct rel; cbn; lia.
    - split; [destruct rel; reflexivity|].
      unfold clients_closed. destruct rel; cbn; lia. }
  assert (Hnil : clients_paired rel NoClient [] = true /\ clients_closed rel []).
  { split; [reflexivity|]. unfold clients_closed. destruct rel; cbn; lia. }
  split; [|split].
  - unfold execute_command.
    destruct (unconfigured self).
    + exists []. cbn [ret snd log]. rewrite app_nil_r.
      split; [reflexivity | exact Hnil].
    + rewrite execute_command_loop_capture.
      destruct (Hloop (elevated (password self) command)
                  (Py.or_default max_attempts_arg (max_attempts self))
                  (Z.to_nat (Py.or_default max_attempts_arg
                               (max_attempts self))) 0 w)
        as (new & Hlog & Hnew).
      exists new. split; [|exact Hnew].
      destruct (execute_command_capture_loop rel net self
                  (elevated (password self) command)
                  (Py.or_default max_attempts_arg (max_attempts self))
                  (Z.to_nat (Py.or_default max_attempts_arg
                               (max_attempts self))) 0 w).
      exact Hlog.
  - unfold execute_command_capture.
    destruct (unconfigured self).
    + exists []. cbn [ret snd log]. rewrite app_nil_r.
      split; [reflexivity | exact Hnil].
    + apply Hloop.
  - split; vm_compute; reflexivity.
Qed.

(** ** Utilities *)

Lemma elevated_sync_command (secret stamp : string) :
  elevated secret (sync_command stamp)
  = "echo " ++ secret ++ " | sudo -S date -s " ++ V11.dq ++ stamp ++ V11.dq.
Proof.
  reflexivity.
Qed.

(** X10.  [sync_date_time] sends nothing and fails on a platform whose
    name starts with [win].  On any other platform it is one
    [execute_command] of [sudo date -s "<timestamp>"]: every text it
    sends, for every timestamp, is the elevated form
    [echo <password> | sudo -S date -s "<timestamp>"], sent to the
    current target only; on a configured executor with a positive
    budget whose first connection is made, that text is sent in the
    first session, and when the command then exits the call returns
    whether the exit status is zero. *)
Theorem sync_date_time_elevated (rel : release) (net : network)
    (self : SSHExecutor) (platform stamp : string) (w : world) :
  let r := sync_date_time rel net self platform stamp w in
  let text :=
    "echo " ++ password self ++ " | sudo -S date -s "
    ++ V11.dq ++ stamp ++ V11.dq in
  (Py.startswith "win" platform = true -> r = (false, w)) /\
  (Py.startswith "win" platform = false ->
   r = execute_command rel net self
         ("sudo date -s " ++ V11.dq ++ stamp ++ V11.dq) None w /\
   (unconfigured self = false -> 0 < max_attempts self ->
    connect_at net self (clock w) = ConnOk ->
    (exists rest,
       log (snd r) = (log w ++ session_events self text ++ rest)%list) /\
    (forall (status : Z) (out err : string),
       ssh_exec net (S (clock w)) text = ExecDone status out err ->
       r = (status =? 0,
            {| clock := S (S (clock w));
               log := (log w ++ session_events self text)%list |})))) /\
  exists new : list event,
    log (snd r) = (log w ++ new)%list /\
    transmits_only text new /\
    connects_only (current_ip self) (current_port self) new.
Proof.
  intros r text. unfold r, sync_date_time.
  destruct (Py.startswith "win" platform).
  - split; [reflexivity|]. split; [discriminate|].
    exists []. cbn [ret snd log].
    rewrite app_nil_r. split; [reflexivity|].
    split; [intros c []|intros ip port user secret tmo []].
  - split; [discriminate|]. split.
    + intros _. split; [reflexivity|].
      intros Hconf Hn Hconn. split.
      * destruct (execute_command_first_session rel net self
                    (sync_command stamp) None w Hconf Hn Hconn)
          as (rest & Hrest).
        rewrite elevated_sync_command in Hrest.
        exists rest. exact Hrest.
      * intros status out err Hexec.
        unfold execute_command. rewrite Hconf. cbn [Py.or_default].
        pose proof (execute_command_loop_recovers rel net self
                      (sync_command stamp) (max_attempts self) Hn
                      0 (Z.to_nat (max_attempts self)) w status out err)
          as Hrec.
        rewrite elevated_sync_command in Hrec.
        cbn [attempts_end retried_log all_attempts_raise app] in Hrec.
        replace (max_attempts self - Z.of_nat (Z.to_nat (max_attempts self)))
          with 0 in Hrec by lia.
        apply Hrec; [lia | lia | reflexivity | exact Hconn | exact Hexec].
    + destruct (execute_command_adds rel net self (sync_command stamp) None w)
        as (new & Hlog & Hnew).
      rewrite elevated_sync_command in Hnew.
      exists new. split; [exact Hlog|]. split.
      * exact (session_events_transmit _ _ _ Hnew).
      * exact (session_events_connect _ _ _ Hnew).
Qed.

(** On Linux, with a companion that accepts the connection and runs the
    command, the clock is set in one session and the call succeeds. *)
Lemma sync_date_time_elevated_witness :
  sync_date_time V1_3 (net_exits 0) drone "linux" "2026-01-01 00:00:00"
    world0
  = (true,
     {| clock := 2;
        log := session_events drone
                 ("echo default_password | sudo -S date -s "
                  ++ V11.dq ++ "2026-01-01 00:00:00" ++ V11.dq) |}).
Proof.
  destruct (sync_date_time_elevated V1_3 (net_exits 0) drone "linux"
              "2026-01-01 00:00:00" world0) as (_ & Hrun & _).
  destruct (Hrun eq_refl) as (_ & Hsent).
  destruct (Hsent eq_refl eq_refl eq_refl) as (_ & Hexit).
  exact (Hexit 0 "" "" eq_refl).
Defined.

(** ** File transfer *)

(** X11.  [transfer_file] makes one connection attempt, whatever the
    attempt budget, and succeeds exactly when the executor is
    configured and the connect, [open_sftp], [get] and the close of the
    channel all return; it then hands back the local path, and [None]
    otherwise.  On a configured executor the session client is always
    closed, as the last step; the file-transfer channel is closed only
    after a [get] that returned, so a failed [get] leaves the channel
    to the close of the session. *)
Theorem transfer_file_single_attempt (net : network)
    (sftp : Transfer.channel) (self : SSHExecutor)
    (remote_path local_path : string) (now : nat) :
  let r := Transfer.transfer_file net sftp self remote_path local_path now in
  let steps := snd r in
  (fst (fst r) = true <->
   unconfigured self = false /\ connect_at net self now = ConnOk /\
   Transfer.sftp_open sftp = true /\
   Transfer.sftp_get sftp remote_path local_path = true /\
   Transfer.sftp_close sftp = true) /\
  snd (fst r) = (if fst (fst r) then Some local_path else None) /\
  (unconfigured self = true -> steps = []) /\
  (unconfigured self = false ->
   List.length (filter Transfer.is_session_connect steps) = 1%nat /\
   last steps Transfer.SftpOpen = Transfer.Session EvClose) /\
  (In Transfer.SftpClose steps <->
   In (Transfer.SftpGet remote_path local_path) steps /\
   Transfer.sftp_get sftp remote_path local_path = true).
Proof.
  intros r steps. unfold steps, r, Transfer.transfer_file, unconfigured,
    connect_at.
  cbn [current_ip current_port username password timeout].
  destruct (negb (Py.truthy_opt (current_ip self))
            || negb (Py.truthy (password self))).
  { cbn. repeat split; try discriminate; try tauto; intros; intuition
      congruence. }
  destruct (ssh_connect net now (current_ip self) (current_port self)
              (username self) (password self) (timeout self));
    [destruct (Transfer.sftp_open sftp);
     [destruct (Transfer.sftp_get sftp remote_path local_path);
      [destruct (Transfer.sftp_close sftp)|]|]| |];
    cbn [fst snd filter Transfer.is_session_connect is_connect List.length
         last In];
    repeat split; try discriminate; try reflexivity; try tauto;
    try (intros; intuition congruence).
Qed.

(** ** Configuration file *)

Section ConfigFile.
Import Config.

Lemma dict_contains_app (k : string) (d1 d2 : dict) :
  dict_contains k (d1 ++ d2)%list = dict_contains k d1 || dict_contains k d2.
Proof.
  unfold dict_contains. apply existsb_app.
Qed.

Lemma dict_set_absent (k : string) (v : json) (d : dict) :
  dict_contains k d = false -> dict_set k v d = (d ++ [(k, v)])%list.
Proof.
  induction d as [|[k' v'] d IH]; intros Habs; [reflexivity|].
  cbn [dict_contains existsb fst] in Habs. apply orb_false_elim in Habs.
  destruct Habs as [Hne Hrest].
  cbn [dict_set app]. rewrite Hne. f_equal. apply IH. exact Hrest.
Qed.

Lemma dict_set_contains (k k' : string) (v : json) (d : dict) :
  dict_contains k' (dict_set k v d)
  = dict_contains k' d || String.eqb k k'.
Proof.
  induction d as [|[k0 v0] d IH].
  - cbn. rewrite orb_false_r. reflexivity.
  - cbn [dict_set]. destruct (String.eqb k0 k) eqn:Hk.
    + apply String.eqb_eq in Hk. subst k0.
      cbn [dict_contains existsb fst].
      destruct (String.eqb k k'); [reflexivity|].
      cbn [orb]. rewrite orb_false_r. reflexivity.
    + cbn [dict_contains existsb fst]. fold (dict_contains k' (dict_set k v d)).
      fold (dict_contains k' d). rewrite IH, orb_assoc. reflexivity.
Qed.

Lemma dict_get_app (k : string) (d1 d2 : dict) :
  dict_get k (d1 ++ d2)%list
  = match dict_get k d1 with
    | Some v => Some v
    | None => dict_get k d2
    end.
Proof.
  induction d1 as [|[k' v'] d1 IH]; [reflexivity|].
  cbn [app dict_get]. destruct (String.eqb k' k); [reflexivity | exact IH].
Qed.

Lemma dict_get_contains (k : string) (d : dict) :
  dict_contains k d = match dict_get k d with
                      | Some _ => true
                      | None => false
                      end.
Proof.
  induction d as [|[k' v'] d IH]; [reflexivity|].
  cbn [dict_contains existsb fst dict_get].
  destruct (String.eqb k' k); [reflexivity | exact IH].
Qed.

Lemma dict_get_missing_defaults (k : string) (defaults d : dict) :
  dict_contains k d = false ->
  dict_get k (missing_defaults defaults d) = dict_get k defaults.
Proof.
  intros Habs. induction defaults as [|[k' v'] defaults IH]; [reflexivity|].
  cbn [missing_defaults filter fst dict_get].
  destruct (String.eqb k' k) eqn:Hk.
  - apply String.eqb_eq in Hk. subst k'. rewrite Habs. cbn [negb dict_get].
    rewrite String.eqb_refl. reflexivity.
  - destruct (negb (dict_contains k' d)); [|exact IH].
    cbn [dict_get]. rewrite Hk. exact IH.
Qed.

Lemma ensure_defaults_step (k : string) (v : json) (rest d : dict) :
  ConfigV13.ensure_defaults ((k, v) :: rest) (JObj d)
  = ConfigV13.ensure_defaults rest
      (JObj (if dict_contains k d then d else dict_set k v d)).
Proof.
  cbn [ConfigV13.ensure_defaults py_contains py_setitem].
  destruct (dict_contains k d); reflexivity.
Qed.

Lemma ensure_defaults_dict (defaults d : dict) :
  NoDup (map fst defaults) ->
  ConfigV13.ensure_defaults defaults (JObj d)
  = Some (JObj (d ++ missing_defaults defaults d)%list).
Proof.
  revert d. induction defaults as [|[k v] defaults IH]; intros d Hnodup.
  - cbn. rewrite app_nil_r. reflexivity.
  - cbn [map fst] in Hnodup. inversion Hnodup as [|k0 ks Hnotin Hrest]; subst.
    rewrite ensure_defaults_step.
    cbn [missing_defaults filter fst].
    destruct (dict_contains k d) eqn:Hk; cbn [negb].
    + apply IH. exact Hrest.
    + rewrite dict_set_absent by exact Hk.
      rewrite IH by exact Hrest. rewrite <- app_assoc. cbn [app].
      do 4 f_equal. unfold missing_defaults.
      apply filter_ext_in. intros [k' v'] Hin. cbn [fst].
      rewrite dict_contains_app. cbn [dict_contains existsb fst].
      destruct (String.eqb k k') eqn:Hkk.
      * apply String.eqb_eq in Hkk. subst k'. exfalso. apply Hnotin.
        change k with (fst (k, v')). apply in_map. exact Hin.
      * rewrite !orb_false_r. reflexivity.
Qed.

Lemma default_keys_distinct : NoDup (map fst default_config).
Proof.
  cbn [map fst default_config].
  repeat (constructor;
          [cbn [In]; intros H;
           repeat (destruct H as [H|H]; [discriminate H|]); exact H|]).
  constructor.
Qed.

Lemma setdefault_dict (k : string) (v : json) (d : dict) :
  py_setdefault (JObj d) k v
  = Some (JObj (if dict_contains k d then d else dict_set k v d)).
Proof.
  reflexivity.
Qed.

Lemma legacy_ensure_defaults_dict (d : dict) :
  ConfigV11.ensure_defaults (JObj d)
  = ConfigV13.ensure_defaults default_config (JObj d).
Proof.
  unfold ConfigV11.ensure_defaults, default_config.
  repeat (rewrite ensure_defaults_step;
          rewrite (setdefault_dict _ _ d); cbv beta iota;
          match goal with
          | |- context [ConfigV13.ensure_defaults _ (JObj ?t)] =>
              generalize t
          end;
          clear d; intros d).
  reflexivity.
Qed.

Lemma ensure_defaults_monotone (defaults : dict) (j c : json) (k : string) :
  ConfigV13.ensure_defaults defaults j = Some c ->
  py_contains j k = Some true -> py_contains c k = Some true.
Proof.
  revert j. induction defaults as [|[k0 v0] defaults IH]; intros j Hrun Hk.
  - cbn in Hrun. injection Hrun as <-. exact Hk.
  - cbn [ConfigV13.ensure_defaults] in Hrun.
    destruct (py_contains j k0) as [[|]|]; [eauto| |discriminate].
    destruct j; try discriminate Hrun.
    cbn [py_setitem] in Hrun. apply (IH _ Hrun).
    cbn [py_contains] in *. injection Hk as Hk.
    rewrite dict_set_contains, Hk. reflexivity.
Qed.

Lemma ensure_defaults_contains (defaults : dict) (j c : json) (k : string) :
  ConfigV13.ensure_defaults defaults j = Some c ->
  In k (map fst defaults) -> py_contains c k = Some true.
Proof.
  revert j. induction defaults as [|[k0 v0] defaults IH]; intros j Hrun Hin;
    [contradiction|].
  cbn [map fst In] in Hin. cbn [ConfigV13.ensure_defaults] in Hrun.
  destruct (py_contains j k0) as [[|]|] eqn:Hk0; [| |discriminate].
  - destruct Hin as [<- | Hin]; [|eauto].
    exact (ensure_defaults_monotone _ _ _ _ Hrun Hk0).
  - destruct j; try discriminate Hrun.
    cbn [py_setitem] in Hrun.
    destruct Hin as [<- | Hin]; [|eauto].
    apply (ensure_defaults_monotone _ _ _ _ Hrun).
    cbn [py_contains]. rewrite dict_set_contains, String.eqb_refl.
    rewrite orb_true_r. reflexivity.
Qed.

Lemma ensure_defaults_shape (defaults : dict) (j c : json) :
  ConfigV13.ensure_defaults defaults j = Some c ->
  is_dict c = is_dict j /\ (is_dict j = false -> c = j).
Proof.
  revert j. induction defaults as [|[k0 v0] defaults IH]; intros j Hrun.
  - cbn in Hrun. injection Hrun as <-. split; auto.
  - cbn [ConfigV13.ensure_defaults] in Hrun.
    destruct (py_contains j k0) as [[|]|]; [eauto| |discriminate].
    destruct j; try discriminate Hrun.
    cbn [py_setitem] in Hrun. destruct (IH _ Hrun) as [Hd _].
    cbn [is_dict] in *. split; [exact Hd | discriminate].
Qed.

Lemma ensure_defaults_fixed (defaults : dict) (c : json) :
  (forall k, In k (map fst defaults) -> py_contains c k = Some true) ->
  ConfigV13.ensure_defaults defaults c = Some c.
Proof.
  induction defaults as [|[k0 v0] defaults IH]; intros Hall; [reflexivity|].
  cbn [ConfigV13.ensure_defaults].
  rewrite (Hall k0) by (left; reflexivity).
  apply IH. intros k Hk. apply Hall. right. exact Hk.
Qed.

Lemma default_config_complete : has_all_defaults (JObj default_config).
Proof.
  intros k Hin. cbn [map fst default_config In] in Hin.
  repeat (destruct Hin as [<- | Hin]; [reflexivity|]). contradiction.
Qed.

Lemma load_config_complete (file : config_file) (c : json) :
  ConfigV13.load_config file = Returns c -> has_all_defaults c.
Proof.
  destruct file as [| | | |j]; cbn [ConfigV13.load_config];
    try discriminate;
    try (intros Heq; injection Heq as <-; exact default_config_complete).
  destruct (ConfigV13.ensure_defaults default_config j) as [c'|] eqn:Hrun;
    intros Heq; injection Heq as <-.
  - intros k Hin. exact (ensure_defaults_contains _ _ _ _ Hrun Hin).
  - exact default_config_complete.
Qed.

End ConfigFile.

(** X12.  [load_config] on a file that holds a JSON object, in both
    releases: the members of the file are returned unchanged and in
    their order, followed by the default members whose keys the file
    lacks, in the order of the defaults.  So a value present in the
    file always wins over the default, [null] included, keys unknown to
    the program are kept, and a key missing in the file reads as its
    default. *)
Theorem load_config_fills_defaults (d : Config.dict) :
  let loaded := (d ++ missing_defaults Config.default_config d)%list in
  ConfigV13.load_config (Config.Holds (Config.JObj d))
  = Config.Returns (Config.JObj loaded) /\
  ConfigV11.load_config (Config.Holds (Config.JObj d))
  = Config.Returns (Config.JObj loaded) /\
  forall k : string,
    Config.dict_get k loaded
    = match Config.dict_get k d with
      | Some v => Some v
      | None => Config.dict_get k Config.default_config
      end.
Proof.
  intros loaded.
  assert (Hrun : ConfigV13.ensure_defaults Config.default_config
                   (Config.JObj d) = Some (Config.JObj loaded)).
  { apply ensure_defaults_dict. exact default_keys_distinct. }
  split; [|split].
  - cbn [ConfigV13.load_config]. rewrite Hrun. reflexivity.
  - cbn [ConfigV11.load_config]. rewrite legacy_ensure_defaults_dict, Hrun.
    reflexivity.
  - intros k. unfold loaded. rewrite dict_get_app.
    destruct (Config.dict_get k d) eqn:Hget; [reflexivity|].
    apply dict_get_missing_defaults.
    rewrite dict_get_contains, Hget. reflexivity.
Qed.

(** X13.  [load_config] of v1.3 raises only when the configuration
    directory cannot be created; otherwise it returns a value in which
    the test [k in config] holds for every default key [k].  The value
    is a dict, except when the file holds a JSON array or string in
    which every default key is found: that array or string is then
    returned as the configuration. *)
Theorem load_config_always_complete (file : Config.config_file) :
  match ConfigV13.load_config file with
  | Config.Raises => file = Config.DirectoryUncreatable
  | Config.Returns c =>
      has_all_defaults c /\
      (is_dict c = false ->
       file = Config.Holds c /\
       exists text items, c = Config.JStr text \/ c = Config.JArr items)
  end.
Proof.
  destruct (ConfigV13.load_config file) as [|c] eqn:Hload.
  - destruct file as [| | | |j]; cbn [ConfigV13.load_config] in Hload;
      try discriminate; [reflexivity|].
    destruct (ConfigV13.ensure_defaults Config.default_config j);
      discriminate.
  - split; [exact (load_config_complete file c Hload)|].
    intros Hnot.
    destruct file as [| | | |j]; cbn [ConfigV13.load_config] in Hload;
      try discriminate;
      try (injection Hload as <-; discriminate Hnot).
    destruct (ConfigV13.ensure_defaults Config.default_config j)
      as [c'|] eqn:Hrun; injection Hload as <-; [|discriminate Hnot].
    destruct (ensure_defaults_shape _ _ _ Hrun) as [Hshape Hsame].
    rewrite Hnot in Hshape. symmetry in Hshape.
    rewrite (Hsame Hshape). split; [reflexivity|].
    rewrite (Hsame Hshape) in Hrun.
    destruct j as [| | | |s|items|]; try discriminate Hrun;
      try discriminate Hshape.
    + exists s, []. left. reflexivity.
    + exists "", items. right. reflexivity.
Qed.

(** X14.  The two releases of [load_config] compared.  v1.1 raises
    exactly when the directory cannot be created, when the file cannot
    be read, and when the file holds JSON that is not an object; v1.3
    raises only in the first case and returns a complete configuration
    in the other two (the default one for a file that cannot be read).
    Whatever v1.1 returns, v1.3 returns too. *)
Theorem load_config_releases (file : Config.config_file) :
  (ConfigV11.load_config file = Config.Raises <->
   file = Config.DirectoryUncreatable \/
   file = Config.Unreadable \/
   exists j, file = Config.Holds j /\ is_dict j = false) /\
  (ConfigV13.load_config file = Config.Raises <->
   file = Config.DirectoryUncreatable) /\
  (forall c, ConfigV11.load_config file = Config.Returns c ->
             ConfigV13.load_config file = Config.Returns c) /\
  (file = Config.Unreadable ->
   ConfigV13.load_config file
   = Config.Returns (Config.JObj Config.default_config)) /\
  (forall j, file = Config.Holds j -> is_dict j = false ->
             exists c, ConfigV13.load_config file = Config.Returns c /\
                       has_all_defaults c).
Proof.
  assert (Hnot : forall j, is_dict j = false ->
                           ConfigV11.ensure_defaults j = None).
  { intros j Hj. destruct j; try reflexivity. discriminate Hj. }
  assert (H13 : forall j, exists c,
              ConfigV13.load_config (Config.Holds j) = Config.Returns c).
  { intros j. cbn [ConfigV13.load_config].
    destruct (ConfigV13.ensure_defaults Config.default_config j);
      eexists; reflexivity. }
  split; [|split; [|split; [|split]]].
  - destruct file as [| | | |j]; cbn [ConfigV11.load_config].
    + split; auto.
    + split; [discriminate|].
      intros [H|[H|(j & H & _)]]; discriminate H.
    + split; auto.
    + split; [discriminate|].
      intros [H|[H|(j & H & _)]]; discriminate H.
    + destruct (is_dict j) eqn:Hj.
      * destruct j as [| | | | | |d]; try discriminate Hj.
        rewrite legacy_ensure_defaults_dict.
        rewrite (ensure_defaults_dict Config.default_config d
                   default_keys_distinct).
        split; [discriminate|].
        intros [H|[H|(j & H & Hd)]]; try discriminate H.
        injection H as <-. discriminate Hd.
      * rewrite (Hnot j Hj). split; [|reflexivity].
        intros _. right. right. exists j. split; [reflexivity | exact Hj].
  - destruct file as [| | | |j]; cbn [ConfigV13.load_config];
      try (split; [discriminate|intros H; discriminate H]).
    + split; reflexivity.
    + destruct (ConfigV13.ensure_defaults Config.default_config j);
        split; try discriminate; intros H; discriminate H.
  - intros c. destruct file as [| | | |j]; cbn [ConfigV11.load_config];
      try discriminate; try (intros H; exact H).
    destruct (is_dict j) eqn:Hj.
    + destruct j as [| | | | | |d]; try discriminate Hj.
      rewrite legacy_ensure_defaults_dict.
      cbn [ConfigV13.load_config].
      rewrite (ensure_defaults_dict Config.default_config d
                 default_keys_distinct).
      intros H. exact H.
    + rewrite (Hnot j Hj). discriminate.
  - intros ->. reflexivity.
  - intros j -> Hj. destruct (H13 j) as (c & Hc).
    exists c. split; [exact Hc|].
    exact (load_config_complete _ _ Hc).
Qed.

(** X15.  Saving and loading again changes nothing: a configuration
    returned by [load_config] and written back by [save_config] is
    returned as it is by the next [load_config], in both releases. *)
Theorem load_config_after_save (file : Config.config_file)
    (c : Config.json) :
  (ConfigV13.load_config file = Config.Returns c ->
   ConfigV13.load_config (Config.save_config c) = Config.Returns c) /\
  (ConfigV11.load_config file = Config.Returns c ->
   ConfigV11.load_config (Config.save_config c) = Config.Returns c).
Proof.
  split.
  - intros Hload. cbn [Config.save_config ConfigV13.load_config].
    rewrite ensure_defaults_fixed; [reflexivity|].
    exact (load_config_complete file c Hload).
  - intros Hload.
    assert (Hc : exists d, c = Config.JObj d /\ has_all_defaults c).
    { destruct file as [| | | |j]; cbn [ConfigV11.load_config] in Hload;
        try discriminate;
        try (injection Hload as <-; eexists; split;
             [reflexivity | exact default_config_complete]).
      destruct j as [|b|n|q|s|items|d]; try discriminate Hload.
      rewrite legacy_ensure_defaults_dict in Hload.
      destruct (ConfigV13.ensure_defaults Config.default_config
                  (Config.JObj d)) as [c'|] eqn:Hrun; [|discriminate].
      injection Hload as <-.
      destruct (ensure_defaults_shape _ _ _ Hrun) as [Hshape _].
      destruct c' as [| | | | | |d']; try discriminate Hshape.
      exists d'. split; [reflexivity|].
      intros k Hin. exact (ensure_defaults_contains _ _ _ _ Hrun Hin). }
    destruct Hc as (d & -> & Hall).
    cbn [Config.save_config ConfigV11.load_config].
    rewrite legacy_ensure_defaults_dict.
    rewrite ensure_defaults_fixed by exact Hall. reflexivity.
Qed.

(** A file that names the user only. *)
Lemma load_config_after_save_witness :
  let file := Config.Holds (Config.JObj [("username", Config.JStr "pilot")]) in
  let c := Config.JObj
             (("username", Config.JStr "pilot")
              :: missing_defaults Config.default_config
                   [("username", Config.JStr "pilot")]) in
  ConfigV13.load_config (Config.save_config c) = Config.Returns c /\
  ConfigV11.load_config (Config.save_config c) = Config.Returns c.
Proof.
  split.
  - apply (proj1 (load_config_after_save
                    (Config.Holds
                       (Config.JObj [("username", Config.JStr "pilot")])) _)).
    reflexivity.
  - apply (proj2 (load_config_after_save
                    (Config.Holds
                       (Config.JObj [("username", Config.JStr "pilot")])) _)).
    reflexivity.
Defined.

(** ** Readings of the temperature pipelines *)

Section Readings.

Import Text Num.
Local Open Scope Q_scope.

Lemma round_1f_reading (v : Q) :
  plausible v = true -> is_reading (round_1f v).
Proof.
  intros Hv. pose proof (round_half_even_plausible v Hv) as Hz.
  destruct (tenths_fixed _ Hz) as [Hp _]. apply plausible_iff in Hp.
  unfold is_reading. fold (round_1f v) in Hp.
  split; [apply Hp|]. split; [apply Hp|].
  exists (round_half_even (v * 10)). split; [exact Hz | reflexivity].
Qed.

Lemma tier_a_reading (proc_out : string) (t : Q) :
  V13.tier_a proc_out = Some t -> is_reading t.
Proof.
  unfold V13.tier_a.
  destruct (V13.thermal_temps proc_out) as [|x xs] eqn:Htemps;
    [discriminate|].
  intros Heq. injection Heq as <-. apply round_1f_reading.
  pose proof (py_max_in x xs) as Hin. rewrite <- Htemps in Hin.
  apply thermal_temps_spec in Hin.
  destruct Hin as (g & _ & _ & Hlo & Hhi).
  apply plausible_iff. split; assumption.
Qed.

Lemma tier_b_reading (out : string) (t : Q) :
  V13.tier_b out = Some (Some t) -> is_reading t.
Proof.
  unfold V13.tier_b.
  destruct (search_celsius out) as [g|]; [|discriminate].
  destruct (py_float g) as [val|]; [|discriminate].
  destruct (plausible val) eqn:Hval; [|discriminate].
  intros Heq. injection Heq as <-. apply round_1f_reading. exact Hval.
Qed.

Lemma tier_c_reading (val_s : string) (t : Q) :
  V13.tier_c val_s = Some t -> is_reading t.
Proof.
  unfold V13.tier_c.
  destruct (Py.truthy val_s); [|discriminate].
  destruct (py_float val_s) as [v|]; [|discriminate].
  destruct (plausible (if Qle_bool v 200 then v else fdiv v 1000)) eqn:Hv;
    [|discriminate].
  intros Heq. injection Heq as <-. apply round_1f_reading. exact Hv.
Qed.

Lemma legacy_tier_a_reading (offset scale : Q) (res : capture) (t : Q) :
  V11.tier_a offset scale res = Some t -> is_reading t.
Proof.
  destruct res as [[[ok out] err] status]. unfold V11.tier_a.
  destruct (ok && Py.truthy (strip out)); [|discriminate].
  destruct (py_float (strip out)) as [raw|]; [|discriminate].
  cbv zeta.
  match goal with
  | |- (if plausible ?v then _ else _) = _ -> _ =>
      destruct (plausible v) eqn:Hv; [|discriminate]
  end.
  intros Heq. injection Heq as <-. apply round_1f_reading. exact Hv.
Qed.

Lemma legacy_tier_b_lines_reading (lines : list string) (t : Q) :
  V11.tier_b_lines lines = Some t -> is_reading t.
Proof.
  induction lines as [|val_s rest IH]; [discriminate|].
  cbn [V11.tier_b_lines].
  destruct (py_float (strip val_s)) as [val|]; [|exact IH].
  cbv zeta.
  destruct (plausible (if Qle_bool val 200 then val else fdiv val 1000))
    eqn:Hv; [|exact IH].
  intros Heq. injection Heq as <-. apply round_1f_reading. exact Hv.
Qed.

(** Formatting a reading with one decimal gives the reading itself. *)
Lemma reading_round_trip (t : Q) : is_reading t -> round_1f t = t.
Proof.
  intros (_ & _ & z & Hz & ->). apply tenths_fixed. exact Hz.
Qed.

End Readings.

(** X16.  Every temperature handed out by [get_wifi_module_temperature],
    in both releases and whichever tier produced it, lies in
    [-40, 130] and is the float of a whole number of tenths of a degree,
    for every
    executor, network and remote output; formatting it with one
    decimal, as the window does for its label, gives the reading
    itself. *)
Theorem readings_in_range (shlex_quote : string -> string)
    (net : network) (self : SSHExecutor) (w : world)
    (session : option V13.remote_host) (t : Q) :
  (V13.get_wifi_module_temperature self session = Some t ->
   is_reading t /\ Num.round_1f t = t) /\
  (fst (V11.get_wifi_module_temperature shlex_quote net self w) = Some t ->
   is_reading t /\ Num.round_1f t = t).
Proof.
  assert (H13 : V13.get_wifi_module_temperature self session = Some t ->
                is_reading t).
  { unfold V13.get_wifi_module_temperature, V13.cascade.
    destruct session as [remote|]; [|discriminate].
    destruct (V13.pick_iface self remote) as [iface|]; [|discriminate].
    destruct (if Py.truthy iface
              then match V13.safe_read remote (V13.ProbeThermalState iface)
                   with
                   | Some proc_out => Some (V13.tier_a proc_out)
                   | None => None
                   end
              else Some None) as [[a|]|] eqn:Ha; [| |discriminate].
    + intros Heq. injection Heq as <-.
      destruct (Py.truthy iface); [|discriminate].
      destruct (V13.safe_read remote (V13.ProbeThermalState iface))
        as [proc_out|]; [|discriminate].
      injection Ha as Ha. exact (tier_a_reading _ _ Ha).
    + destruct (V13.safe_read remote V13.ProbeWfbCli) as [out|];
        [|discriminate].
      destruct (V13.tier_b out) as [[b|]|] eqn:Hb; [| |discriminate].
      * intros Heq. injection Heq as <-. exact (tier_b_reading _ _ Hb).
      * destruct (V13.safe_read remote V13.ProbeSysfsHwmon) as [val_s|];
          [|discriminate].
        apply tier_c_reading. }
  assert (H11 : fst (V11.get_wifi_module_temperature shlex_quote net self w)
                = Some t -> is_reading t).
  { unfold V11.get_wifi_module_temperature, bind. cbv zeta.
    destruct (execute_command_capture V1_1 net self
                (V11.thermal_cmd shlex_quote
                   (Py.or_default (wifi_iface self) "None")) None w)
      as [a w1].
    destruct (V11.tier_a (Num.to_float (wifi_offset self))
                (Num.to_float (wifi_scale self)) a) as [ta|] eqn:Ha.
    + cbn. intros Heq. injection Heq as <-.
      exact (legacy_tier_a_reading _ _ _ _ Ha).
    + destruct (execute_command_capture V1_1 net self V11.sysfs_cmd None w1)
        as [b w2].
      cbn [ret fst]. destruct b as [[[ok out] err] status].
      unfold V11.tier_b.
      destruct (ok && Py.truthy out); [|discriminate].
      apply legacy_tier_b_lines_reading. }
  split; intros Hget.
  - split; [exact (H13 Hget) | exact (reading_round_trip _ (H13 Hget))].
  - split; [exact (H11 Hget) | exact (reading_round_trip _ (H11 Hget))].
Qed.

(** The readings 52.0 of v1.3 and 65.0 of v1.1. *)
Lemma readings_in_range_witness :
  (is_reading 52 /\ Num.round_1f 52 = 52%Q) /\
  (is_reading 65 /\ Num.round_1f 65 = 65%Q).
Proof.
  split.
  - apply (proj1 (readings_in_range (fun s => s) net_dead drone world0
                    (Some (Samples.remote_thermal
                             "temperature: 45 temperature: 52")) 52)).
    vm_compute. reflexivity.
  - apply (proj2 (readings_in_range (fun s => s) (Samples.net_prints "58")
                    drone world0 None 65)).
    vm_compute. reflexivity.
Defined.

(** ** Numbers matched by the scanners always convert *)

Section Conversion.

Import Text Num.















End Conversion.


(** ** The sysfs fallback *)

Section Sysfs.

Import Text Num.
Local Open Scope Q_scope.

Lemma tier_c_value (val_s : string) (v : Q) :
  py_float val_s = Some v ->
  V13.tier_c val_s
  = if plausible (if Qle_bool v 200 then v else fdiv v 1000)
    then Some (round_1f (if Qle_bool v 200 then v else fdiv v 1000))
    else None.
Proof.
  intros Hparse. unfold V13.tier_c.
  rewrite (py_float_nonempty _ _ Hparse), Hparse. reflexivity.
Qed.

(** What [float] returns is a float. *)
Lemma py_float_is_float (s : string) (v : Q) :
  py_float s = Some v -> is_float v.
Proof.
  unfold py_float.
  destruct (take_sign (float_rstrip (float_lstrip s))) as [neg s1].
  destruct (span_digitpart s1) as [ip s2].
  destruct (match s2 with
            | String c s' =>
                if is_char 46 c then span_digitpart s' else (EmptyString, s2)
            | EmptyString => (EmptyString, s2)
            end) as [fp s3].
  destruct (ip ++ fp)%string; [discriminate|].
  destruct (exponent s3) as [e|]; [|discriminate].
  intros Heq. injection Heq as <-. eexists. reflexivity.
Qed.

(** A float above 200 taken as millidegrees is plausible up to 130000
    and not beyond. *)
Lemma millidegrees_plausible (v : Q) :
  is_float v -> 200 < v ->
  plausible (fdiv v 1000) = if Qle_bool v 130000 then true else false.
Proof.
  intros Hfloat Hlo.
  assert (H1000 : is_finite 1000 = true) by (vm_compute; reflexivity).
  destruct (is_finite v) eqn:Hfin.
  - destruct (float_arithmetic v 1000 Hfin H1000) as (_ & _ & ->).
    destruct (Qle_bool v 130000) eqn:Hle.
    + apply Qle_bool_iff in Hle. apply plausible_iff. split.
      * assert (H : to_float (200 / 1000) <= to_float (v / 1000)).
        { apply to_float_mono. unfold Qdiv.
          apply Qmult_le_compat_r; [lra | discriminate]. }
        assert (Hc : -40 <= to_float (200 / 1000))
          by (vm_compute; discriminate).
        lra.
      * assert (H : to_float (v / 1000) <= to_float (130000 / 1000)).
        { apply to_float_mono. unfold Qdiv.
          apply Qmult_le_compat_r; [lra | discriminate]. }
        assert (Hc : to_float (130000 / 1000) <= 130)
          by (vm_compute; discriminate).
        lra.
    + assert (Hgt : 130000 < v).
      { apply Qnot_le_lt. intros H. apply Qle_bool_iff in H. congruence. }
      pose proof (float_above_130000 v Hfloat Hgt) as Hnext.
      apply not_true_is_false. intros Hp. apply plausible_iff in Hp.
      assert (H : to_float ((130000 + (1 # 68719476736)) / 1000)
                  <= to_float (v / 1000)).
      { apply to_float_mono. unfold Qdiv.
        apply Qmult_le_compat_r; [exact Hnext | discriminate]. }
      assert (Hc : 130 < to_float ((130000 + (1 # 68719476736)) / 1000))
        by (vm_compute; reflexivity).
      lra.
  - destruct (float_not_finite v 1000 Hfin) as (_ & _ & ->).
    assert (Hbig : ~ v <= 130000).
    { intros Hle.
      assert (Hf : is_finite v = true).
      { apply is_finite_iff. split.
        - apply Qlt_trans with 0; [vm_compute; reflexivity | lra].
        - apply Qle_lt_trans with 130000; [exact Hle|].
          vm_compute. reflexivity. }
      congruence. }
    destruct (Qle_bool v 130000) eqn:Hle;
      [apply Qle_bool_iff in Hle; contradiction|].
    vm_compute. reflexivity.
Qed.

End Sysfs.

(** X18.  The sysfs fallback of v1.3 reads the float [v] of the raw
    text as degrees when [v <= 200] and as millidegrees above.  So a
    value in [-40, 130] is returned (formatted with one decimal), a
    value above 200 and up to 130000 is returned divided by 1000 in
    float arithmetic, and every other value is rejected: below -40, in
    the gap from 130 to 200, above 130000.  In particular a sensor that
    reports millidegrees yields no reading at or below 0.2 degrees, nor
    below zero; 45450 reads as 45.5, and the text 200.00000000000001,
    whose float is 200.0, is rejected. *)
Theorem tier_c_ranges (val_s : string) (v : Q) :
  Num.py_float val_s = Some v ->
  ((-40 <= v)%Q /\ (v <= 130)%Q ->
   V13.tier_c val_s = Some (Num.round_1f v)) /\
  ((200 < v)%Q /\ (v <= 130000)%Q ->
   V13.tier_c val_s = Some (Num.round_1f (Num.fdiv v 1000)) /\
   Num.fdiv v 1000 = Num.to_float (v / 1000)) /\
  ((v < -40)%Q \/ ((130 < v)%Q /\ (v <= 200)%Q) \/ (130000 < v)%Q ->
   V13.tier_c val_s = None).
Proof.
  intros Hparse. rewrite (tier_c_value val_s v Hparse).
  pose proof (py_float_is_float _ _ Hparse) as Hfloat.
  destruct (Qle_bool v 200) eqn:Hle.
  - apply Qle_bool_iff in Hle.
    destruct (Num.plausible v) eqn:Hp.
    + apply plausible_iff in Hp. destruct Hp as [Hlo Hhi].
      split; [reflexivity|]. split.
      * intros [Hgt _]. exfalso. lra.
      * intros [Hlt | [[Hgt _] | Hgt]]; exfalso; lra.
    + assert (Hout : ~ ((-40 <= v)%Q /\ (v <= 130)%Q)).
      { intros Hin. apply plausible_iff in Hin. congruence. }
      split; [intros Hin; contradiction|]. split.
      * intros [Hgt _]. exfalso. lra.
      * reflexivity.
  - assert (Hgt : (200 < v)%Q).
    { apply Qnot_le_lt. intros Hle'. apply Qle_bool_iff in Hle'. congruence. }
    rewrite (millidegrees_plausible v Hfloat Hgt).
    destruct (Qle_bool v 130000) eqn:Hup.
    + apply Qle_bool_iff in Hup.
      split; [intros [_ Hhi']; exfalso; lra|]. split.
      * intros _. split; [reflexivity|].
        apply float_arithmetic; [|vm_compute; reflexivity].
        apply is_finite_iff. split.
        -- apply Qlt_trans with 0%Q; [vm_compute; reflexivity | lra].
        -- apply Qle_lt_trans with 130000%Q; [exact Hup|].
           vm_compute. reflexivity.
      * intros [Hlt | [[_ Hle'] | Hbig]]; exfalso; lra.
    + assert (Hbig : (130000 < v)%Q).
      { apply Qnot_le_lt. intros H. apply Qle_bool_iff in H. congruence. }
      split; [intros [_ Hhi']; exfalso; lra|]. split.
      * intros [_ Hhi']. exfalso. lra.
      * reflexivity.
Qed.

(** 45231 millidegrees read as 45.2 degrees and 45450 as 45.5; 150 is
    in the gap, and so is the float of 200.00000000000001. *)
Lemma tier_c_ranges_witness :
  V13.tier_c "45231" = Some (Num.to_float 45.2) /\
  V13.tier_c "45450" = Some (Num.to_float 45.5) /\
  V13.tier_c "150" = None /\
  V13.tier_c "200.00000000000001" = None /\
  V13.tier_c "-5000" = None.
Proof.
  assert (H1 : Num.py_float "45231" = Some 45231%Q)
    by (vm_compute; reflexivity).
  assert (H2 : Num.py_float "45450" = Some 45450%Q)
    by (vm_compute; reflexivity).
  assert (H3 : Num.py_float "150" = Some 150%Q)
    by (vm_compute; reflexivity).
  assert (H4 : Num.py_float "200.00000000000001" = Some 200%Q)
    by (vm_compute; reflexivity).
  assert (H5 : Num.py_float "-5000" = Some (-5000)%Q)
    by (vm_compute; reflexivity).
  split; [|split; [|split; [|split]]].
  - assert (R : Num.round_1f (Num.fdiv 45231 1000) = Num.to_float 45.2)
      by (vm_compute; reflexivity).
    rewrite <- R.
    apply (proj1 (proj2 (tier_c_ranges "45231" 45231 H1))).
    split; [reflexivity | discriminate].
  - assert (R : Num.round_1f (Num.fdiv 45450 1000) = Num.to_float 45.5)
      by (vm_compute; reflexivity).
    rewrite <- R.
    apply (proj1 (proj2 (tier_c_ranges "45450" 45450 H2))).
    split; [reflexivity | discriminate].
  - apply (proj2 (proj2 (tier_c_ranges "150" 150 H3))).
    right. left. split; [reflexivity | discriminate].
  - apply (proj2 (proj2 (tier_c_ranges "200.00000000000001" 200 H4))).
    right. left. split; [reflexivity | discriminate].
  - apply (proj2 (proj2 (tier_c_ranges "-5000" (-5000) H5))).
    left. reflexivity.
Defined.

(** X19.  The sysfs fallback of v1.1 applies the rule of tier C of v1.3
    to each line of the output, stripped, and returns the reading of the
    first line that has one; lines that do not convert or whose value is
    rejected are skipped. *)
Theorem legacy_fallback_first_line (lines : list string) :
  V11.tier_b_lines lines
  = first_some (fun line => V13.tier_c (Text.strip line)) lines.
Proof.
  induction lines as [|val_s rest IH]; [reflexivity|].
  cbn [V11.tier_b_lines first_some].
  destruct (Num.py_float (Text.strip val_s)) as [v|] eqn:Hparse.
  - rewrite (tier_c_value _ _ Hparse). cbv zeta.
    destruct (Num.plausible
                (if Qle_bool v 200 then v else Num.fdiv v 1000));
      [reflexivity | exact IH].
  - unfold V13.tier_c. rewrite Hparse.
    destruct (Py.truthy (Text.strip val_s)); exact IH.
Qed.

(** ** The attempt budget *)

Section Budget.

Variable rel : release.
Variable net : network.
Variable self : SSHExecutor.
Variable command : string.
Variable n : Z.
Hypothesis n_pos : 0 < n.

Lemma execute_command_capture_loop_budget (todo : nat) (w : world) :
  Z.of_nat todo <= n ->
  exists new : list event,
    log (snd (execute_command_capture_loop rel net self command n todo
                (n - Z.of_nat todo) w)) = (log w ++ new)%list /\
    (count is_connect new <= todo)%nat /\
    (count is_sleep new <= todo - 1)%nat /\
    count is_socket new = 0%nat.
Proof.
  revert w. induction todo as [|todo IH]; intros w Hle.
  - exists []. cbn. rewrite app_nil_r. repeat split; lia.
  - cbn [execute_command_capture_loop]. unfold execute_command_capture_try.
    run. rewrite last_iteration by exact n_pos.
    replace (n - Z.of_nat (S todo) + 1) with (n - Z.of_nat todo) by lia.
    assert (Hstep : forall (blk : list event) (now : nat),
               count is_connect blk = 1%nat ->
               count is_sleep blk = 0%nat ->
               count is_socket blk = 0%nat ->
               exists new : list event,
                 log (snd (((if negb (Nat.eqb todo 0) then sleep 5
                             else ret tt) ;;;
                            execute_command_capture_loop rel net self command
                              n todo (n - Z.of_nat todo))
                           {| clock := now; log := (log w ++ blk)%list |}))
                 = (log w ++ new)%list /\
                 (count is_connect new <= S todo)%nat /\
                 (count is_sleep new <= S todo - 1)%nat /\
                 count is_socket new = 0%nat).
    { intros blk now Hc Hs Hk.
      destruct todo as [|todo']; cbn [Nat.eqb negb]; run.
      - exists blk. cbn [execute_command_capture_loop ret snd log].
        repeat split; try lia.
      - match goal with
        | |- context [execute_command_capture_loop _ _ _ _ _ _ _ ?w'] =>
            destruct (IH w') as (new & Hlog & Hcn & Hsn & Hkn); [lia|]
        end.
        cbn [log] in Hlog.
        exists (blk ++ [EvSleep 5] ++ new)%list.
        split; [rewrite Hlog, <- !app_assoc; reflexivity|].
        rewrite !count_app, Hc, Hs, Hk.
        cbn [count filter is_connect is_sleep is_socket List.length].
        repeat split; lia. }
    destruct (ssh_connect net (clock w) (current_ip self) (current_port self)
                (username self) (password self) (timeout self)).
    + run.
      destruct (ssh_exec net (S (clock w)) command) as [|status out err].
      * rewrite <- !app_assoc. cbn [app]. apply Hstep; reflexivity.
      * run. eexists. rewrite <- !app_assoc. cbn [app].
        split; [reflexivity|]. cbn. repeat split; lia.
    + destruct rel; cbn [closes_unconnected_client]; run;
        rewrite <- ?app_assoc; cbn [app]; apply Hstep; reflexivity.
    + destruct rel; cbn [closes_unconnected_client]; run;
        rewrite <- ?app_assoc; cbn [app]; apply Hstep; reflexivity.
Qed.

End Budget.

Lemma execute_command_budget (rel : release) (net : network)
    (self : SSHExecutor) (command : string) (max_attempts_arg : option Z)
    (w : world) :
  let n := Z.to_nat (Py.or_default max_attempts_arg (max_attempts self)) in
  exists new : list event,
    log (snd (execute_command rel net self command max_attempts_arg w))
    = (log w ++ new)%list /\
    (count is_connect new <= n)%nat /\
    (count is_sleep new <= n - 1)%nat /\
    count is_socket new = 0%nat.
Proof.
  intros n. unfold execute_command.
  assert (Hnil : exists new : list event,
             log w = (log w ++ new)%list /\
             (count is_connect new <= n)%nat /\
             (count is_sleep new <= n - 1)%nat /\
             count is_socket new = 0%nat).
  { exists []. rewrite app_nil_r. cbn. repeat split; lia. }
  destruct (unconfigured self); [exact Hnil|].
  rewrite execute_command_loop_capture.
  destruct (Z_lt_le_dec 0 (Py.or_default max_attempts_arg (max_attempts self)))
    as [Hpos | Hneg].
  - pose proof (execute_command_capture_loop_budget rel net self
                  (elevated (password self) command) _ Hpos
                  (Z.to_nat (Py.or_default max_attempts_arg
                               (max_attempts self))) w) as Hloop.
    rewrite Z2Nat.id in Hloop by lia.
    replace (Py.or_default max_attempts_arg (max_attempts self)
             - Py.or_default max_attempts_arg (max_attempts self))
      with 0 in Hloop by lia.
    destruct Hloop as (new & Hlog & Hrest); [lia|].
    exists new. split; [|exact Hrest].
    destruct (execute_command_capture_loop rel net self
                (elevated (password self) command)
                (Py.or_default max_attempts_arg (max_attempts self))
                (Z.to_nat (Py.or_default max_attempts_arg
                             (max_attempts self))) 0 w).
    exact Hlog.
  - assert (Hz : Z.to_nat (Py.or_default max_attempts_arg (max_attempts self))
                 = 0%nat) by lia.
    rewrite Hz. exact Hnil.
Qed.

(** X20.  The attempt budget bounds every call of [execute_command] and
    of [execute_command_capture], whatever the network does: at most
    [max_attempts] connection attempts, at most [max_attempts - 1]
    sleeps, and no reachability probe.  With a budget of one there is
    one attempt and no sleep. *)
Theorem execute_command_within_budget (rel : release) (net : network)
    (self : SSHExecutor) (command : string) (max_attempts_arg : option Z)
    (w : world) :
  let n := Z.to_nat (Py.or_default max_attempts_arg (max_attempts self)) in
  (exists new : list event,
     log (snd (execute_command rel net self command max_attempts_arg w))
     = (log w ++ new)%list /\
     (count is_connect new <= n)%nat /\
     (count is_sleep new <= n - 1)%nat /\
     count is_socket new = 0%nat) /\
  (exists new : list event,
     log (snd (execute_command_capture rel net self command
                 max_attempts_arg w)) = (log w ++ new)%list /\
     (count is_connect new <= n)%nat /\
     (count is_sleep new <= n - 1)%nat /\
     count is_socket new = 0%nat).
Proof.
  intros n. split; [apply execute_command_budget|].
  unfold execute_command_capture.
  assert (Hnil : exists new : list event,
             log w = (log w ++ new)%list /\
             (count is_connect new <= n)%nat /\
             (count is_sleep new <= n - 1)%nat /\
             count is_socket new = 0%nat).
  { exists []. rewrite app_nil_r. cbn. repeat split; lia. }
  destruct (unconfigured self); [exact Hnil|].
  destruct (Z_lt_le_dec 0 (Py.or_default max_attempts_arg (max_attempts self)))
    as [Hpos | Hneg].
  - pose proof (execute_command_capture_loop_budget rel net self command _
                  Hpos (Z.to_nat (Py.or_default max_attempts_arg
                                    (max_attempts self))) w) as Hloop.
    rewrite Z2Nat.id in Hloop by lia.
    replace (Py.or_default max_attempts_arg (max_attempts self)
             - Py.or_default max_attempts_arg (max_attempts self))
      with 0 in Hloop by lia.
    apply Hloop. lia.
  - assert (Hz : Z.to_nat (Py.or_default max_attempts_arg (max_attempts self))
                 = 0%nat) by lia.
    rewrite Hz. exact Hnil.
Qed.

(** ** The application window: power actions *)

Section PowerActions.

Import App.

Variable net : network.

Lemma set_policy_restore (self : SSHExecutor) (t n : Z) :
  set_policy (set_policy self t n) (timeout self) (max_attempts self) = self.
Proof.
  destruct self. reflexivity.
Qed.

Lemma execute_command_all_executor (rel : release) (self : SSHExecutor)
    (command : string) (w : world) :
  snd (fst (execute_command_all rel net self command w)) = self.
Proof.
  unfold execute_command_all, bind.
  destruct (execute_command rel net self command None w) as [primary w1].
  destruct (Py.truthy_opt (secondary_ip self)); [|reflexivity].
  destruct (execute_command rel net
              (set_current self (secondary_ip self) (secondary_port self))
              command None w1) as [secondary w2].
  cbn [ret fst snd]. apply set_current_restore.
Qed.

Lemma execute_command_one_attempt (rel : release) (self : SSHExecutor)
    (command : string) (w : world) :
  max_attempts self = 1 ->
  exists new : list event,
    log (snd (execute_command rel net self command None w))
    = (log w ++ new)%list /\ one_attempt new.
Proof.
  intros Hone.
  destruct (execute_command_budget rel net self command None w)
    as (new & Hlog & Hc & Hs & Hk).
  cbn [Py.or_default] in Hc, Hs. rewrite Hone in Hc, Hs.
  exists new. split; [exact Hlog|]. unfold one_attempt.
  cbn in Hc, Hs. repeat split; lia.
Qed.

Lemma execute_relay_command_one_attempt (self : SSHExecutor)
    (station : Relay.endpoint) (command : string) (w : world) :
  max_attempts self = 1 ->
  exists new : list event,
    log (snd (Relay.execute_relay_command net self station command None w))
    = (log w ++ new)%list /\ one_attempt new.
Proof.
  intros Hone. rewrite execute_relay_command_as_companion.
  apply execute_command_one_attempt. exact Hone.
Qed.


Lemma update_connection_status_fields (app : state)
    (status_text status_color ip_text ip_color : string) :
  let app' := update_connection_status app status_text status_color ip_text
                ip_color in
  ssh_executor app' = ssh_executor app /\
  relay app' = relay app /\
  is_rebooting_or_shutting_down app' = is_rebooting_or_shutting_down app /\
  connection_check_enabled app' = connection_check_enabled app.
Proof.
  unfold update_connection_status.
  destruct (String.eqb (lower status_color) "green");
    [|destruct (String.eqb (lower status_color) "red")];
    repeat split.
Qed.

Lemma count_zero_not_in (p : event -> bool) (l : list event) (e : event) :
  count p l = 0%nat -> In e l -> p e = false.
Proof.
  unfold count. induction l as [|x l IH]; intros Hz Hin; [contradiction|].
  cbn [filter] in Hz. destruct (p x) eqn:Hx; [discriminate Hz|].
  destruct Hin as [<- | Hin]; [exact Hx | exact (IH Hz Hin)].
Qed.

(** The body of the four power actions, for any way [run] of sending
    the command that keeps the executor and makes [k] attempts at
    most. *)
Lemma power_action_spec (status_text : string)
    (run : state -> M (bool * SSHExecutor)) (wait : Z) (k : nat)
    (app : state) (w : world) :
  wait <> 5 ->
  (forall app2 w2,
     max_attempts (ssh_executor app2) = 1 ->
     snd (fst (run app2 w2)) = ssh_executor app2 /\
     exists new : list event,
       log (snd (run app2 w2)) = (log w2 ++ new)%list /\
       (count is_connect new <= k)%nat /\
       count is_sleep new = 0%nat /\
       count is_socket new = 0%nat) ->
  let r := power_action net status_text run wait app w in
  is_rebooting_or_shutting_down (fst r) = true /\
  ssh_executor (fst r) = ssh_executor app /\
  relay (fst r) = relay app /\
  exists new : list event,
    log (snd r) = (log w ++ new)%list /\
    (count is_connect new <= k + 1)%nat /\
    (count is_sleep new <= 1)%nat /\
    count is_socket new = 0%nat /\
    ~ In (EvSleep 5) new.
Proof.
  intros Hwait Hrun r. unfold r, power_action, bind.
  destruct (update_connection_status_fields (set_rebooting app true)
              status_text "gray" "Drone IP: Temporarily Unavailable" "gray")
    as (He1 & Hr1 & Hf1 & _).
  set (app1 := update_connection_status (set_rebooting app true) status_text
                 "gray" "Drone IP: Temporarily Unavailable" "gray") in *.
  cbn [set_rebooting ssh_executor relay is_rebooting_or_shutting_down]
    in He1, Hr1, Hf1.
  set (app2 := set_executor app1
                 (set_policy (ssh_executor app1)
                    (timeout (ssh_executor app1)) 1)).
  assert (He2 : ssh_executor app2
                = set_policy (ssh_executor app) (timeout (ssh_executor app)) 1)
    by (cbn [app2 set_executor ssh_executor]; rewrite He1; reflexivity).
  assert (Hr2 : relay app2 = relay app) by exact Hr1.
  assert (Hf2 : is_rebooting_or_shutting_down app2 = true) by exact Hf1.
  destruct (Hrun app2 w eq_refl) as (Hexec & new1 & Hlog1 & Hc1 & Hs1 & Hk1).
  destruct (run app2 w) as [[ok e] w1]. cbn [fst snd] in Hexec, Hlog1.
  subst e.
  replace (set_executor app2 (ssh_executor app2)) with app2 by reflexivity.
  rewrite He1.
  destruct ok.
  - unfold sleep, emit, refresh_connection_status.
    rewrite Hf2. unfold ret. cbn [fst snd log].
    destruct (update_connection_status_fields app2
                "System Rebooting/Shutting Down" "gray"
                "Drone IP: Temporarily Unavailable" "gray")
      as (He4 & Hr4 & Hf4 & _).
    set (app4 := update_connection_status app2
                   "System Rebooting/Shutting Down" "gray"
                   "Drone IP: Temporarily Unavailable" "gray") in *.
    cbn [set_executor is_rebooting_or_shutting_down relay ssh_executor].
    rewrite Hf4, Hr4, He4, Hf2, Hr2, He2.
    split; [reflexivity|]. split; [apply set_policy_restore|].
    split; [reflexivity|].
    exists (new1 ++ [EvSleep wait])%list.
    split; [rewrite Hlog1, <- app_assoc; reflexivity|].
    rewrite !count_app.
    cbn [count filter is_connect is_sleep is_socket List.length].
    split; [lia|]. split; [lia|]. split; [lia|].
    intros Hin. apply in_app_or in Hin. destruct Hin as [Hin | [Hin | []]].
    + pose proof (count_zero_not_in is_sleep new1 _ Hs1 Hin) as Hno.
      discriminate Hno.
    + injection Hin as Heq. contradiction.
  - destruct (execute_relay_command_one_attempt (ssh_executor app2)
                (relay app2) Relay.tunnel_restart_command w1 eq_refl)
      as (new2 & Hlog2 & Hc2 & Hs2 & Hk2).
    unfold Relay.restart_relay_ssh_tunnel.
    destruct (Relay.execute_relay_command net (ssh_executor app2)
                (relay app2) Relay.tunnel_restart_command None w1)
      as [okr w2].
    cbn [fst snd] in Hlog2. unfold ret. cbn [fst snd].
    cbn [set_executor is_rebooting_or_shutting_down relay ssh_executor].
    rewrite Hf2, Hr2, He2.
    split; [reflexivity|]. split; [apply set_policy_restore|].
    split; [reflexivity|].
    exists (new1 ++ new2)%list.
    split; [rewrite Hlog2, Hlog1, <- app_assoc; reflexivity|].
    rewrite !count_app.
    split; [lia|]. split; [lia|]. split; [lia|].
    intros Hin. apply in_app_or in Hin. destruct Hin as [Hin | Hin].
    + pose proof (count_zero_not_in is_sleep new1 _ Hs1 Hin) as Hno.
      discriminate Hno.
    + pose proof (count_zero_not_in is_sleep new2 _ Hs2 Hin) as Hno.
      discriminate Hno.
Qed.

Lemma on_companions_spec (command : string) (app2 : state) (w2 : world) :
  max_attempts (ssh_executor app2) = 1 ->
  snd (fst (on_companions net command app2 w2)) = ssh_executor app2 /\
  exists new : list event,
    log (snd (on_companions net command app2 w2)) = (log w2 ++ new)%list /\
    (count is_connect new <= 2)%nat /\
    count is_sleep new = 0%nat /\
    count is_socket new = 0%nat.
Proof.
  intros Hone. unfold on_companions.
  split; [apply execute_command_all_executor|].
  unfold execute_command_all, bind.
  destruct (execute_command_one_attempt V1_3 (ssh_executor app2) command
              w2 Hone) as (new1 & Hlog1 & Hc1 & Hs1 & Hk1).
  destruct (execute_command V1_3 net (ssh_executor app2) command None w2)
    as [primary w3]. cbn [fst snd] in Hlog1.
  destruct (Py.truthy_opt (secondary_ip (ssh_executor app2))).
  - destruct (execute_command_one_attempt V1_3
                (set_current (ssh_executor app2)
                   (secondary_ip (ssh_executor app2))
                   (secondary_port (ssh_executor app2))) command w3 Hone)
      as (new2 & Hlog2 & Hc2 & Hs2 & Hk2).
    destruct (execute_command V1_3 net
                (set_current (ssh_executor app2)
                   (secondary_ip (ssh_executor app2))
                   (secondary_port (ssh_executor app2))) command None w3)
      as [secondary w4]. cbn [fst snd ret] in *.
    exists (new1 ++ new2)%list.
    split; [rewrite Hlog2, Hlog1, <- app_assoc; reflexivity|].
    rewrite !count_app. repeat split; lia.
  - cbn [ret fst snd]. exists new1. split; [exact Hlog1|].
    repeat split; lia.
Qed.

Lemma on_relay_spec (command : string) (app2 : state) (w2 : world) :
  max_attempts (ssh_executor app2) = 1 ->
  snd (fst (on_relay net command app2 w2)) = ssh_executor app2 /\
  exists new : list event,
    log (snd (on_relay net command app2 w2)) = (log w2 ++ new)%list /\
    (count is_connect new <= 2)%nat /\
    count is_sleep new = 0%nat /\
    count is_socket new = 0%nat.
Proof.
  intros Hone. unfold on_relay, bind.
  destruct (execute_relay_command_one_attempt (ssh_executor app2)
              (relay app2) command w2 Hone)
    as (new & Hlog & Hc & Hs & Hk).
  destruct (Relay.execute_relay_command net (ssh_executor app2) (relay app2)
              command None w2) as [ok w3].
  cbn [ret fst snd] in *. split; [reflexivity|].
  exists new. split; [exact Hlog|]. repeat split; lia.
Qed.

End PowerActions.

(** X21.  The four power actions (reboot and shutdown of the companions
    and of the relay).  Each raises the rebooting flag and leaves it
    raised; each runs with a budget of one attempt, so it opens at most
    three sessions (one per companion target or one to the relay, and
    one to the relay for the tunnel restart when the command failed),
    never pauses 5 seconds for a retry, and makes no reachability
    probe; the only sleep is the wait after a command that succeeded.
    At the end the executor is exactly what it was before: timeout,
    attempt budget and current target are restored. *)
Theorem power_action_summary (net : network) (p : App.power)
    (app : App.state) (w : world) :
  let r := App.run_power net p app w in
  App.is_rebooting_or_shutting_down (fst r) = true /\
  App.ssh_executor (fst r) = App.ssh_executor app /\
  App.relay (fst r) = App.relay app /\
  exists new : list event,
    log (snd r) = (log w ++ new)%list /\
    (count is_connect new <= 3)%nat /\
    (count is_sleep new <= 1)%nat /\
    count is_socket new = 0%nat /\
    ~ In (EvSleep 5) new.
Proof.
  destruct p; cbn [App.run_power];
    unfold App.reboot_companion_and_restart_tunnel,
      App.shutdown_companion_and_restart_tunnel, App.reboot_relay,
      App.shutdown_relay.
  - apply (power_action_spec net "System Rebooting"
             (App.on_companions net "sudo reboot") 90 2 app w);
      [discriminate | apply on_companions_spec].
  - apply (power_action_spec net "System Shutting Down"
             (App.on_companions net "sudo shutdown now") 120 2 app w);
      [discriminate | apply on_companions_spec].
  - apply (power_action_spec net "System Rebooting"
             (App.on_relay net "sudo reboot") 90 2 app w);
      [discriminate | apply on_relay_spec].
  - apply (power_action_spec net "System Shutting Down"
             (App.on_relay net "sudo shutdown now") 120 2 app w);
      [discriminate | apply on_relay_spec].
Qed.

(** X22.  Once the rebooting flag is raised the connection checks are
    inert: [refresh_connection_status] and a round of
    [periodic_connection_check] make no interaction with the outside
    world, leave the executor as it is, keep the flag raised, and the
    periodic check does not schedule another round.  Every power action
    ends in such a state, so after a reboot or shutdown issued from the
    window no connection check reaches the network again. *)
Theorem checks_inert_while_rebooting (net : network)
    (platform stamp : string) (app : App.state) (w : world) :
  App.is_rebooting_or_shutting_down app = true ->
  let again := App.refresh_connection_status net app w in
  let round := App.periodic_connection_check net platform stamp app w in
  (snd again = w /\
   App.ssh_executor (fst again) = App.ssh_executor app /\
   App.is_rebooting_or_shutting_down (fst again) = true /\
   App.top_status_label (fst again)
   = "System Rebooting/Shutting Down | Drone IP: Temporarily Unavailable") /\
  (snd round = w /\
   snd (fst round) = false /\
   App.ssh_executor (fst (fst round)) = App.ssh_executor app /\
   App.is_rebooting_or_shutting_down (fst (fst round)) = true) /\
  forall (p : App.power) (app0 : App.state) (w0 : world),
    App.is_rebooting_or_shutting_down (fst (App.run_power net p app0 w0))
    = true.
Proof.
  intros Hflag again round.
  unfold again, round, App.refresh_connection_status,
    App.periodic_connection_check.
  rewrite Hflag, orb_true_r. unfold ret. cbn [fst snd].
  split; [|split].
  - repeat split; try exact Hflag.
  - repeat split; try exact Hflag.
  - intros p app0 w0.
    destruct p; cbn [App.run_power];
      unfold App.reboot_companion_and_restart_tunnel,
        App.shutdown_companion_and_restart_tunnel, App.reboot_relay,
        App.shutdown_relay.
    + apply (power_action_spec net "System Rebooting"
               (App.on_companions net "sudo reboot") 90 2 app0 w0);
        [discriminate | apply on_companions_spec].
    + apply (power_action_spec net "System Shutting Down"
               (App.on_companions net "sudo shutdown now") 120 2 app0 w0);
        [discriminate | apply on_companions_spec].
    + apply (power_action_spec net "System Rebooting"
               (App.on_relay net "sudo reboot") 90 2 app0 w0);
        [discriminate | apply on_relay_spec].
    + apply (power_action_spec net "System Shutting Down"
               (App.on_relay net "sudo shutdown now") 120 2 app0 w0);
        [discriminate | apply on_relay_spec].
Qed.

(** The window after the companions were told to reboot. *)
Lemma checks_inert_while_rebooting_witness :
  snd (App.refresh_connection_status (net_exits 0)
         (fst (App.run_power (net_exits 0) App.RebootCompanion window
                 world0))
         (snd (App.run_power (net_exits 0) App.RebootCompanion window
                 world0)))
  = snd (App.run_power (net_exits 0) App.RebootCompanion window world0).
Proof.
  refine (proj1 (proj1 (checks_inert_while_rebooting (net_exits 0) "linux"
                          "2025-01-01 00:00:00" _ _ _))).
  vm_compute. reflexivity.
Defined.

(** ** The application window: connection checks and settings *)

Section Checks.

Import App.

Variable net : network.

Lemma test_connection_tested (self : SSHExecutor) (w : world) :
  tested self (snd (fst (test_connection net self w))).
Proof.
  unfold test_connection, bind, tested.
  destruct (probe_if_set net self (current_ip self) (current_port self) w)
    as [[|] w1]; [left; reflexivity|].
  destruct (probe_if_set net self (secondary_ip self) (secondary_port self)
              w1) as [[|] w2]; [right | left]; reflexivity.
Qed.

Lemma tested_policy (self self' : SSHExecutor) :
  tested self self' ->
  set_policy self' (timeout self) (max_attempts self) = self'.
Proof.
  intros [-> | ->]; destruct self; reflexivity.
Qed.

Lemma same_settings_refl (app : state) : same_settings app app.
Proof.
  repeat split.
Qed.

Lemma same_settings_trans (a b c : state) :
  same_settings a b -> same_settings b c -> same_settings a c.
Proof.
  unfold same_settings. intros (H1 & H2 & H3 & H4 & H5) (K1 & K2 & K3 & K4 & K5).
  repeat split; congruence.
Qed.

Lemma update_connection_status_same (app : state)
    (status_text status_color ip_text ip_color : string) :
  same_settings
    (update_connection_status app status_text status_color ip_text ip_color)
    app /\
  ssh_executor
    (update_connection_status app status_text status_color ip_text ip_color)
  = ssh_executor app.
Proof.
  unfold update_connection_status.
  destruct (String.eqb (lower status_color) "green");
    [|destruct (String.eqb (lower status_color) "red")];
    repeat split.
Qed.

Lemma update_companion_version_same (app : state) (w : world) :
  same_settings (fst (update_companion_version net app w)) app /\
  ssh_executor (fst (update_companion_version net app w)) = ssh_executor app.
Proof.
  unfold update_companion_version. run.
  destruct (ssh_connect net (clock w) (current_ip (ssh_executor app))
              (current_port (ssh_executor app)) (username (ssh_executor app))
              (password (ssh_executor app)) (timeout (ssh_executor app)));
    run; [|repeat split|repeat split].
  destruct (ssh_exec net (S (clock w)) "cat /etc/sid.conf");
    repeat split.
Qed.

Lemma update_wifi_temp_same (app : state) :
  same_settings (update_wifi_temp app) app /\
  ssh_executor (update_wifi_temp app) = ssh_executor app.
Proof.
  unfold update_wifi_temp. destruct (wifi_temp_busy app); repeat split.
Qed.

(** A connection check changes the executor as [test_connection] does,
    and nothing else of the settings. *)
Lemma check_connection_same (on_connect : state -> M state) (app : state)
    (w : world) :
  (forall a w0,
     same_settings (fst (on_connect a w0)) a /\
     ssh_executor (fst (on_connect a w0)) = ssh_executor a) ->
  same_settings (fst (check_connection net on_connect app w)) app /\
  ssh_executor (fst (check_connection net on_connect app w))
  = snd (fst (test_connection net (ssh_executor app) w)).
Proof.
  intros Hon. unfold check_connection, bind.
  pose proof (test_connection_tested (ssh_executor app) w) as Htested.
  destruct (test_connection net (ssh_executor app) w) as [[reachable e1] w1].
  cbn [fst snd] in Htested |- *.
  pose proof (tested_policy _ _ Htested) as Hpolicy.
  destruct (Py.truthy_opt reachable).
  - match goal with
    | |- context [on_connect ?a ?w0] =>
        destruct (Hon a w0) as (Hs1 & He1);
        destruct (update_connection_status_same (set_executor app e1)
                    "Connected and Ready" "green"
                    ("Drone IP: " ++ Py.or_default reachable "" ++ ":"
                     ++ current_port e1) "green") as (Hs0 & He0);
        destruct (on_connect a w0) as [app3 w3]
    end.
    cbn [fst snd] in Hs1, He1.
    destruct (update_companion_version_same app3 w3) as (Hs2 & He2).
    destruct (update_companion_version net app3 w3) as [app4 w4].
    cbn [fst snd] in Hs2, He2.
    destruct (update_wifi_temp_same app4) as (Hs3 & He3).
    unfold ret. cbn [fst snd set_executor ssh_executor].
    rewrite He3, He2, He1, He0. cbn [set_executor ssh_executor].
    split; [|exact Hpolicy].
    assert (Hall : same_settings (update_wifi_temp app4) app).
    { eapply same_settings_trans; [exact Hs3|].
      eapply same_settings_trans; [exact Hs2|].
      eapply same_settings_trans; [exact Hs1|].
      eapply same_settings_trans; [exact Hs0|]. repeat split. }
    destruct Hall as (H1 & H2 & H3 & H4 & H5). repeat split; assumption.
  - destruct (update_connection_status_same (set_executor app e1)
                "Not Ready" "red" "Drone IP: Not Connected" "red")
      as (Hs0 & He0).
    match goal with
    | |- context [Relay.restart_relay_ssh_tunnel net ?e ?s ?w0] =>
        destruct (Relay.restart_relay_ssh_tunnel net e s w0) as [okr w2]
    end.
    unfold ret. cbn [fst snd set_executor ssh_executor].
    rewrite He0. cbn [set_executor ssh_executor].
    split; [|exact Hpolicy].
    destruct Hs0 as (H1 & H2 & H3 & H4 & H5). repeat split; assumption.
Qed.


Lemma periodic_connection_check_same (platform stamp : string)
    (app : state) (w : world) :
  same_settings
    (fst (fst (periodic_connection_check net platform stamp app w))) app /\
  tested (ssh_executor app)
    (ssh_executor
       (fst (fst (periodic_connection_check net platform stamp app w)))).
Proof.
  unfold periodic_connection_check.
  destruct (negb (connection_check_enabled app)
            || is_rebooting_or_shutting_down app).
  - unfold ret. cbn [fst].
    destruct (update_connection_status_same app "Connection Check Disabled"
                "gray" "Drone IP: N/A" "gray") as (Hs & He).
    split; [exact Hs|]. rewrite He. left. reflexivity.
  - unfold bind.
    match goal with
    | |- context [check_connection net ?f app w] =>
        destruct (check_connection_same f app w) as (Hs & He);
        [|destruct (check_connection net f app w) as [app' w']]
    end.
    + intros a w0. destruct (negb (time_synced a)).
      * unfold bind, sync_time_with_popup.
        destruct (sync_date_time V1_3 net (ssh_executor a) platform stamp w0).
        unfold ret. cbn [fst]. repeat split.
      * unfold ret. cbn [fst]. repeat split.
    + cbn [fst snd ret] in *. split; [exact Hs|]. rewrite He.
      apply test_connection_tested.
Qed.

Lemma session_event_not_socket (self : SSHExecutor) (cmd : string)
    (e : event) :
  session_event self cmd e -> is_socket e = false.
Proof.
  intros [-> | [-> | [-> | ->]]]; reflexivity.
Qed.

Lemma execute_command_no_probe (rel : release) (self : SSHExecutor)
    (command : string) (max_attempts_arg : option Z) :
  adds (fun e => is_socket e = false)
    (execute_command rel net self command max_attempts_arg).
Proof.
  eapply adds_weaken; [|apply execute_command_adds].
  intros e. apply session_event_not_socket.
Qed.

Lemma restart_relay_ssh_tunnel_no_probe (self : SSHExecutor)
    (station : Relay.endpoint) :
  adds (fun e => is_socket e = false)
    (Relay.restart_relay_ssh_tunnel net self station).
Proof.
  intros w. unfold Relay.restart_relay_ssh_tunnel.
  rewrite execute_relay_command_as_companion.
  apply execute_command_no_probe.
Qed.

Lemma update_companion_version_no_probe (app : state) :
  adds (fun e => is_socket e = false) (update_companion_version net app).
Proof.
  unfold update_companion_version.
  apply adds_bind.
  - unfold connect_. apply adds_bind; [apply adds_tick|]. intros now.
    apply adds_bind; [|intros _; apply adds_ret].
    apply adds_emit. reflexivity.
  - intros [| |].
    + apply adds_bind.
      * unfold exec_command. apply adds_bind; [apply adds_tick|]. intros now.
        apply adds_bind; [|intros _; apply adds_ret].
        apply adds_emit. reflexivity.
      * intros r. apply adds_bind; [apply adds_emit; reflexivity|].
        intros _. destruct r; apply adds_ret.
    + apply adds_bind; [apply adds_emit; reflexivity|].
      intros _. apply adds_ret.
    + apply adds_bind; [apply adds_emit; reflexivity|].
      intros _. apply adds_ret.
Qed.

Lemma test_connection_adds (self : SSHExecutor) :
  adds (probes_of self) (test_connection net self).
Proof.
  unfold test_connection. apply adds_bind.
  - eapply adds_weaken; [|apply probe_if_set_adds].
    cbv beta. intros e He a p tmo Heq. left. exact (He a p tmo Heq).
  - intros [|]; [apply adds_ret|]. apply adds_bind.
    + eapply adds_weaken; [|apply probe_if_set_adds].
      cbv beta. intros e He a p tmo Heq. right. exact (He a p tmo Heq).
    + intros [|]; apply adds_ret.
Qed.

Lemma no_probe_probes_of (self : SSHExecutor) (e : event) :
  is_socket e = false -> probes_of self e.
Proof.
  intros Hno a p tmo ->. discriminate Hno.
Qed.

Lemma check_connection_adds (on_connect : state -> M state) (app : state) :
  (forall a, adds (fun e => is_socket e = false) (on_connect a)) ->
  adds (probes_of (ssh_executor app)) (check_connection net on_connect app).
Proof.
  intros Hon. unfold check_connection.
  apply adds_bind; [apply test_connection_adds|].
  intros [reachable e1].
  apply adds_bind; [|intros a; apply adds_ret].
  eapply adds_weaken; [intros e; apply no_probe_probes_of|].
  destruct (Py.truthy_opt reachable).
  - apply adds_bind; [apply Hon|]. intros app3.
    apply adds_bind; [apply update_companion_version_no_probe|].
    intros app4. apply adds_ret.
  - apply adds_bind; [apply restart_relay_ssh_tunnel_no_probe|].
    intros _. apply adds_ret.
Qed.


Lemma periodic_connection_check_adds (platform stamp : string)
    (app : state) :
  adds (probes_of (ssh_executor app))
    (periodic_connection_check net platform stamp app).
Proof.
  unfold periodic_connection_check.
  destruct (negb (connection_check_enabled app)
            || is_rebooting_or_shutting_down app); [apply adds_ret|].
  apply adds_bind; [|intros a; apply adds_ret].
  apply check_connection_adds. intros a.
  destruct (negb (time_synced a)); [|apply adds_ret].
  apply adds_bind; [|intros _; apply adds_ret].
  unfold sync_time_with_popup, sync_date_time.
  destruct (Py.startswith "win" platform); [apply adds_ret|].
  apply execute_command_no_probe.
Qed.

End Checks.

Section Dict.

Import Config.

Lemma dict_get_set_same (k : string) (v : json) (d : dict) :
  dict_get k (dict_set k v d) = Some v.
Proof.
  induction d as [|[k' v'] d IH].
  - cbn. rewrite String.eqb_refl. reflexivity.
  - cbn [dict_set]. destruct (String.eqb k' k) eqn:Hk.
    + cbn [dict_get]. rewrite Hk. reflexivity.
    + cbn [dict_get]. rewrite Hk. exact IH.
Qed.

Lemma dict_get_set_other (k k0 : string) (v : json) (d : dict) :
  k0 <> k -> dict_get k (dict_set k0 v d) = dict_get k d.
Proof.
  intros Hne. induction d as [|[k' v'] d IH].
  - cbn. destruct (String.eqb k0 k) eqn:Hk; [|reflexivity].
    apply String.eqb_eq in Hk. contradiction.
  - cbn [dict_set]. destruct (String.eqb k' k0) eqn:Hk0.
    + apply String.eqb_eq in Hk0. subst k'. cbn [dict_get].
      destruct (String.eqb k0 k) eqn:Hk; [|reflexivity].
      apply String.eqb_eq in Hk. contradiction.
    + cbn [dict_get]. destruct (String.eqb k' k); [reflexivity | exact IH].
Qed.

End Dict.


(** X24.  [apply_connection_settings] never stores a timeout, an
    attempt budget or an interval that is not positive: when the three
    are positive before the call they are positive after it, whatever
    the form holds and whatever the network does.  The file is written
    exactly when the form is accepted, and then the executor holds the
    entered timeout and budget and the interval is the entered seconds
    times 1000.  The check box, however, is taken over into the window
    and into the configuration in memory even when the form is
    rejected and nothing is saved. *)
Theorem apply_connection_settings_positive (net : network)
    (platform stamp : string) (form : App.connection_form)
    (app : App.state) (w : world) :
  let r := App.apply_connection_settings net platform stamp form app w in
  let app' := fst (fst r) in
  (0 < timeout (App.ssh_executor app) ->
   0 < max_attempts (App.ssh_executor app) ->
   0 < App.connection_check_interval app ->
   0 < timeout (App.ssh_executor app') /\
   0 < max_attempts (App.ssh_executor app') /\
   0 < App.connection_check_interval app') /\
  App.connection_check_enabled app' = App.conn_check_enabled_box form /\
  Config.dict_get "connection_check_enabled" (App.ssh_config app')
  = Some (Config.JBool (App.conn_check_enabled_box form)) /\
  (if accepted form then
     snd (fst r) = Some (Config.Holds (Config.JObj (App.ssh_config app'))) /\
     Some (timeout (App.ssh_executor app')) = App.timeout_entry form /\
     Some (max_attempts (App.ssh_executor app'))
     = App.max_attempts_entry form /\
     Some (App.connection_check_interval app')
     = option_map (fun i => i * 1000) (App.interval_entry form)
   else
     snd (fst r) = None /\ snd r = w).
Proof.
  intros r app'. unfold app', r, App.apply_connection_settings, accepted.
  destruct form as [box interval tmo attempts].
  cbn [App.conn_check_enabled_box App.interval_entry App.timeout_entry
       App.max_attempts_entry].
  set (app1 := App.set_ssh_config (App.set_check_enabled app box) _).
  assert (Hget1 : Config.dict_get "connection_check_enabled"
                    (App.ssh_config app1) = Some (Config.JBool box))
    by apply dict_get_set_same.
  destruct interval as [i|];
    [|unfold ret; cbn [fst snd]; repeat split; auto].
  destruct (Z.leb_spec i 0) as [Hi | Hi].
  { assert (Hni : (0 <? i) = false) by (apply Z.ltb_ge; lia).
    unfold ret. cbn [fst snd].
    destruct tmo as [t|]; [destruct attempts as [n|]|];
      rewrite ?Hni; cbn [andb]; repeat split; auto. }
  assert (Hpi : (0 <? i) = true) by (apply Z.ltb_lt; lia).
  rewrite Hpi. cbn [andb].
  set (app2 := App.set_ssh_config
                 (App.set_check_interval app1 (i * 1000)) _).
  assert (Hget2 : Config.dict_get "connection_check_enabled"
                    (App.ssh_config app2) = Some (Config.JBool box)).
  { unfold app2. cbn [App.ssh_config App.set_ssh_config].
    rewrite dict_get_set_other by discriminate. exact Hget1. }
  destruct tmo as [t|];
    [|unfold ret; cbn [fst snd]; repeat split; auto; cbn; lia].
  destruct (Z.leb_spec t 0) as [Ht | Ht].
  { assert (Hnt : (0 <? t) = false) by (apply Z.ltb_ge; lia).
    unfold ret. cbn [fst snd].
    destruct attempts as [n|]; rewrite ?Hnt; cbn [andb];
      repeat split; auto; cbn; lia. }
  assert (Hpt : (0 <? t) = true) by (apply Z.ltb_lt; lia).
  rewrite Hpt.
  set (app3 := App.set_executor app2 _).
  destruct attempts as [n|];
    [|unfold ret; cbn [fst snd]; repeat split; auto; cbn; lia].
  destruct (Z.leb_spec n 0) as [Hn | Hn].
  { assert (Hnn : (0 <? n) = false) by (apply Z.ltb_ge; lia).
    rewrite Hnn. unfold ret. cbn [fst snd].
    repeat split; auto; cbn; lia. }
  assert (Hpn : (0 <? n) = true) by (apply Z.ltb_lt; lia).
  rewrite Hpn.
  set (app4 := App.set_executor app3 _).
  assert (Hfinal : forall app5 : App.state,
             same_settings app5 app4 ->
             tested (App.ssh_executor app4) (App.ssh_executor app5) ->
             (0 < timeout (App.ssh_executor app5)
              /\ 0 < max_attempts (App.ssh_executor app5)
              /\ 0 < App.connection_check_interval app5)
             /\ App.connection_check_enabled app5 = box
             /\ Config.dict_get "connection_check_enabled"
                  (App.ssh_config app5) = Some (Config.JBool box)
             /\ Some (Config.save_config
                        (Config.JObj (App.ssh_config app4)))
                = Some (Config.Holds (Config.JObj (App.ssh_config app5)))
             /\ Some (timeout (App.ssh_executor app5)) = Some t
             /\ Some (max_attempts (App.ssh_executor app5)) = Some n
             /\ Some (App.connection_check_interval app5)
                = Some (i * 1000)).
  { intros app5 (Hc & _ & _ & He & Hiv) Ht5.
    assert (Hpol : timeout (App.ssh_executor app5) = t
                   /\ max_attempts (App.ssh_executor app5) = n)
      by (destruct Ht5 as [-> | ->]; split; reflexivity).
    destruct Hpol as [Htm Hma].
    rewrite Hc, He, Hiv, Htm, Hma.
    cbn [app4 app3 App.set_executor App.connection_check_interval
         App.connection_check_enabled App.ssh_config].
    repeat split; try lia; try exact Hget2.
    cbn. lia. }
  cbn [andb].
  destruct (App.connection_check_enabled app4).
  - unfold bind.
    destruct (periodic_connection_check_same net platform stamp app4 w)
      as (Hs & Ht5).
    destruct (App.periodic_connection_check net platform stamp app4 w)
      as [[app5 again] w5].
    cbn [fst snd ret] in *.
    destruct (Hfinal app5 Hs Ht5) as (Hpos & Hrest).
    split; [intros _ _ _; exact Hpos | exact Hrest].
  - unfold ret. cbn [fst snd].
    destruct (update_connection_status_same app4 "Connection Check Disabled"
                "gray" "Drone IP: N/A" "gray") as (Hs & He).
    destruct (Hfinal _ Hs) as (Hpos & Hrest).
    { rewrite He. left. reflexivity. }
    split; [intros _ _ _; exact Hpos | exact Hrest].
Qed.

(** A timeout of zero is refused: the executor keeps its timeout and
    nothing is saved. *)
Lemma apply_connection_settings_positive_witness :
  let r := App.apply_connection_settings net_dead "linux"
             "2025-01-01 00:00:00" zero_timeout_form window world0 in
  0 < timeout (App.ssh_executor (fst (fst r))) /\
  0 < max_attempts (App.ssh_executor (fst (fst r))) /\
  0 < App.connection_check_interval (fst (fst r)).
Proof.
  apply (apply_connection_settings_positive net_dead "linux"
           "2025-01-01 00:00:00" zero_timeout_form window world0);
    reflexivity.
Defined.

(** ** Camera parameters in the streaming configuration *)

Section CamRewrite.

Import Text CamParams.

Variables device resolution fps cam_format : string.

Lemma strip_keeps_head (c : ascii) (s : string) :
  is_space c = false -> exists t, strip (String c s) = String c t.
Proof.
  intros Hc. unfold strip. cbn [lstrip]. rewrite Hc. cbn [rstrip].
  destruct (rstrip s); [rewrite Hc|]; eexists; reflexivity.
Qed.

Lemma parameter_line_not_header (line : string) :
  is_parameter_line resolution fps cam_format line -> is_header line = false.
Proof.
  unfold is_parameter_line, resolution_line, fps_line, format_line, is_header.
  intros [-> | [-> | ->]]; cbn [append];
    match goal with
    | |- context [strip (String ?c ?t)] =>
        destruct (strip_keeps_head c t eq_refl) as (x & ->)
    end; reflexivity.
Qed.

Lemma pending_parameter_lines (st : flags) :
  Forall (is_parameter_line resolution fps cam_format)
    (pending resolution fps cam_format st).
Proof.
  unfold pending, is_parameter_line.
  destruct (in_target st); [|constructor].
  destruct (res_updated st), (fps_updated st), (format_updated st);
    cbn [app];
    repeat (constructor; [tauto|]); constructor.
Qed.

Lemma filter_header_parameter_lines (l : list string) :
  Forall (is_parameter_line resolution fps cam_format) l ->
  filter is_header l = [].
Proof.
  induction 1 as [|x l Hx Hl IH]; [reflexivity|].
  cbn [filter]. rewrite (parameter_line_not_header x Hx). exact IH.
Qed.

Lemma rewrite_from_headers (st : flags) (lines : list string) :
  filter is_header (rewrite_from device resolution fps cam_format st lines)
  = filter is_header lines.
Proof.
  revert st. induction lines as [|line rest IH]; intros st.
  - cbn [rewrite_from]. apply filter_header_parameter_lines.
    apply pending_parameter_lines.
  - cbn [rewrite_from filter].
    destruct (is_header line) eqn:Hh.
    + rewrite filter_app.
      rewrite (filter_header_parameter_lines _ (pending_parameter_lines st)).
      cbn [app filter]. rewrite Hh, IH. reflexivity.
    + destruct (is_target device line);
        [cbn [filter]; rewrite Hh; apply IH|].
      destruct (in_target st); [|cbn [filter]; rewrite Hh; apply IH].
      destruct (Py.startswith "resolution" (lstrip_hash (strip line)));
        [cbn [filter];
         rewrite (parameter_line_not_header _ (or_introl eq_refl));
         apply IH|].
      destruct (Py.startswith "fps" (lstrip_hash (strip line)));
        [cbn [filter];
         rewrite (parameter_line_not_header _
                    (or_intror (or_introl eq_refl)));
         apply IH|].
      destruct (Py.startswith "format" (lstrip_hash (strip line)));
        [cbn [filter];
         rewrite (parameter_line_not_header _
                    (or_intror (or_intror eq_refl)));
         apply IH|].
      cbn [filter]. rewrite Hh. apply IH.
Qed.

Lemma rewrite_from_lines (st : flags) (lines : list string) :
  Forall (fun l => In l lines
                   \/ is_parameter_line resolution fps cam_format l)
    (rewrite_from device resolution fps cam_format st lines) /\
  (List.length lines
   <= List.length (rewrite_from device resolution fps cam_format st lines))%nat.
Proof.
  revert st. induction lines as [|line rest IH]; intros st.
  - cbn [rewrite_from]. split; [|cbn; lia].
    eapply Forall_impl; [|apply pending_parameter_lines].
    intros l Hl. right. exact Hl.
  - assert (Hrest : forall st',
               Forall (fun l => In l (line :: rest)
                                \/ is_parameter_line resolution fps
                                     cam_format l)
                 (rewrite_from device resolution fps cam_format st' rest)).
    { intros st'. eapply Forall_impl; [|apply (IH st')].
      intros l [Hin | Hp]; [left; right; exact Hin | right; exact Hp]. }
    assert (Hlen : forall st',
               (List.length rest
                <= List.length
                     (rewrite_from device resolution fps cam_format st'
                        rest))%nat)
      by (intros st'; apply (IH st')).
    cbn [rewrite_from].
    destruct (is_header line).
    + split.
      * apply Forall_app. split.
        -- eapply Forall_impl; [|apply pending_parameter_lines].
           intros l Hl. right. exact Hl.
        -- constructor; [left; left; reflexivity | apply Hrest].
      * rewrite length_app. cbn [List.length].
        specialize (Hlen (set_in_target st false)). lia.
    + destruct (is_target device line).
      { split; [constructor; [left; left; reflexivity | apply Hrest]|].
        cbn [List.length]. specialize (Hlen (set_in_target st true)). lia. }
      destruct (in_target st).
      * destruct (Py.startswith "resolution" (lstrip_hash (strip line))).
        { split; [constructor; [right; left; reflexivity | apply Hrest]|].
          cbn [List.length].
          match goal with
          | |- context [rewrite_from _ _ _ _ ?s rest] =>
              specialize (Hlen s)
          end. lia. }
        destruct (Py.startswith "fps" (lstrip_hash (strip line))).
        { split; [constructor; [right; right; left; reflexivity
                               | apply Hrest]|].
          cbn [List.length].
          match goal with
          | |- context [rewrite_from _ _ _ _ ?s rest] =>
              specialize (Hlen s)
          end. lia. }
        destruct (Py.startswith "format" (lstrip_hash (strip line))).
        { split; [constructor; [right; right; right; reflexivity
                               | apply Hrest]|].
          cbn [List.length].
          match goal with
          | |- context [rewrite_from _ _ _ _ ?s rest] =>
              specialize (Hlen s)
          end. lia. }
        split; [constructor; [left; left; reflexivity | apply Hrest]|].
        cbn [List.length]. specialize (Hlen st). lia.
      * split; [constructor; [left; left; reflexivity | apply Hrest]|].
        cbn [List.length]. specialize (Hlen st). lia.
Qed.

Lemma rewrite_from_frame (st : flags) (lines : list string) :
  in_target st = false ->
  (forall line, In line lines -> is_target device line = false) ->
  rewrite_from device resolution fps cam_format st lines = lines.
Proof.
  revert st. induction lines as [|line rest IH]; intros st Hst Hno.
  - cbn [rewrite_from]. unfold pending. rewrite Hst. reflexivity.
  - cbn [rewrite_from]. rewrite (Hno line) by (left; reflexivity).
    rewrite Hst. unfold pending. rewrite Hst. cbn [app].
    destruct (is_header line); f_equal; apply IH;
      try reflexivity; try exact Hst;
      intros l Hl; apply Hno; right; exact Hl.
Qed.

End CamRewrite.

(** X25.  The rewrite of the streaming configuration in
    [update_cam_params_config] keeps the section headers of the file,
    all of them and in their order; every line it writes is a line of
    the file or one of the three parameter lines; it never drops a
    line; and a file in which no line names the camera (a line that
    contains [camera_name] and the device text) is written back
    unchanged. *)
Theorem cam_params_rewrite_frame (device resolution fps cam_format : string)
    (lines : list string) :
  let out := CamParams.rewrite_lines device resolution fps cam_format lines in
  filter CamParams.is_header out = filter CamParams.is_header lines /\
  Forall (fun l => In l lines
                   \/ CamParams.is_parameter_line resolution fps cam_format l)
    out /\
  (List.length lines <= List.length out)%nat /\
  ((forall line, In line lines -> CamParams.is_target device line = false) ->
   out = lines).
Proof.
  intros out. unfold out, CamParams.rewrite_lines.
  split; [apply rewrite_from_headers|].
  split; [apply rewrite_from_lines|].
  split; [apply rewrite_from_lines|].
  apply rewrite_from_frame. reflexivity.
Qed.

(** The settings of [/dev/video9], which the file does not name. *)
Lemma cam_params_rewrite_frame_witness :
  CamParams.rewrite_lines "/dev/video9" "1280x720" "60" "YUYV"
    CamParams.two_cameras = CamParams.two_cameras.
Proof.
  apply (cam_params_rewrite_frame "/dev/video9" "1280x720" "60" "YUYV"
           CamParams.two_cameras).
  intros line Hin. cbn [CamParams.two_cameras In] in Hin.
  repeat (destruct Hin as [<- | Hin]; [reflexivity|]). contradiction.
Defined.

(** X26.  The three flags of the rewrite loop are never reset between
    sections.  Once a resolution, a frame rate and a format line have
    been replaced, no parameter line is appended any more: the rest of
    the file keeps its number of lines, so a later section of the
    camera that lacks a parameter does not receive it. *)
Theorem cam_params_flags_never_reset
    (device resolution fps cam_format : string)
    (st : CamParams.flags) (lines : list string) :
  CamParams.res_updated st = true ->
  CamParams.fps_updated st = true ->
  CamParams.format_updated st = true ->
  List.length (CamParams.rewrite_from device resolution fps cam_format st
                 lines) = List.length lines.
Proof.
  revert st. induction lines as [|line rest IH]; intros st Hr Hf Hm.
  - cbn [CamParams.rewrite_from]. unfold CamParams.pending.
    rewrite Hr, Hf, Hm. destruct (CamParams.in_target st); reflexivity.
  - cbn [CamParams.rewrite_from].
    assert (Hp : CamParams.pending resolution fps cam_format st = []).
    { unfold CamParams.pending. rewrite Hr, Hf, Hm.
      destruct (CamParams.in_target st); reflexivity. }
    rewrite Hp. cbn [app].
    destruct (CamParams.is_header line);
      [cbn [List.length]; rewrite IH; auto|].
    destruct (CamParams.is_target device line);
      [cbn [List.length]; rewrite IH; auto|].
    destruct (CamParams.in_target st);
      [|cbn [List.length]; rewrite IH; auto].
    destruct (Py.startswith "resolution"
                (CamParams.lstrip_hash (Text.strip line)));
      [cbn [List.length]; rewrite IH; auto|].
    destruct (Py.startswith "fps"
                (CamParams.lstrip_hash (Text.strip line)));
      [cbn [List.length]; rewrite IH; auto|].
    destruct (Py.startswith "format"
                (CamParams.lstrip_hash (Text.strip line)));
      cbn [List.length]; rewrite IH; auto.
Qed.

(** In [CamParams.two_cameras] with the device text [/dev/video], which
    both cameras contain, the first section has the three parameters;
    the second has none and gets none. *)
Lemma cam_params_flags_never_reset_witness :
  List.length
    (CamParams.rewrite_from "/dev/video" "1280x720" "60" "YUYV"
       {| CamParams.in_target := true; CamParams.res_updated := true;
          CamParams.fps_updated := true; CamParams.format_updated := true |}
       ["[camera1]" ++ CamParams.nl;
        "camera_name = /dev/video2" ++ CamParams.nl])
  = 2%nat.
Proof.
  apply (cam_params_flags_never_reset "/dev/video" "1280x720" "60" "YUYV");
    reflexivity.
Defined.
